(** * use-stick-to-bottom: the stick-to-bottom scroll engine

    A shallow embedding of [useStickToBottom] (the document-aware hook):
    the animation parameter resolver [mergeAnimations] with its module-level
    cache, the derived geometry getters of the state record, the scroll,
    wheel and resize handlers, [scrollToBottom] with its per-frame
    continuation, and [stopScroll].

    Numbers.  What the DOM and the clock give (offsets, heights, times) and
    the spring parameters are finite numbers, modelled by the rationals [Q]
    with exact arithmetic and the boolean tests of [QArith].  A target
    resolver is code of the application and may return anything a function
    typed [number] can: a finite number, an infinity or NaN; NaN is carried
    through everything computed from the resolver's answer, with the
    comparison and arithmetic rules of JavaScript ([JSNumber]).  Rounding of
    doubles, overflow and division by zero are outside the model.

    Effects.  Everything the hook mutates (the state record, React's state
    cells, the closure variables, the module-level cache, the DOM surface and
    the queue of scheduled callbacks) lives in one record [World]; the code is
    written in a state monad over it. *)

From Stdlib Require Import QArith Qcanon Qround Lqa.
From stdpp Require Import base option list gmap.

Local Open Scope Q_scope.

(** ** Numbers *)

Definition Qlt_bool (x y : Q) : bool := negb (Qle_bool y x).

(** [Math.max] and [Math.min] on two arguments. *)
Definition Math_max (a b : Q) : Q := if Qle_bool a b then b else a.
Definition Math_min (a b : Q) : Q := if Qle_bool a b then a else b.

(** Truthiness of a number: everything but [0]. *)
Definition truthy (x : Q) : bool := negb (Qeq_bool x 0).

(** Truthiness of [number | undefined]. *)
Definition truthy_opt (x : option Q) : bool :=
  match x with Some v => truthy v | None => false end.

(** [a ?? b] *)
Definition nullish {A} (a : option A) (b : A) : A :=
  match a with Some v => v | None => b end.

(** [x === o] for a number [x] and [o : number | undefined]. *)
Definition strict_eq_opt (x : Q) (o : option Q) : bool :=
  match o with Some v => Qeq_bool x v | None => false end.

(** A number that may be NaN. *)
Inductive JSNumber :=
| Num (q : Q)
| NaN.

(** [a < b] and [a <= b]: false as soon as one side is NaN. *)
Definition js_lt (a b : JSNumber) : bool :=
  match a, b with
  | Num x, Num y => Qlt_bool x y
  | _, _ => false
  end.
Definition js_le (a b : JSNumber) : bool :=
  match a, b with
  | Num x, Num y => Qle_bool x y
  | _, _ => false
  end.

(** [Math.min(a, b)]: NaN as soon as one argument is NaN. *)
Definition js_min (a b : JSNumber) : JSNumber :=
  match a, b with
  | Num x, Num y => Num (Math_min x y)
  | _, _ => NaN
  end.

(** [a + b], [a - b], [a * b] and [a / b]. *)
Definition js_arith (f : Q -> Q -> Q) (a b : JSNumber) : JSNumber :=
  match a, b with
  | Num x, Num y => Num (f x y)
  | _, _ => NaN
  end.
Definition js_add : JSNumber -> JSNumber -> JSNumber := js_arith Qplus.
Definition js_sub : JSNumber -> JSNumber -> JSNumber := js_arith Qminus.
Definition js_mul : JSNumber -> JSNumber -> JSNumber := js_arith Qmult.
Definition js_div : JSNumber -> JSNumber -> JSNumber := js_arith Qdiv.

(** [a] is a number, of value [q]. *)
Definition js_is (a : JSNumber) (q : Q) : Prop :=
  match a with Num x => x == q | NaN => False end.

(** What a scroll offset setter of the browser makes of the value it is
    given: a value that is not finite is taken as 0. *)
Definition finite_or_zero (a : JSNumber) : Q :=
  match a with Num x => x | NaN => 0 end.

(** What a function typed [number] can return: NaN also stands for
    [undefined] and every other value that [Math.min] turns into NaN. *)
Inductive ResolverOutput :=
| Finite (q : Q)
| PlusInfinity
| MinusInfinity
| NotANumber.

(** [Math.max(Math.min(r, target), 0)] for a finite [target]. *)
Definition clamp_to_target (r : ResolverOutput) (target : Q) : JSNumber :=
  match r with
  | Finite q => Num (Math_max (Math_min q target) 0)
  | PlusInfinity => Num (Math_max target 0)
  | MinusInfinity => Num 0
  | NotANumber => NaN
  end.

Definition STICK_TO_BOTTOM_OFFSET_PX : Q := 70.
Definition SIXTY_FPS_INTERVAL_MS : Q := 1000 / 60.
Definition RETAIN_ANIMATION_DURATION_MS : Q := 350.

(** ** Animation parameters *)

(** [Required<SpringAnimation>] *)
Record Spring := { damping : Q; stiffness : Q; mass : Q }.

Definition DEFAULT_SPRING_ANIMATION : Spring :=
  {| damping := 7 # 10; stiffness := 5 # 100; mass := 125 # 100 |}.

(** [SpringAnimation]: every field optional. *)
Record SpringAnimation :=
  { sa_damping : option Q; sa_stiffness : option Q; sa_mass : option Q }.

(** The values [mergeAnimations] is called with:
    [Animation | boolean | undefined], where [Animation] is a
    [ScrollBehavior] string or a [SpringAnimation] object. *)
Inductive ScrollBehavior := BAuto | BInstant | BSmooth.

Inductive AnimationSource :=
| SrcBehavior (s : ScrollBehavior)    (* "auto", "instant" or "smooth" *)
| SrcObject (a : SpringAnimation)     (* an object *)
| SrcBool (b : bool)
| SrcUndefined.

(** Value equality of two parameter triples. *)
Definition spring_equal (a b : Spring) : Prop :=
  damping a == damping b /\ stiffness a == stiffness b /\ mass a == mass b.

(** A reference to a frozen parameter object: its identity and its fields.
    The object is never written after [Object.freeze], so a reference
    determines the fields. *)
Record FrozenSpring := { ref : nat; val : Spring }.

(** The result of [mergeAnimations]. *)
Inductive Behavior :=
| Instant
| Resolved (o : FrozenSpring).

(** [a === b] on behaviors: the sentinel string, or object identity. *)
Definition behavior_same (a b : Behavior) : bool :=
  match a, b with
  | Instant, Instant => true
  | Resolved x, Resolved y => Nat.eqb (ref x) (ref y)
  | _, _ => false
  end.

(** [JSON.stringify(result)]: the string determines, and is determined by,
    the three numbers; the canonical rationals stand for the printed
    decimals. *)
Definition Key : Type := Qc * Qc * Qc.

Definition JSON_stringify (r : Spring) : Key :=
  (Q2Qc (damping r), Q2Qc (stiffness r), Q2Qc (mass r)).

(** Module-level state: [mouseDown], [animationCache], and the number of
    objects allocated so far (the identity given to the next one). *)
Record ModuleScope := {
  mouseDown : bool;
  animationCache : gmap Key FrozenSpring;
  allocated : nat;
}.

Definition module_init : ModuleScope :=
  {| mouseDown := false; animationCache := ∅; allocated := 0 |}.

(** One iteration of the [for] loop of [mergeAnimations] on the pair
    [(result, instant)]. *)
Definition merge_step (acc : Spring * bool) (animation : AnimationSource)
  : Spring * bool :=
  let '(result, instant) := acc in
  match animation with
  | SrcBehavior BInstant => (result, true)
  | SrcObject a =>
      ({| damping := nullish (sa_damping a) (damping result);
          stiffness := nullish (sa_stiffness a) (stiffness result);
          mass := nullish (sa_mass a) (mass result) |}, false)
  | SrcBehavior _ | SrcBool _ | SrcUndefined => (result, instant)
  end.

Definition merge_loop (animations : list AnimationSource) : Spring * bool :=
  fold_left merge_step animations (DEFAULT_SPRING_ANIMATION, false).

Definition mergeAnimations (animations : list AnimationSource)
    (m : ModuleScope) : Behavior * ModuleScope :=
  let '(result, instant) := merge_loop animations in
  let fresh := {| ref := allocated m; val := result |} in
  let key := JSON_stringify result in
  let cache :=
    if bool_decide (is_Some (animationCache m !! key))
    then animationCache m
    else <[key := fresh]> (animationCache m) in
  let m' := {| mouseDown := mouseDown m;
               animationCache := cache;
               allocated := S (allocated m) |} in
  (if instant then Instant
   else match cache !! key with
        | Some o => Resolved o
        | None => Resolved fresh
        end,
   m').

(** A sequence of calls, threading the module state. *)
Fixpoint resolve_all (calls : list (list AnimationSource)) (m : ModuleScope)
  : list Behavior * ModuleScope :=
  match calls with
  | [] => ([], m)
  | c :: rest =>
      let '(b, m1) := mergeAnimations c m in
      let '(bs, m2) := resolve_all rest m1 in
      (b :: bs, m2)
  end.

(** A resolved behavior passed on as the [animation] option of a later call. *)
Definition source_of (b : Behavior) : AnimationSource :=
  match b with
  | Instant => SrcBehavior BInstant
  | Resolved o =>
      SrcObject {| sa_damping := Some (damping (val o));
                   sa_stiffness := Some (stiffness (val o));
                   sa_mass := Some (mass (val o)) |}
  end.

(** ** The page: scroll surface, content surface, window *)

Inductive ScrollMode := ElementMode | DocumentMode.

Record HTMLElement := {
  node : nat;
  el_scrollTop : Q;
  el_scrollHeight : Q;
  el_clientHeight : Q;
}.

(** What [isSelecting] asks of the first range of the selection. *)
Record Range := {
  ancestor_contains_scroll : bool;
  scroll_contains_ancestor : bool;
}.

Record Selection := { rangeCount : nat; range0 : Range }.

(** [snap] is the rounding the browser applies to a scroll offset it is
    given. *)
Record Page := {
  scrollRef_current : option HTMLElement;
  contentRef_current : option nat;
  documentElement : HTMLElement;
  body : HTMLElement;
  scrollY : Q;
  innerHeight : Q;
  getSelection : option Selection;
  snap : Q -> Q;
}.

Definition with_scrollTop (v : Q) (e : HTMLElement) : HTMLElement :=
  {| node := node e; el_scrollTop := v;
     el_scrollHeight := el_scrollHeight e;
     el_clientHeight := el_clientHeight e |}.

(** The offset the browser keeps when asked for [v] on a surface that can
    scroll by [limit]. *)
Definition settle_offset (d : Page) (limit v : Q) : Q :=
  snap d (Math_max 0 (Math_min v (Math_max 0 limit))).

(** [scrollRef.current.scrollTop = v] *)
Definition assign_scrollTop (v : Q) (d : Page) : Page :=
  match scrollRef_current d with
  | None => d
  | Some e =>
      let y := settle_offset d (el_scrollHeight e - el_clientHeight e) v in
      {| scrollRef_current := Some (with_scrollTop y e);
         contentRef_current := contentRef_current d;
         documentElement := documentElement d;
         body := body d;
         scrollY := scrollY d;
         innerHeight := innerHeight d;
         getSelection := getSelection d;
         snap := snap d |}
  end.

(** [window.scrollTo({ top, behavior: "instant" })] *)
Definition window_scrollTo (top : Q) (d : Page) : Page :=
  let y := settle_offset d
             (el_scrollHeight (documentElement d) - innerHeight d) top in
  {| scrollRef_current := scrollRef_current d;
     contentRef_current := contentRef_current d;
     documentElement := with_scrollTop y (documentElement d);
     body := body d;
     scrollY := y;
     innerHeight := innerHeight d;
     getSelection := getSelection d;
     snap := snap d |}.

Definition getDocumentScrollElement (d : Page) : HTMLElement :=
  if Qlt_bool (el_clientHeight (documentElement d))
              (el_scrollHeight (documentElement d))
     || Qlt_bool 0 (el_scrollTop (documentElement d))
  then documentElement d
  else body d.

(** ** Options, state record, scheduled callbacks *)

Record ScrollElements := {
  scrollElement : option HTMLElement;
  contentElement : option nat;
}.

Definition GetTargetScrollTop : Type :=
  Q -> ScrollElements -> ResolverOutput.

Record StickToBottomOptions := {
  opt_spring : SpringAnimation;
  opt_resize : AnimationSource;
  opt_initial : AnimationSource;
  opt_targetScrollTop : option GetTargetScrollTop;
}.

Record AnimationRecord := {
  behavior : Behavior;
  ignoreEscapes : bool;
  promise : nat;
}.

Record StickToBottomState := {
  lastScrollTop : option Q;
  ignoreScrollToTop : option Q;
  resizeDifference : Q;
  animation : option AnimationRecord;
  lastTick : option Q;
  velocity : JSNumber;
  accumulated : JSNumber;
  escapedFromLock : bool;
  isAtBottom : bool;
}.

(** The three [useState] cells. *)
Record ReactState := {
  rs_escapedFromLock : bool;
  rs_isAtBottom : bool;
  rs_isNearBottom : bool;
}.

(** The variables one call of [scrollToBottom] closes over. *)
Record Loop := {
  l_behavior : Behavior;
  l_ignoreEscapes : bool;
  l_waitElapsed : Q;
  l_durationElapsed : option Q;
  l_durationPromise : bool;
  l_startTarget : JSNumber;
}.

(** Callbacks handed to [requestAnimationFrame] and [setTimeout]. *)
Inductive Task :=
| ClearLastCalculation
| ScrollTimeout (ignored : option Q) (last : Q)
| Frame (p : nat) (l : Loop)
| ResetIntegration
| ResizeResetFrame (difference : Q)
| ResizeResetTimeout (difference : Q).

(** What a frame callback returned for its promise: a boolean, or another
    promise whose outcome it takes. *)
Inductive Resolution :=
| Fulfilled (b : bool)
| Adopted (q : nat).

Record World := {
  page : Page;
  modscope : ModuleScope;
  optionsRef : StickToBottomOptions;
  scrollMode : ScrollMode;
  state : StickToBottomState;
  lastCalculation : option (Q * JSNumber);
  previousHeight : option Q;
  react : ReactState;
  pending : list Task;
  promises : nat;
  settled : gmap nat Resolution;
}.

(** *** Field updates *)

Definition set_page (x : Page) (w : World) : World :=
  Build_World x (modscope w) (optionsRef w) (scrollMode w) (state w)
    (lastCalculation w) (previousHeight w) (react w) (pending w)
    (promises w) (settled w).
Definition set_modscope (x : ModuleScope) (w : World) : World :=
  Build_World (page w) x (optionsRef w) (scrollMode w) (state w)
    (lastCalculation w) (previousHeight w) (react w) (pending w)
    (promises w) (settled w).
Definition set_optionsRef (x : StickToBottomOptions) (w : World) : World :=
  Build_World (page w) (modscope w) x (scrollMode w) (state w)
    (lastCalculation w) (previousHeight w) (react w) (pending w)
    (promises w) (settled w).
Definition set_state (x : StickToBottomState) (w : World) : World :=
  Build_World (page w) (modscope w) (optionsRef w) (scrollMode w) x
    (lastCalculation w) (previousHeight w) (react w) (pending w)
    (promises w) (settled w).
Definition set_lastCalculation (x : option (Q * JSNumber)) (w : World)
  : World :=
  Build_World (page w) (modscope w) (optionsRef w) (scrollMode w) (state w)
    x (previousHeight w) (react w) (pending w) (promises w) (settled w).
Definition set_previousHeight (x : option Q) (w : World) : World :=
  Build_World (page w) (modscope w) (optionsRef w) (scrollMode w) (state w)
    (lastCalculation w) x (react w) (pending w) (promises w) (settled w).
Definition set_react (x : ReactState) (w : World) : World :=
  Build_World (page w) (modscope w) (optionsRef w) (scrollMode w) (state w)
    (lastCalculation w) (previousHeight w) x (pending w) (promises w)
    (settled w).
Definition set_pending (x : list Task) (w : World) : World :=
  Build_World (page w) (modscope w) (optionsRef w) (scrollMode w) (state w)
    (lastCalculation w) (previousHeight w) (react w) x (promises w)
    (settled w).
Definition set_promises (x : nat) (w : World) : World :=
  Build_World (page w) (modscope w) (optionsRef w) (scrollMode w) (state w)
    (lastCalculation w) (previousHeight w) (react w) (pending w) x
    (settled w).
Definition set_settled (x : gmap nat Resolution) (w : World) : World :=
  Build_World (page w) (modscope w) (optionsRef w) (scrollMode w) (state w)
    (lastCalculation w) (previousHeight w) (react w) (pending w)
    (promises w) x.

Definition st_lastScrollTop (x : option Q) (s : StickToBottomState) :=
  Build_StickToBottomState x (ignoreScrollToTop s) (resizeDifference s)
    (animation s) (lastTick s) (velocity s) (accumulated s)
    (escapedFromLock s) (isAtBottom s).
Definition st_ignoreScrollToTop (x : option Q) (s : StickToBottomState) :=
  Build_StickToBottomState (lastScrollTop s) x (resizeDifference s)
    (animation s) (lastTick s) (velocity s) (accumulated s)
    (escapedFromLock s) (isAtBottom s).
Definition st_resizeDifference (x : Q) (s : StickToBottomState) :=
  Build_StickToBottomState (lastScrollTop s) (ignoreScrollToTop s) x
    (animation s) (lastTick s) (velocity s) (accumulated s)
    (escapedFromLock s) (isAtBottom s).
Definition st_animation (x : option AnimationRecord)
    (s : StickToBottomState) :=
  Build_StickToBottomState (lastScrollTop s) (ignoreScrollToTop s)
    (resizeDifference s) x (lastTick s) (velocity s) (accumulated s)
    (escapedFromLock s) (isAtBottom s).
Definition st_lastTick (x : option Q) (s : StickToBottomState) :=
  Build_StickToBottomState (lastScrollTop s) (ignoreScrollToTop s)
    (resizeDifference s) (animation s) x (velocity s) (accumulated s)
    (escapedFromLock s) (isAtBottom s).
Definition st_velocity (x : JSNumber) (s : StickToBottomState) :=
  Build_StickToBottomState (lastScrollTop s) (ignoreScrollToTop s)
    (resizeDifference s) (animation s) (lastTick s) x (accumulated s)
    (escapedFromLock s) (isAtBottom s).
Definition st_accumulated (x : JSNumber) (s : StickToBottomState) :=
  Build_StickToBottomState (lastScrollTop s) (ignoreScrollToTop s)
    (resizeDifference s) (animation s) (lastTick s) (velocity s) x
    (escapedFromLock s) (isAtBottom s).
Definition st_escapedFromLock (x : bool) (s : StickToBottomState) :=
  Build_StickToBottomState (lastScrollTop s) (ignoreScrollToTop s)
    (resizeDifference s) (animation s) (lastTick s) (velocity s)
    (accumulated s) x (isAtBottom s).
Definition st_isAtBottom (x : bool) (s : StickToBottomState) :=
  Build_StickToBottomState (lastScrollTop s) (ignoreScrollToTop s)
    (resizeDifference s) (animation s) (lastTick s) (velocity s)
    (accumulated s) (escapedFromLock s) x.

(** ** The state monad *)

Definition M (A : Type) : Type := World -> A * World.

Definition ret {A} (a : A) : M A := fun w => (a, w).
Definition bind {A B} (m : M A) (f : A -> M B) : M B :=
  fun w => let '(a, w1) := m w in f a w1.
Definition gets {A} (f : World -> A) : M A := fun w => (f w, w).
Definition modify (f : World -> World) : M unit := fun w => (tt, f w).
Definition when (c : bool) (m : M unit) : M unit := if c then m else ret tt.

Declare Scope engine_scope.
Delimit Scope engine_scope with engine.
Notation "x <- m ;; k" := (bind m (fun x => k))
  (at level 100, m at next level, right associativity) : engine_scope.
Notation "m ;; k" := (bind m (fun _ => k))
  (at level 100, right associativity) : engine_scope.
Local Open Scope engine_scope.

Definition exec {A} (m : M A) (w : World) : World := snd (m w).

Definition update_state (f : StickToBottomState -> StickToBottomState)
  : M unit :=
  modify (fun w => set_state (f (state w)) w).

Definition schedule (t : Task) : M unit :=
  modify (fun w => set_pending (pending w ++ [t]) w).

(** ** Geometry accessors *)

Definition getScrollElement (w : World) : option HTMLElement :=
  match scrollMode w with
  | DocumentMode => Some (getDocumentScrollElement (page w))
  | ElementMode => scrollRef_current (page w)
  end.

Definition getScrollTop (w : World) : Q :=
  match scrollMode w with
  | DocumentMode => scrollY (page w)
  | ElementMode =>
      match scrollRef_current (page w) with
      | Some e => el_scrollTop e
      | None => 0
      end
  end.

Definition setScrollTop (scrollTop : Q) : M unit :=
  fun w =>
    match scrollMode w with
    | DocumentMode =>
        let w1 := set_page (window_scrollTo scrollTop (page w)) w in
        let e := getDocumentScrollElement (page w1) in
        (tt, set_state (st_ignoreScrollToTop (Some (el_scrollTop e))
                          (state w1)) w1)
    | ElementMode =>
        match scrollRef_current (page w) with
        | Some _ =>
            let w1 := set_page (assign_scrollTop scrollTop (page w)) w in
            (tt, set_state (st_ignoreScrollToTop (Some (getScrollTop w1))
                              (state w1)) w1)
        | None => (tt, w)
        end
    end.

(** [(scrollHeight, clientHeight)] *)
Definition getScrollDimensions (w : World) : Q * Q :=
  match scrollMode w with
  | DocumentMode =>
      (el_scrollHeight (getDocumentScrollElement (page w)),
       innerHeight (page w))
  | ElementMode =>
      match scrollRef_current (page w) with
      | Some e => (el_scrollHeight e, el_clientHeight e)
      | None => (0, 0)
      end
  end.

(** [scrollMode === "element" && !contentRef.current] *)
Definition content_missing (w : World) : bool :=
  match scrollMode w, contentRef_current (page w) with
  | ElementMode, None => true
  | _, _ => false
  end.

(** The getter [state.targetScrollTop]. *)
Definition targetScrollTop (w : World) : Q :=
  let '(scrollHeight, clientHeight) := getScrollDimensions w in
  if content_missing w then 0
  else Math_max 0 (scrollHeight - 1 - clientHeight).

(** The getter [state.calculatedTargetScrollTop]; it may fill
    [lastCalculation] and ask for it to be cleared on the next frame. *)
Definition calculatedTargetScrollTop : M JSNumber :=
  fun w =>
    let target := targetScrollTop w in
    let element := getScrollElement w in
    if content_missing w then (Num 0, w)
    else
      match scrollMode w, element with
      | DocumentMode, None => (Num 0, w)
      | _, _ =>
          match opt_targetScrollTop (optionsRef w) with
          | None => (Num target, w)
          | Some resolver =>
              let compute :=
                let calculatedScrollTop :=
                  clamp_to_target
                    (resolver target
                       {| scrollElement := element;
                          contentElement := contentRef_current (page w) |})
                    target in
                (calculatedScrollTop,
                 set_pending (pending w ++ [ClearLastCalculation])
                   (set_lastCalculation (Some (target, calculatedScrollTop))
                      w)) in
              match lastCalculation w with
              | Some (t, c) => if Qeq_bool t target then (c, w) else compute
              | None => compute
              end
          end
      end.

(** The getter [state.scrollDifference]. *)
Definition scrollDifference : M JSNumber :=
  c <- calculatedTargetScrollTop ;;
  s <- gets getScrollTop ;;
  ret (js_sub c (Num s)).

(** The getter [state.isNearBottom]. *)
Definition isNearBottom : M bool :=
  d <- scrollDifference ;;
  ret (js_le d (Num STICK_TO_BOTTOM_OFFSET_PX)).

Definition isSelecting (w : World) : bool :=
  if negb (mouseDown (modscope w)) then false
  else
    match getSelection (page w) with
    | None => false
    | Some selection =>
        if Nat.eqb (rangeCount selection) 0 then false
        else
          match scrollRef_current (page w) with
          | Some _ =>
              ancestor_contains_scroll (range0 selection)
              || scroll_contains_ancestor (range0 selection)
          | None => false
          end
    end.

Definition setIsAtBottom (b : bool) : M unit :=
  update_state (st_isAtBottom b) ;;
  modify (fun w =>
    set_react {| rs_escapedFromLock := rs_escapedFromLock (react w);
                 rs_isAtBottom := b;
                 rs_isNearBottom := rs_isNearBottom (react w) |} w).

Definition setEscapedFromLock (b : bool) : M unit :=
  update_state (st_escapedFromLock b) ;;
  modify (fun w =>
    set_react {| rs_escapedFromLock := b;
                 rs_isAtBottom := rs_isAtBottom (react w);
                 rs_isNearBottom := rs_isNearBottom (react w) |} w).

Definition setIsNearBottom (b : bool) : M unit :=
  modify (fun w =>
    set_react {| rs_escapedFromLock := rs_escapedFromLock (react w);
                 rs_isAtBottom := rs_isAtBottom (react w);
                 rs_isNearBottom := b |} w).

(** [mergeAnimations] run on the module state of the world. *)
Definition resolveAnimation (animations : list AnimationSource)
  : M Behavior :=
  fun w =>
    let '(b, m) := mergeAnimations animations (modscope w) in
    (b, set_modscope m w).

(** ** scrollToBottom *)

Inductive Wait := WaitUndefined | WaitBool (b : bool) | WaitNumber (ms : Q).

Inductive Duration :=
| DurationUndefined
| DurationNumber (ms : Q)
| DurationPromise.

Record ScrollOptions := {
  so_animation : AnimationSource;
  so_wait : Wait;
  so_ignoreEscapes : option bool;
  so_preserveScrollPosition : option bool;
  so_duration : Duration;
}.

Inductive ScrollToBottomOptions :=
| OptString (s : ScrollBehavior)
| OptObject (o : ScrollOptions).

Definition no_options : ScrollOptions :=
  {| so_animation := SrcUndefined; so_wait := WaitUndefined;
     so_ignoreEscapes := None; so_preserveScrollPosition := None;
     so_duration := DurationUndefined |}.

(** [Number(wait) || 0] *)
Definition wait_ms (wt : Wait) : Q :=
  match wt with
  | WaitUndefined => 0
  | WaitBool true => 1
  | WaitBool false => 0
  | WaitNumber ms => ms
  end.

(** [wait !== true] *)
Definition wait_is_not_true (wt : Wait) : bool :=
  match wt with WaitBool true => false | _ => true end.

(** [state.animation?.behavior === behavior] *)
Definition animation_runs (b : Behavior) (w : World) : bool :=
  match animation (state w) with
  | Some a => behavior_same (behavior a) b
  | None => false
  end.

(** [next()]: a new promise whose callback waits for the next frame. *)
Definition next (l : Loop) : M nat :=
  p <- gets promises ;;
  modify (set_promises (S p)) ;;
  schedule (Frame p l) ;;
  ret p.

Definition scrollToBottom (arg : ScrollToBottomOptions) (now : Q) : M nat :=
  let scrollOptions :=
    match arg with
    | OptString s =>
        {| so_animation := SrcBehavior s; so_wait := WaitUndefined;
           so_ignoreEscapes := None; so_preserveScrollPosition := None;
           so_duration := DurationUndefined |}
    | OptObject o => o
    end in
  when (negb (nullish (so_preserveScrollPosition scrollOptions) false))
       (setIsAtBottom true) ;;
  let waitElapsed := now + wait_ms (so_wait scrollOptions) in
  options <- gets optionsRef ;;
  b <- resolveAnimation
         [SrcObject (opt_spring options); so_animation scrollOptions] ;;
  startTarget <- calculatedTargetScrollTop ;;
  let l :=
    {| l_behavior := b;
       l_ignoreEscapes := nullish (so_ignoreEscapes scrollOptions) false;
       l_waitElapsed := waitElapsed;
       l_durationElapsed :=
         match so_duration scrollOptions with
         | DurationPromise => None
         | DurationNumber ms => Some (waitElapsed + ms)
         | DurationUndefined => Some (waitElapsed + 0)
         end;
       l_durationPromise :=
         match so_duration scrollOptions with
         | DurationPromise => true
         | _ => false
         end;
       l_startTarget := startTarget |} in
  when (wait_is_not_true (so_wait scrollOptions))
       (update_state (st_animation None)) ;;
  running <- gets (animation_runs b) ;;
  if running then
    a <- gets (fun w => animation (state w)) ;;
    ret (match a with Some r => promise r | None => 0%nat end)
  else next l.

(** ** The frame callback of [next] *)

(** Whether promise [h] takes its outcome, through the promises adopted so
    far, from promise [p]. *)
Fixpoint follows (fuel : nat) (s : gmap nat Resolution) (h p : nat) : bool :=
  Nat.eqb h p
  || match fuel, s !! h with
     | S fuel', Some (Adopted q) => follows fuel' s q p
     | _, _ => false
     end.

(** The calls of [next] whose promise settles when the one of [p] does: the
    call of [p] and the calls whose frame returned a promise leading to
    [p]. *)
Definition chain (w : World) (p : nat) : list nat :=
  p :: List.filter
         (fun h =>
            negb (Nat.eqb h p) && follows (promises w) (settled w) h p)
         (seq 0 (promises w)).

(** A frame callback returns [r] for promise [p].  A boolean settles the
    promise of every call of [next] in the chain, and each of these calls
    then asks for a frame to reset the integration
    ([promise.then(... requestAnimationFrame(...))]). *)
Definition settle (p : nat) (r : Resolution) : M unit :=
  match r with
  | Fulfilled _ =>
      resets <- gets (fun w => length (chain w p)) ;;
      modify (fun w => set_settled (<[p := r]> (settled w)) w) ;;
      modify (fun w =>
        set_pending (pending w ++ replicate resets ResetIntegration) w)
  | Adopted _ =>
      modify (fun w => set_settled (<[p := r]> (settled w)) w)
  end.

(** [return next()] *)
Definition continue (p : nat) (l : Loop) : M unit :=
  q <- next l ;;
  settle p (Adopted q).

Definition with_startTarget (x : JSNumber) (l : Loop) : Loop :=
  {| l_behavior := l_behavior l; l_ignoreEscapes := l_ignoreEscapes l;
     l_waitElapsed := l_waitElapsed l;
     l_durationElapsed := l_durationElapsed l;
     l_durationPromise := l_durationPromise l;
     l_startTarget := x |}.

Definition with_durationElapsed (x : Q) (l : Loop) : Loop :=
  {| l_behavior := l_behavior l; l_ignoreEscapes := l_ignoreEscapes l;
     l_waitElapsed := l_waitElapsed l;
     l_durationElapsed := Some x;
     l_durationPromise := l_durationPromise l;
     l_startTarget := l_startTarget l |}.

(** [durationElapsed > Date.now()]; false while [durationElapsed] is still
    undefined. *)
Definition duration_pending (l : Loop) (now : Q) : bool :=
  match l_durationElapsed l with
  | Some d => Qlt_bool now d
  | None => false
  end.

(** [Math.max(0, durationElapsed - Date.now()) || undefined] *)
Definition remaining_duration (l : Loop) (now : Q) : Duration :=
  match l_durationElapsed l with
  | Some d =>
      let r := Math_max 0 (d - now) in
      if truthy r then DurationNumber r else DurationUndefined
  | None => DurationUndefined
  end.

(** The spring integration of one frame, for the parameters [o], the offset
    [scrollTop] read at the start of the frame and the frame's [tickDelta]. *)
Definition spring_step (o : FrozenSpring) (scrollTop tickDelta : Q)
  : M unit :=
  difference <- scrollDifference ;;
  v <- gets (fun w => velocity (state w)) ;;
  update_state
    (st_velocity
       (js_div
          (js_add (js_mul (Num (damping (val o))) v)
                  (js_mul (Num (stiffness (val o))) difference))
          (Num (mass (val o))))) ;;
  update_state
    (fun s =>
       st_accumulated
         (js_add (accumulated s) (js_mul (velocity s) (Num tickDelta))) s) ;;
  current <- gets getScrollTop ;;
  acc <- gets (fun w => accumulated (state w)) ;;
  setScrollTop (finite_or_zero (js_add (Num current) acc)) ;;
  moved <- gets getScrollTop ;;
  when (negb (Qeq_bool moved scrollTop))
       (update_state (st_accumulated (Num 0))).

Definition frame (p : nat) (l : Loop) (now tick : Q) : M unit :=
  atBottom <- gets (fun w => isAtBottom (state w)) ;;
  if negb atBottom then
    update_state (st_animation None) ;;
    settle p (Fulfilled false)
  else
    scrollTop <- gets getScrollTop ;;
    lastTick0 <- gets (fun w => lastTick (state w)) ;;
    let tickDelta := (tick - nullish lastTick0 tick) / SIXTY_FPS_INTERVAL_MS in
    update_state (fun s =>
      match animation s with
      | Some _ => s
      | None =>
          st_animation
            (Some {| behavior := l_behavior l;
                     ignoreEscapes := l_ignoreEscapes l;
                     promise := p |}) s
      end) ;;
    mine <- gets (animation_runs (l_behavior l)) ;;
    when mine (update_state (st_lastTick (Some tick))) ;;
    selecting <- gets isSelecting ;;
    if selecting then continue p l
    else if Qlt_bool now (l_waitElapsed l) then continue p l
    else
      target <- calculatedTargetScrollTop ;;
      if js_lt (Num scrollTop) (js_min (l_startTarget l) target) then
        mine <- gets (animation_runs (l_behavior l)) ;;
        if mine then
          match l_behavior l with
          | Instant =>
              target <- calculatedTargetScrollTop ;;
              setScrollTop (finite_or_zero target) ;;
              continue p l
          | Resolved o =>
              spring_step o scrollTop tickDelta ;;
              continue p l
          end
        else continue p l
      else if duration_pending l now then
        target <- calculatedTargetScrollTop ;;
        continue p (with_startTarget target l)
      else
        update_state (st_animation None) ;;
        current <- gets getScrollTop ;;
        target <- calculatedTargetScrollTop ;;
        if js_lt (Num current) target then
          options <- gets optionsRef ;;
          b <- resolveAnimation
                 [SrcObject (opt_spring options); opt_resize options] ;;
          q <- scrollToBottom
                 (OptObject
                    {| so_animation := source_of b;
                       so_wait := WaitUndefined;
                       so_ignoreEscapes := Some (l_ignoreEscapes l);
                       so_preserveScrollPosition := None;
                       so_duration := remaining_duration l now |})
                 now ;;
          settle p (Adopted q)
        else
          atBottom <- gets (fun w => isAtBottom (state w)) ;;
          settle p (Fulfilled atBottom).

(** ** stopScroll *)

Definition stopScroll : M unit :=
  setEscapedFromLock true ;;
  setIsAtBottom false.

(** ** handleScroll *)

(** [target === scrollRef.current] for the node an event was dispatched
    to. *)
Definition is_scrollRef (target : nat) (w : World) : bool :=
  match scrollRef_current (page w) with
  | Some e => Nat.eqb target (node e)
  | None => false
  end.

(** [state.animation?.ignoreEscapes] *)
Definition animation_ignoresEscapes (w : World) : bool :=
  match animation (state w) with
  | Some a => ignoreEscapes a
  | None => false
  end.

(** The callback given to [setTimeout(..., 1)] by [handleScroll], with the
    two variables it closes over. *)
Definition scrollTimeout (ignored : option Q) (last : Q) : M unit :=
  currentScrollTop <- gets getScrollTop ;;
  resizing <- gets (fun w => resizeDifference (state w)) ;;
  if truthy resizing || strict_eq_opt currentScrollTop ignored then ret tt
  else
    selecting <- gets isSelecting ;;
    if selecting then
      setEscapedFromLock true ;;
      setIsAtBottom false
    else
      let isScrollingDown := Qlt_bool last currentScrollTop in
      let isScrollingUp := Qlt_bool currentScrollTop last in
      ignoring <- gets animation_ignoresEscapes ;;
      if ignoring then setScrollTop last
      else
        when isScrollingUp (setEscapedFromLock true ;; setIsAtBottom false) ;;
        when isScrollingDown (setEscapedFromLock false) ;;
        escaped <- gets (fun w => escapedFromLock (state w)) ;;
        if escaped then ret tt
        else
          near <- isNearBottom ;;
          when near (setIsAtBottom true).

Definition handleScroll (target : nat) : M unit :=
  attached <- gets (is_scrollRef target) ;;
  if negb attached then ret tt
  else
    scrollTop <- gets getScrollTop ;;
    ignored <- gets (fun w => ignoreScrollToTop (state w)) ;;
    last0 <- gets (fun w => lastScrollTop (state w)) ;;
    let last := nullish last0 scrollTop in
    currentScrollTop <- gets getScrollTop ;;
    update_state (st_lastScrollTop (Some currentScrollTop)) ;;
    update_state (st_ignoreScrollToTop None) ;;
    let last :=
      match ignored with
      | Some i =>
          if truthy i && Qlt_bool currentScrollTop i then i else last
      | None => last
      end in
    near <- isNearBottom ;;
    setIsNearBottom near ;;
    schedule (ScrollTimeout ignored last).

(** ** handleWheel *)

(** [path] lists the event target followed by its [parentElement] chain. *)
Record WheelEvent := { deltaY : Q; path : list nat }.

Definition escape_on_wheel (dy : Q) : M unit :=
  dims <- gets getScrollDimensions ;;
  ignoring <- gets animation_ignoresEscapes ;;
  when (Qlt_bool dy 0 && Qlt_bool (snd dims) (fst dims) && negb ignoring)
       (setEscapedFromLock true ;; setIsAtBottom false).

(** The [while] loop of the element mode: climb until the scroll element,
    the body or the root is met. *)
Fixpoint wheel_climb (dy : Q) (elements : list nat) : M unit :=
  match elements with
  | [] => ret tt
  | element :: parents =>
      d <- gets page ;;
      if Nat.eqb element (node (body d))
         || Nat.eqb element (node (documentElement d))
      then ret tt
      else
        found <- gets (is_scrollRef element) ;;
        if found then escape_on_wheel dy
        else wheel_climb dy parents
  end.

Definition handleWheel (event : WheelEvent) : M unit :=
  mode <- gets scrollMode ;;
  match mode with
  | DocumentMode =>
      ignoring <- gets animation_ignoresEscapes ;;
      if Qlt_bool (deltaY event) 0 && negb ignoring then
        dims <- gets getScrollDimensions ;;
        when (Qlt_bool (snd dims) (fst dims))
             (setEscapedFromLock true ;; setIsAtBottom false)
      else ret tt
  | ElementMode => wheel_climb (deltaY event) (path event)
  end.

(** ** The resize observer callback *)

Definition resizeObserved (height now : Q) : M unit :=
  content <- gets (fun w => contentRef_current (page w)) ;;
  match content with
  | None => ret tt
  | Some _ =>
      previous <- gets previousHeight ;;
      let difference := height - nullish previous height in
      update_state (st_resizeDifference difference) ;;
      currentScrollTop <- gets getScrollTop ;;
      currentTargetScrollTop <- gets targetScrollTop ;;
      when (Qlt_bool currentTargetScrollTop currentScrollTop)
           (setScrollTop currentTargetScrollTop) ;;
      near <- isNearBottom ;;
      setIsNearBottom near ;;
      (if Qle_bool 0 difference then
         options <- gets optionsRef ;;
         b <- resolveAnimation
                [SrcObject (opt_spring options);
                 if truthy_opt previous then opt_resize options
                 else opt_initial options] ;;
         scrollToBottom
           (OptObject
              {| so_animation := source_of b;
                 so_wait := WaitBool true;
                 so_ignoreEscapes := None;
                 so_preserveScrollPosition := Some true;
                 so_duration :=
                   match b with
                   | Instant => DurationUndefined
                   | Resolved _ =>
                       DurationNumber RETAIN_ANIMATION_DURATION_MS
                   end |})
           now ;;
         ret tt
       else
         near <- isNearBottom ;;
         when near (setEscapedFromLock false ;; setIsAtBottom true)) ;;
      modify (set_previousHeight (Some height)) ;;
      schedule (ResizeResetFrame difference)
  end.

(** ** The remaining callbacks *)

(** The effect of the document mode: the initial check after mounting. *)
Definition documentModeEffect : M unit :=
  mode <- gets scrollMode ;;
  match mode with
  | DocumentMode =>
      near <- isNearBottom ;;
      setIsNearBottom near ;;
      escaped <- gets (fun w => escapedFromLock (state w)) ;;
      if escaped then ret tt
      else
        near <- isNearBottom ;;
        when near (setIsAtBottom true)
  | ElementMode => ret tt
  end.

(** The frame callback queued once a chain of [next] has settled. *)
Definition resetIntegration : M unit :=
  a <- gets (fun w => animation (state w)) ;;
  match a with
  | Some _ => ret tt
  | None =>
      update_state (st_lastTick None) ;;
      update_state (st_velocity (Num 0))
  end.

Definition resizeReset (difference : Q) : M unit :=
  current <- gets (fun w => resizeDifference (state w)) ;;
  when (Qeq_bool current difference) (update_state (st_resizeDifference 0)).

Definition run_task (t : Task) (now tick : Q) : M unit :=
  match t with
  | ClearLastCalculation => modify (set_lastCalculation None)
  | ScrollTimeout ignored last => scrollTimeout ignored last
  | Frame p l => frame p l now tick
  | ResetIntegration => resetIntegration
  | ResizeResetFrame difference => schedule (ResizeResetTimeout difference)
  | ResizeResetTimeout difference => resizeReset difference
  end.

(** The contentRef callback: a new observer starts without a previous
    height. *)
Definition set_contentRef (c : option nat) (d : Page) : Page :=
  {| scrollRef_current := scrollRef_current d;
     contentRef_current := c;
     documentElement := documentElement d;
     body := body d;
     scrollY := scrollY d;
     innerHeight := innerHeight d;
     getSelection := getSelection d;
     snap := snap d |}.

Definition attachContent (content : option nat) : M unit :=
  modify (fun w => set_page (set_contentRef content (page w)) w) ;;
  match content with
  | None => ret tt
  | Some _ => modify (set_previousHeight None)
  end.

Definition set_mouseDown (b : bool) : M unit :=
  modify (fun w =>
    set_modscope {| mouseDown := b;
                    animationCache := animationCache (modscope w);
                    allocated := allocated (modscope w) |} w).

(** The settling of a promise given as [duration]. *)
Definition durationSettled (n : nat) (now : Q) : M unit :=
  tasks <- gets pending ;;
  match tasks !! n with
  | Some (Frame p l) =>
      when (l_durationPromise l)
           (modify (set_pending
                      (<[n := Frame p (with_durationElapsed now l)]> tasks)))
  | _ => ret tt
  end.

(** ** Everything that can happen to a mounted engine *)

Inductive Op :=
| CallScrollToBottom (arg : ScrollToBottomOptions) (now : Q)
| CallStopScroll
| ScrollEvent (target : nat)
| Wheel (event : WheelEvent)
| ResizeObserved (height now : Q)
| MouseDown
| MouseUp
| Click
| DocumentModeEffect
| Render (options : StickToBottomOptions)
| AttachContent (content : option nat)
| Environment (f : Page -> Page)
| DurationSettled (n : nat) (now : Q)
| RunTask (n : nat) (now tick : Q).

Definition perform (op : Op) : M unit :=
  match op with
  | CallScrollToBottom arg now => scrollToBottom arg now ;; ret tt
  | CallStopScroll => stopScroll
  | ScrollEvent target => handleScroll target
  | Wheel event => handleWheel event
  | ResizeObserved height now => resizeObserved height now
  | MouseDown => set_mouseDown true
  | MouseUp => set_mouseDown false
  | Click => set_mouseDown false
  | DocumentModeEffect => documentModeEffect
  | Render options => modify (set_optionsRef options)
  | AttachContent content => attachContent content
  | Environment f => modify (fun w => set_page (f (page w)) w)
  | DurationSettled n now => durationSettled n now
  | RunTask n now tick =>
      tasks <- gets pending ;;
      match tasks !! n with
      | Some t =>
          modify (set_pending (delete n tasks)) ;;
          run_task t now tick
      | None => ret tt
      end
  end.

Definition run (ops : list Op) (w : World) : World :=
  fold_left (fun w op => exec (perform op) w) ops w.

(** [options.initial !== false] *)
Definition initial_is_not_false (options : StickToBottomOptions) : bool :=
  match opt_initial options with SrcBool false => false | _ => true end.

(** The world right after the first render of [useStickToBottom]. *)
Definition useStickToBottom (options : StickToBottomOptions)
    (mode : ScrollMode) (d : Page) (m : ModuleScope) : World :=
  {| page := d;
     modscope := m;
     optionsRef := options;
     scrollMode := mode;
     state :=
       {| lastScrollTop := None; ignoreScrollToTop := None;
          resizeDifference := 0; animation := None; lastTick := None;
          velocity := Num 0; accumulated := Num 0;
          escapedFromLock := false;
          isAtBottom := initial_is_not_false options |};
     lastCalculation := None;
     previousHeight := None;
     react :=
       {| rs_escapedFromLock := false;
          rs_isAtBottom := initial_is_not_false options;
          rs_isNearBottom := false |};
     pending := [];
     promises := 0;
     settled := ∅ |}.

(** The [isAtBottom] field of the value the hook returns. *)
Definition returned_isAtBottom (w : World) : bool :=
  rs_isAtBottom (react w) || rs_isNearBottom (react w).

Definition returned_escapedFromLock (w : World) : bool :=
  rs_escapedFromLock (react w).

Definition is_Frame (t : Task) : bool :=
  match t with Frame _ _ => true | _ => false end.

(** The frame callbacks waiting to run. *)
Definition frames (w : World) : list Task := List.filter is_Frame (pending w).

(** ** Invariants and observations used in the statements *)

(** The cache maps the key of a triple to an object with that triple, and
    different keys to different objects. *)
Definition cache_sound (m : ModuleScope) : Prop :=
  (forall k o, animationCache m !! k = Some o ->
     k = JSON_stringify (val o) /\ (ref o < allocated m)%nat)
  /\ (forall k1 k2 o1 o2,
        animationCache m !! k1 = Some o1 ->
        animationCache m !! k2 = Some o2 ->
        ref o1 = ref o2 -> k1 = k2).

(** A computation keeps a property of the world. *)
Definition preserves {A} (I : World -> Prop) (m : M A) : Prop :=
  forall w, I w -> I (snd (m w)).

(** A calculated target that is a number lies between 0 and the target. *)
Definition within_target (c : JSNumber) (t : Q) : Prop :=
  match c with
  | Num q => 0 <= q /\ q <= t
  | NaN => True
  end.

(** What is remembered of the last resolver call is NaN or lies between 0
    and the target it was computed for. *)
Definition lastCalculation_clamped (w : World) : Prop :=
  match lastCalculation w with
  | Some (t, c) => within_target c t
  | None => True
  end.

(** The two stickiness flags of the state record:
    [(escapedFromLock, isAtBottom)]. *)
Definition flags (w : World) : bool * bool :=
  (escapedFromLock (state w), isAtBottom (state w)).

Definition flags_are (f : bool * bool) (w : World) : Prop := flags w = f.

(** [isAtBottom] only while not escaped. *)
Definition lock_respected (w : World) : Prop :=
  isAtBottom (state w) && escapedFromLock (state w) = false.

(** React's cells hold what the state record holds. *)
Definition mirrored (w : World) : Prop :=
  rs_escapedFromLock (react w) = escapedFromLock (state w)
  /\ rs_isAtBottom (react w) = isAtBottom (state w).

(** An update of the state record that leaves both flags alone. *)
Definition keeps_flags (g : StickToBottomState -> StickToBottomState) : Prop :=
  forall s,
    escapedFromLock (g s) = escapedFromLock s
    /\ isAtBottom (g s) = isAtBottom s.

(** A property of the world that no update away from the two flags can
    break, nor remembering a clamped calculation. *)
Record stable (I : World -> Prop) : Prop := {
  stable_page : forall x w, I w -> I (set_page x w);
  stable_modscope : forall x w, I w -> I (set_modscope x w);
  stable_optionsRef : forall x w, I w -> I (set_optionsRef x w);
  stable_previousHeight : forall x w, I w -> I (set_previousHeight x w);
  stable_near : forall b w,
    I w ->
    I (set_react {| rs_escapedFromLock := rs_escapedFromLock (react w);
                    rs_isAtBottom := rs_isAtBottom (react w);
                    rs_isNearBottom := b |} w);
  stable_pending : forall x w, I w -> I (set_pending x w);
  stable_promises : forall x w, I w -> I (set_promises x w);
  stable_settled : forall x w, I w -> I (set_settled x w);
  stable_forget : forall w, I w -> I (set_lastCalculation None w);
  stable_remember : forall t c w,
    within_target c t -> I w -> I (set_lastCalculation (Some (t, c)) w);
  stable_state : forall g w,
    keeps_flags g -> I w -> I (set_state (g (state w)) w);
}.

(** The flags are [f], in the state record and in React's cells. *)
Definition held (f : bool * bool) (w : World) : Prop :=
  mirrored w /\ flags_are f w.

(** The lock is respected, in the state record and in React's cells. *)
Definition lock_held (w : World) : Prop :=
  mirrored w /\ lock_respected w.

(** Every operation but a [scrollToBottom] call that does not ask to
    preserve the scroll position. *)
Definition keeps_position (op : Op) : bool :=
  match op with
  | CallScrollToBottom (OptString _) _ => false
  | CallScrollToBottom (OptObject o) _ =>
      nullish (so_preserveScrollPosition o) false
  | _ => true
  end.

(** In the history [ops], started in [w], every [scrollToBottom] call that
    does not ask to preserve the scroll position is made while
    [escapedFromLock] is clear. *)
Fixpoint forced_only_unescaped (ops : list Op) (w : World) : bool :=
  match ops with
  | [] => true
  | op :: rest =>
      (keeps_position op || negb (escapedFromLock (state w)))
      && forced_only_unescaped rest (exec (perform op) w)
  end.

(** Not escaped, in the state record and in React's cells. *)
Definition unescaped (w : World) : Prop :=
  mirrored w /\ escapedFromLock (state w) = false.

(** [isAtBottom] is clear. *)
Definition detached (w : World) : Prop := isAtBottom (state w) = false.

(** If [isAtBottom] is set, the view is near the bottom. *)
Definition near_when_at_bottom (w : World) : Prop :=
  isAtBottom (state w) = true -> fst (isNearBottom w) = true.

(** A computation started in a world with [P] ends in a world with [Q]. *)
Definition turns {A} (P Q : World -> Prop) (m : M A) : Prop :=
  forall w, P w -> Q (snd (m w)).



(** What the geometry accessors read: the page and the scroll mode. *)
Definition surface (w : World) : Page * ScrollMode := (page w, scrollMode w).

(** ** Example inputs *)

Definition ex_half_damping : SpringAnimation :=
  {| sa_damping := Some (1 # 2); sa_stiffness := None; sa_mass := None |}.
Definition ex_two_quarters_damping : SpringAnimation :=
  {| sa_damping := Some (2 # 4); sa_stiffness := None; sa_mass := None |}.
Definition ex_double_mass : SpringAnimation :=
  {| sa_damping := None; sa_stiffness := None; sa_mass := Some 2 |}.

Definition ex_calls : list (list AnimationSource) :=
  [ [SrcObject ex_half_damping];
    [SrcObject ex_double_mass];
    [SrcUndefined; SrcObject ex_two_quarters_damping] ].

Definition ex_element (scrollTop scrollHeight clientHeight : Q)
  : HTMLElement :=
  {| node := 1; el_scrollTop := scrollTop;
     el_scrollHeight := scrollHeight; el_clientHeight := clientHeight |}.

Definition ex_root (n : nat) : HTMLElement :=
  {| node := n; el_scrollTop := 0; el_scrollHeight := 0;
     el_clientHeight := 0 |}.

(** A page whose scroll element is node 1 and whose content element is
    node 2, in a browser that rounds offsets with [rounding]. *)
Definition ex_page (rounding : Q -> Q)
    (scrollTop scrollHeight clientHeight : Q) : Page :=
  {| scrollRef_current :=
       Some (ex_element scrollTop scrollHeight clientHeight);
     contentRef_current := Some 2%nat;
     documentElement := ex_root 10;
     body := ex_root 11;
     scrollY := 0;
     innerHeight := 0;
     getSelection := None;
     snap := rounding |}.

Definition ex_options : StickToBottomOptions :=
  {| opt_spring :=
       {| sa_damping := None; sa_stiffness := None; sa_mass := None |};
     opt_resize := SrcUndefined;
     opt_initial := SrcUndefined;
     opt_targetScrollTop := None |}.

(** The same options with a target resolver. *)
Definition ex_resolver_options (resolver : GetTargetScrollTop)
  : StickToBottomOptions :=
  {| opt_spring :=
       {| sa_damping := None; sa_stiffness := None; sa_mass := None |};
     opt_resize := SrcUndefined;
     opt_initial := SrcUndefined;
     opt_targetScrollTop := Some resolver |}.

(** A resolver that stops 100 px short of the bottom, and one that answers
    NaN. *)
Definition ex_short_resolver : GetTargetScrollTop :=
  fun target _ => Finite (target - 100).
Definition ex_NaN_resolver : GetTargetScrollTop :=
  fun _ _ => NotANumber.

(** The engine mounted in element mode on [ex_page], offsets kept exactly. *)
Definition ex_world (scrollTop scrollHeight clientHeight : Q) : World :=
  useStickToBottom ex_options ElementMode
    (ex_page (fun q => q) scrollTop scrollHeight clientHeight) module_init.

(** The user moves the scroll element to [y]. *)
Definition user_scrolls (y : Q) (d : Page) : Page :=
  {| scrollRef_current := option_map (with_scrollTop y) (scrollRef_current d);
     contentRef_current := contentRef_current d;
     documentElement := documentElement d;
     body := body d;
     scrollY := scrollY d;
     innerHeight := innerHeight d;
     getSelection := getSelection d;
     snap := snap d |}.

(** The user selects text across the scroll element. *)
Definition user_selects (d : Page) : Page :=
  {| scrollRef_current := scrollRef_current d;
     contentRef_current := contentRef_current d;
     documentElement := documentElement d;
     body := body d;
     scrollY := scrollY d;
     innerHeight := innerHeight d;
     getSelection :=
       Some {| rangeCount := 1;
               range0 := {| ancestor_contains_scroll := true;
                            scroll_contains_ancestor := false |} |};
     snap := snap d |}.

(** An animation is in flight: [scrollToBottom()] was called at time 0 and
    its first frame has run. *)
Definition ex_animating : World :=
  run [CallScrollToBottom (OptObject no_options) 0; RunTask 0 0 0]
      (ex_world 0 1500 500).

Definition ex_ignoring_options : ScrollOptions :=
  {| so_animation := SrcUndefined; so_wait := WaitUndefined;
     so_ignoreEscapes := Some true; so_preserveScrollPosition := None;
     so_duration := DurationUndefined |}.

(** During an animation started with [ignoreEscapes], the user presses the
    mouse button, selects text across the scroll element and drags the view
    from offset 100 up to 50; the scroll notification has been delivered
    and its timeout is queued. *)
Definition ex_selecting_while_ignoring : World :=
  run [CallScrollToBottom (OptObject ex_ignoring_options) 0;
       RunTask 0 0 0;
       ScrollEvent 1;
       RunTask 1 1 1;
       MouseDown;
       Environment user_selects;
       Environment (user_scrolls 50);
       ScrollEvent 1]
      (ex_world 100 1500 500).

(** The same without the selection. *)
Definition ex_scrolling_while_ignoring : World :=
  run [CallScrollToBottom (OptObject ex_ignoring_options) 0;
       RunTask 0 0 0;
       ScrollEvent 1;
       RunTask 1 1 1;
       Environment (user_scrolls 50);
       ScrollEvent 1]
      (ex_world 100 1500 500).

(** The loop that [ex_animating] has in flight. *)
Definition ex_loop : Loop :=
  {| l_behavior := Resolved {| ref := 0; val := DEFAULT_SPRING_ANIMATION |};
     l_ignoreEscapes := false;
     l_waitElapsed := 0;
     l_durationElapsed := Some 0;
     l_durationPromise := false;
     l_startTarget := Num 999 |}.


(** While [ex_animating] runs, [scrollToBottom()] is called again at time
    10. *)
Definition ex_called_again : nat * World :=
  scrollToBottom (OptObject no_options) 10 ex_animating.

(** [{ animation: "instant" }] *)
Definition ex_instant_options : ScrollOptions :=
  {| so_animation := SrcBehavior BInstant; so_wait := WaitUndefined;
     so_ignoreEscapes := None; so_preserveScrollPosition := None;
     so_duration := DurationUndefined |}.

(** * Properties *)

(** ** Numbers *)

Lemma Qlt_bool_iff (x y : Q) : Qlt_bool x y = true <-> x < y.
Proof.
  unfold Qlt_bool. rewrite negb_true_iff.
  split; intro H.
  - apply Qnot_le_lt. intro Hle. apply Qle_bool_iff in Hle. congruence.
  - destruct (Qle_bool y x) eqn:E; [|reflexivity].
    apply Qle_bool_iff in E. lra.
Qed.

Lemma Qlt_bool_false_iff (x y : Q) : Qlt_bool x y = false <-> y <= x.
Proof.
  unfold Qlt_bool. rewrite negb_false_iff. apply Qle_bool_iff.
Qed.

Lemma Qle_bool_false_iff (x y : Q) : Qle_bool x y = false <-> y < x.
Proof.
  rewrite <- Qlt_bool_iff. unfold Qlt_bool.
  destruct (Qle_bool x y); simpl; split; congruence.
Qed.

Lemma Math_max_lower (a b : Q) : a <= Math_max a b /\ b <= Math_max a b.
Proof.
  unfold Math_max. destruct (Qle_bool a b) eqn:E.
  - apply Qle_bool_iff in E. lra.
  - apply Qle_bool_false_iff in E. lra.
Qed.

Lemma Math_min_upper (a b : Q) : Math_min a b <= a /\ Math_min a b <= b.
Proof.
  unfold Math_min. destruct (Qle_bool a b) eqn:E.
  - apply Qle_bool_iff in E. lra.
  - apply Qle_bool_false_iff in E. lra.
Qed.

Lemma Math_max_cases (a b : Q) : Math_max a b = a \/ Math_max a b = b.
Proof. unfold Math_max. destruct (Qle_bool a b); auto. Qed.

(** ** The animation parameter resolver *)

(** Comparisons with NaN, and with a minimum. *)
Lemma js_lt_true (a b : JSNumber) :
  js_lt a b = true -> exists x y, a = Num x /\ b = Num y /\ x < y.
Proof.
  destruct a as [x|], b as [y|]; try discriminate.
  intros H. exists x, y. repeat split. apply Qlt_bool_iff, H.
Qed.

Lemma js_min_number (a b : JSNumber) (m : Q) :
  js_min a b = Num m ->
  exists x y, a = Num x /\ b = Num y /\ m = Math_min x y.
Proof.
  destruct a as [x|], b as [y|]; try discriminate.
  intros [= <-]. exists x, y. repeat split.
Qed.

Lemma js_lt_min_false (x a b : JSNumber) :
  js_lt x b = false -> js_lt x (js_min a b) = false.
Proof.
  destruct x as [x|], a as [a|], b as [b|]; try reflexivity.
  simpl. intros H. apply Qlt_bool_false_iff. apply Qlt_bool_false_iff in H.
  destruct (Math_min_upper a b) as [_ Hm]. lra.
Qed.

Lemma merge_loop_snoc (sources : list AnimationSource) (s : AnimationSource) :
  merge_loop (sources ++ [s]) = merge_step (merge_loop sources) s.
Proof. unfold merge_loop. rewrite fold_left_app. reflexivity. Qed.

Lemma JSON_stringify_inj (a b : Spring) :
  JSON_stringify a = JSON_stringify b <-> spring_equal a b.
Proof.
  unfold JSON_stringify, spring_equal. split.
  - intros H. injection H as Hd Hs Hm.
    apply Qred_eq_iff in Hd, Hs, Hm. auto.
  - intros (Hd & Hs & Hm).
    apply Q2Qc_eq_iff in Hd, Hs, Hm. congruence.
Qed.

Lemma cache_sound_init : cache_sound module_init.
Proof.
  split; simpl; intros *; rewrite lookup_empty; discriminate.
Qed.

(** One call keeps the cache sound, only adds to it, and hands out the
    object stored under the key of the merged triple. *)
Lemma mergeAnimations_cache (sources : list AnimationSource)
    (m m' : ModuleScope) (b : Behavior) :
  cache_sound m ->
  mergeAnimations sources m = (b, m') ->
  cache_sound m'
  /\ animationCache m ⊆ animationCache m'
  /\ (if snd (merge_loop sources) then b = Instant
      else exists o, b = Resolved o
           /\ animationCache m' !! JSON_stringify (fst (merge_loop sources))
              = Some o).
Proof.
  intros [Hkey Hinj]. unfold mergeAnimations.
  destruct (merge_loop sources) as [result instant] eqn:Hloop. simpl.
  case_bool_decide as Hhas.
  - intros [= <- <-]. unfold cache_sound. simpl. split; [|split].
    + split.
      * intros k o Hk. destruct (Hkey k o Hk). simpl. split; [done|lia].
      * exact Hinj.
    + done.
    + destruct instant; [done|].
      destruct Hhas as [o Ho]. rewrite Ho. eauto.
  - assert (Hnone : animationCache m !! JSON_stringify result = None).
    { destruct (animationCache m !! JSON_stringify result) eqn:E; [|done].
      exfalso. apply Hhas. eauto. }
    rewrite lookup_insert_eq.
    intros [= <- <-]. unfold cache_sound. simpl. split; [|split].
    + split.
      * intros k o [[<- <-]|[Hne Hk]]%lookup_insert_Some; simpl.
        -- split; [done|lia].
        -- destruct (Hkey k o Hk). simpl. split; [done|lia].
      * intros k1 k2 o1 o2
          [[<- <-]|[Hne1 Hk1]]%lookup_insert_Some
          [[<- <-]|[Hne2 Hk2]]%lookup_insert_Some Href; simpl in *.
        -- done.
        -- destruct (Hkey _ _ Hk2). lia.
        -- destruct (Hkey _ _ Hk1). lia.
        -- eauto.
    + by apply insert_subseteq.
    + destruct instant; [done|].
      eexists. split; [done|]. apply lookup_insert_eq.
Qed.

Lemma resolve_all_cache (calls : list (list AnimationSource)) :
  forall (m m' : ModuleScope) (bs : list Behavior),
  cache_sound m ->
  resolve_all calls m = (bs, m') ->
  cache_sound m'
  /\ animationCache m ⊆ animationCache m'
  /\ forall i sources, calls !! i = Some sources ->
       if snd (merge_loop sources) then bs !! i = Some Instant
       else exists o, bs !! i = Some (Resolved o)
            /\ animationCache m' !! JSON_stringify (fst (merge_loop sources))
               = Some o.
Proof.
  induction calls as [|c rest IH]; intros m m' bs Hm; simpl.
  - intros [= <- <-]. split; [done|]. split; [done|].
    intros i sources Hi. by rewrite lookup_nil in Hi.
  - destruct (mergeAnimations c m) as [b m1] eqn:Hc.
    destruct (resolve_all rest m1) as [bs1 m2] eqn:Hrest.
    intros [= <- <-].
    destruct (mergeAnimations_cache _ _ _ _ Hm Hc) as (Hm1 & Hsub1 & Hb).
    destruct (IH _ _ _ Hm1 Hrest) as (Hm2 & Hsub2 & Hbs).
    split; [done|]. split; [by etrans|].
    intros [|i] sources Hi; simpl in *.
    + injection Hi as ->.
      destruct (snd (merge_loop sources)); [by subst|].
      destruct Hb as (o & -> & Ho). exists o. split; [done|].
      by eapply lookup_weaken.
    + by apply Hbs.
Qed.

(** C6 (as the code has it): the sources are folded left to right; an
    object source overrides the fields it defines and clears the instant
    mark; the sentinel "instant" sets the mark and leaves the triple built
    so far as it is; any other source changes nothing; and the call answers
    "instant" exactly when the mark is set at the end. *)
Theorem mergeAnimations_left_to_right :
  forall (sources : list AnimationSource) (a : SpringAnimation) (b : bool)
         (m : ModuleScope),
    merge_loop [] = (DEFAULT_SPRING_ANIMATION, false)
    /\ merge_loop (sources ++ [SrcBehavior BInstant])
       = (fst (merge_loop sources), true)
    /\ merge_loop (sources ++ [SrcObject a])
       = ({| damping := nullish (sa_damping a)
                          (damping (fst (merge_loop sources)));
             stiffness := nullish (sa_stiffness a)
                            (stiffness (fst (merge_loop sources)));
             mass := nullish (sa_mass a) (mass (fst (merge_loop sources))) |},
          false)
    /\ merge_loop (sources ++ [SrcBehavior BAuto]) = merge_loop sources
    /\ merge_loop (sources ++ [SrcBehavior BSmooth]) = merge_loop sources
    /\ merge_loop (sources ++ [SrcBool b]) = merge_loop sources
    /\ merge_loop (sources ++ [SrcUndefined]) = merge_loop sources
    /\ (fst (mergeAnimations sources m) = Instant
        <-> snd (merge_loop sources) = true).
Proof.
  intros sources a b m.
  rewrite !merge_loop_snoc.
  destruct (merge_loop sources) as [result instant] eqn:Hloop; simpl.
  repeat (split; [reflexivity|]).
  unfold mergeAnimations. rewrite Hloop. simpl.
  destruct instant; simpl; split; try done.
  repeat case_match; discriminate.
Qed.

(** C6, the counterexample: after an object source that sets damping to
    1/2, the sentinel "instant" leaves damping at 1/2 (the default is 7/10),
    and a later object source builds on it. *)
Lemma mergeAnimations_instant_keeps_overrides :
  merge_loop [SrcObject ex_half_damping; SrcBehavior BInstant]
  = ({| damping := 1 # 2; stiffness := 5 # 100; mass := 125 # 100 |}, true)
  /\ ~ spring_equal
         (fst (merge_loop [SrcObject ex_half_damping; SrcBehavior BInstant]))
         DEFAULT_SPRING_ANIMATION
  /\ fst (mergeAnimations
            [SrcObject ex_half_damping; SrcBehavior BInstant;
             SrcObject ex_double_mass] module_init)
     = Resolved {| ref := 0;
                   val := {| damping := 1 # 2; stiffness := 5 # 100;
                             mass := 2 |} |}.
Proof.
  split; [reflexivity|]. split.
  - intros (Hd & _). vm_compute in Hd. discriminate.
  - vm_compute. reflexivity.
Qed.

(** C7: over any sequence of calls starting from the empty cache, two calls
    that do not answer "instant" return objects holding the triples they
    merged, and the two objects are the same object exactly when the two
    triples are equal by value. *)
Theorem mergeAnimations_identity_iff_value :
  forall (calls : list (list AnimationSource)) (i j : nat)
         (si sj : list AnimationSource),
    calls !! i = Some si ->
    calls !! j = Some sj ->
    snd (merge_loop si) = false ->
    snd (merge_loop sj) = false ->
    exists oi oj,
      fst (resolve_all calls module_init) !! i = Some (Resolved oi)
      /\ fst (resolve_all calls module_init) !! j = Some (Resolved oj)
      /\ spring_equal (val oi) (fst (merge_loop si))
      /\ spring_equal (val oj) (fst (merge_loop sj))
      /\ (ref oi = ref oj
          <-> spring_equal (fst (merge_loop si)) (fst (merge_loop sj))).
Proof.
  intros calls i j si sj Hi Hj Hni Hnj.
  destruct (resolve_all calls module_init) as [bs m'] eqn:Hrun.
  destruct (resolve_all_cache calls _ _ _ cache_sound_init Hrun)
    as ([Hkey Hinj] & _ & Hbs).
  pose proof (Hbs i si Hi) as Hoi. rewrite Hni in Hoi.
  pose proof (Hbs j sj Hj) as Hoj. rewrite Hnj in Hoj.
  destruct Hoi as (oi & Hbi & Hci). destruct Hoj as (oj & Hbj & Hcj).
  exists oi, oj. simpl.
  destruct (Hkey _ _ Hci) as [Hki _]. destruct (Hkey _ _ Hcj) as [Hkj _].
  apply JSON_stringify_inj in Hki, Hkj.
  split; [done|]. split; [done|].
  split. { destruct Hki as (? & ? & ?). repeat split; by symmetry. }
  split. { destruct Hkj as (? & ? & ?). repeat split; by symmetry. }
  split.
  - intros Href. apply JSON_stringify_inj. eauto.
  - intros Heq%JSON_stringify_inj. rewrite Heq in Hci. congruence.
Qed.

Lemma mergeAnimations_identity_iff_value_witness :
  exists oi oj,
    fst (resolve_all ex_calls module_init) !! 0%nat = Some (Resolved oi)
    /\ fst (resolve_all ex_calls module_init) !! 2%nat = Some (Resolved oj)
    /\ spring_equal (val oi) (fst (merge_loop [SrcObject ex_half_damping]))
    /\ spring_equal (val oj)
         (fst (merge_loop [SrcUndefined; SrcObject ex_two_quarters_damping]))
    /\ (ref oi = ref oj
        <-> spring_equal
              (fst (merge_loop [SrcObject ex_half_damping]))
              (fst (merge_loop
                      [SrcUndefined; SrcObject ex_two_quarters_damping]))).
Proof.
  apply (mergeAnimations_identity_iff_value ex_calls 0 2); reflexivity.
Defined.

(** ** Reasoning about computations *)

Lemma preserves_ret {A} (I : World -> Prop) (a : A) : preserves I (ret a).
Proof. intros w H. exact H. Qed.

Lemma preserves_gets {A} (I : World -> Prop) (f : World -> A) :
  preserves I (gets f).
Proof. intros w H. exact H. Qed.

Lemma preserves_bind {A B} (I : World -> Prop) (m : M A) (f : A -> M B) :
  preserves I m -> (forall a, preserves I (f a)) -> preserves I (bind m f).
Proof.
  intros Hm Hf w H. unfold bind.
  specialize (Hm w H). destruct (m w) as [a w1]. simpl in Hm.
  exact (Hf a w1 Hm).
Qed.

Lemma preserves_modify (I : World -> Prop) (f : World -> World) :
  (forall w, I w -> I (f w)) -> preserves I (modify f).
Proof. intros Hf w H. exact (Hf w H). Qed.

Lemma preserves_when (I : World -> Prop) (c : bool) (m : M unit) :
  preserves I m -> preserves I (when c m).
Proof. intros Hm. destruct c; [exact Hm|apply preserves_ret]. Qed.

(** Take a computation apart along its binds and branches; [known] closes
    the computations already dealt with and [leaf] the field updates. *)
Ltac preserves_with known leaf :=
  repeat first
    [ solve [known]
    | apply preserves_ret
    | apply preserves_gets
    | apply preserves_when
    | apply preserves_bind; [|intros ?]
    | apply preserves_modify; solve [leaf]
    | match goal with
      | |- preserves _ (if ?c then _ else _) => destruct c
      | |- preserves _ (match ?x with _ => _ end) => destruct x
      end ].

(** ** The derived targets *)

Lemma targetScrollTop_nonneg (w : World) : 0 <= targetScrollTop w.
Proof.
  unfold targetScrollTop. destruct (getScrollDimensions w) as [sh ch].
  destruct (content_missing w); [lra|]. apply Math_max_lower.
Qed.

Lemma targetScrollTop_missing (w : World) :
  content_missing w = true -> targetScrollTop w = 0.
Proof.
  intros Hm. unfold targetScrollTop.
  destruct (getScrollDimensions w). rewrite Hm. reflexivity.
Qed.

(** The clamp keeps every answer of a resolver but NaN within the bounds. *)
Lemma clamp_to_target_within (r : ResolverOutput) (t : Q) :
  0 <= t -> within_target (clamp_to_target r t) t.
Proof.
  intros Ht. destruct r as [q| | |]; simpl; try exact Logic.I.
  - split; [apply Math_max_lower|].
    destruct (Math_max_cases (Math_min q t) 0) as [-> | ->];
      [apply Math_min_upper|exact Ht].
  - split; [apply Math_max_lower|].
    destruct (Math_max_cases t 0) as [-> | ->]; lra.
  - split; [lra|exact Ht].
Qed.

Lemma clamp_to_target_NaN (r : ResolverOutput) (t : Q) :
  clamp_to_target r t = NaN <-> r = NotANumber.
Proof. destruct r; simpl; split; congruence. Qed.

(** The getter answers NaN or within the bounds, touches nothing but the
    remembered calculation and the queue, and what it remembers is NaN or
    clamped. *)
Lemma calculatedTargetScrollTop_spec (w : World) :
  lastCalculation_clamped w ->
  within_target (fst (calculatedTargetScrollTop w)) (targetScrollTop w)
  /\ lastCalculation_clamped (snd (calculatedTargetScrollTop w)).
Proof.
  intros Hc. pose proof (targetScrollTop_nonneg w) as Ht.
  unfold calculatedTargetScrollTop.
  destruct (content_missing w).
  { simpl. split; [split; [lra|exact Ht]|exact Hc]. }
  destruct (scrollMode w), (getScrollElement w) as [e|];
    try (simpl; split; [split; [lra|exact Ht]|exact Hc]).
  all: destruct (opt_targetScrollTop (optionsRef w)) as [resolver|];
    [|simpl; split; [split; [exact Ht|lra]|exact Hc]].
  all: unfold lastCalculation_clamped in Hc;
    destruct (lastCalculation w) as [[t c]|] eqn:Hl.
  all: try destruct (Qeq_bool t (targetScrollTop w)) eqn:Heq.
  all: simpl; unfold lastCalculation_clamped; simpl; rewrite ?Hl.
  all: try (apply Qeq_bool_iff in Heq; split; [|exact Hc];
            destruct c as [q|]; [simpl in *; lra|exact Logic.I]).
  all: split; apply clamp_to_target_within, Ht.
Qed.

(** ** Computations that leave the flags alone *)

Ltac keeps_flags_tac :=
  let s := fresh "s" in
  intros s; simpl; repeat case_match; split; reflexivity.

Section Stable.
Context (I : World -> Prop) (HI : stable I).

Lemma stable_update_state (g : StickToBottomState -> StickToBottomState) :
  keeps_flags g -> preserves I (update_state g).
Proof. intros Hg w H. apply (stable_state I HI); assumption. Qed.

Lemma stable_schedule (t : Task) : preserves I (schedule t).
Proof. intros w H. apply (stable_pending I HI), H. Qed.

Lemma stable_calculatedTargetScrollTop : preserves I calculatedTargetScrollTop.
Proof.
  intros w H. pose proof (targetScrollTop_nonneg w) as Ht.
  unfold calculatedTargetScrollTop.
  destruct (content_missing w); [exact H|].
  destruct (scrollMode w), (getScrollElement w) as [e|]; try exact H.
  all: destruct (opt_targetScrollTop (optionsRef w)) as [resolver|];
    [|exact H].
  all: destruct (lastCalculation w) as [[t c]|];
    [destruct (Qeq_bool t (targetScrollTop w)); [exact H|]|].
  all: simpl; apply (stable_pending I HI), (stable_remember I HI);
    [apply clamp_to_target_within, Ht|exact H].
Qed.

Lemma stable_setScrollTop (x : Q) : preserves I (setScrollTop x).
Proof.
  intros w H. unfold setScrollTop.
  destruct (scrollMode w); [destruct (scrollRef_current (page w))|];
    cbv zeta; cbn [snd]; try exact H.
  - apply (stable_state I HI (st_ignoreScrollToTop _)); [keeps_flags_tac|].
    apply (stable_page I HI), H.
  - apply (stable_state I HI (st_ignoreScrollToTop _)); [keeps_flags_tac|].
    apply (stable_page I HI), H.
Qed.

Lemma stable_resolveAnimation (sources : list AnimationSource) :
  preserves I (resolveAnimation sources).
Proof.
  intros w H. unfold resolveAnimation.
  destruct (mergeAnimations sources (modscope w)) as [b m]. simpl.
  apply (stable_modscope I HI), H.
Qed.

Ltac stable_known :=
  first
    [ apply stable_calculatedTargetScrollTop
    | apply stable_setScrollTop
    | apply stable_resolveAnimation
    | apply stable_schedule
    | apply stable_update_state; keeps_flags_tac
    | assumption ].

Ltac stable_leaf :=
  let w := fresh "w" in
  let H := fresh "H" in
  intros w H; cbv beta;
  first
    [ apply (stable_page I HI) | apply (stable_modscope I HI)
    | apply (stable_optionsRef I HI) | apply (stable_previousHeight I HI)
    | apply (stable_near I HI) | apply (stable_pending I HI)
    | apply (stable_promises I HI) | apply (stable_settled I HI)
    | apply (stable_forget I HI) ];
  exact H.

Lemma stable_scrollDifference : preserves I scrollDifference.
Proof. unfold scrollDifference. preserves_with stable_known stable_leaf. Qed.

Lemma stable_isNearBottom : preserves I isNearBottom.
Proof.
  unfold isNearBottom.
  preserves_with ltac:(first [apply stable_scrollDifference|stable_known])
                 stable_leaf.
Qed.

Lemma stable_setIsNearBottom (b : bool) : preserves I (setIsNearBottom b).
Proof. unfold setIsNearBottom. preserves_with stable_known stable_leaf. Qed.

Lemma stable_next (l : Loop) : preserves I (next l).
Proof. unfold next. preserves_with stable_known stable_leaf. Qed.

Lemma stable_settle (p : nat) (r : Resolution) : preserves I (settle p r).
Proof. unfold settle. preserves_with stable_known stable_leaf. Qed.

Lemma stable_continue (p : nat) (l : Loop) : preserves I (continue p l).
Proof.
  unfold continue.
  preserves_with
    ltac:(first [apply stable_next|apply stable_settle|stable_known])
    stable_leaf.
Qed.

Lemma stable_spring_step (o : FrozenSpring) (scrollTop tickDelta : Q) :
  preserves I (spring_step o scrollTop tickDelta).
Proof.
  unfold spring_step.
  preserves_with ltac:(first [apply stable_scrollDifference|stable_known])
                 stable_leaf.
Qed.

Ltac stable_all :=
  first
    [ apply stable_scrollDifference | apply stable_isNearBottom
    | apply stable_setIsNearBottom | apply stable_next | apply stable_settle
    | apply stable_continue | apply stable_spring_step | stable_known ].

(** [scrollToBottom] writes no flag but [isAtBottom := true], and only when
    it is not asked to preserve the scroll position. *)
Lemma stable_scrollToBottom (arg : ScrollToBottomOptions) (now : Q) :
  preserves I (setIsAtBottom true) ->
  preserves I (scrollToBottom arg now).
Proof.
  intros Hbottom. unfold scrollToBottom.
  preserves_with stable_all stable_leaf.
Qed.

Lemma stable_scrollToBottom_preserving (o : ScrollOptions) (now : Q) :
  so_preserveScrollPosition o = Some true ->
  preserves I (scrollToBottom (OptObject o) now).
Proof.
  intros Ho. unfold scrollToBottom. rewrite Ho. simpl.
  preserves_with stable_all stable_leaf.
Qed.

(** A frame that finds [isAtBottom] set writes no flag but
    [isAtBottom := true]. *)
Lemma stable_frame (p : nat) (l : Loop) (now tick : Q) :
  preserves I (setIsAtBottom true) ->
  preserves I (frame p l now tick).
Proof.
  intros Hbottom. unfold frame.
  preserves_with
    ltac:(first [apply stable_scrollToBottom; assumption|stable_all])
    stable_leaf.

Qed.

Lemma stable_handleScroll (target : nat) : preserves I (handleScroll target).
Proof. unfold handleScroll. preserves_with stable_all stable_leaf. Qed.

Lemma stable_resetIntegration : preserves I resetIntegration.
Proof. unfold resetIntegration. preserves_with stable_all stable_leaf. Qed.

Lemma stable_resizeReset (difference : Q) :
  preserves I (resizeReset difference).
Proof. unfold resizeReset. preserves_with stable_all stable_leaf. Qed.

Lemma stable_attachContent (content : option nat) :
  preserves I (attachContent content).
Proof. unfold attachContent. preserves_with stable_all stable_leaf. Qed.

Lemma stable_set_mouseDown (b : bool) : preserves I (set_mouseDown b).
Proof. unfold set_mouseDown. preserves_with stable_all stable_leaf. Qed.

Lemma stable_durationSettled (n : nat) (now : Q) :
  preserves I (durationSettled n now).
Proof. unfold durationSettled. preserves_with stable_all stable_leaf. Qed.

End Stable.

(** ** Properties that no write of the engine can break *)

Section Indifferent.
Context (I : World -> Prop) (HI : stable I)
        (Hstate : forall x w, I w -> I (set_state x w))
        (Hreact : forall x w, I w -> I (set_react x w)).

Lemma indifferent_update_state
    (g : StickToBottomState -> StickToBottomState) :
  preserves I (update_state g).
Proof. intros w H. apply Hstate, H. Qed.

Lemma indifferent_setIsAtBottom (b : bool) : preserves I (setIsAtBottom b).
Proof. intros w H. apply Hreact, Hstate, H. Qed.

Lemma indifferent_setEscapedFromLock (b : bool) :
  preserves I (setEscapedFromLock b).
Proof. intros w H. apply Hreact, Hstate, H. Qed.

Ltac indifferent_known :=
  first
    [ apply indifferent_update_state
    | apply indifferent_setIsAtBottom
    | apply indifferent_setEscapedFromLock
    | apply (stable_scrollToBottom I HI); apply indifferent_setIsAtBottom
    | apply (stable_frame I HI); apply indifferent_setIsAtBottom
    | apply (stable_handleScroll I HI)
    | apply (stable_resetIntegration I HI)
    | apply (stable_resizeReset I HI)
    | apply (stable_attachContent I HI)
    | apply (stable_set_mouseDown I HI)
    | apply (stable_durationSettled I HI)
    | apply (stable_isNearBottom I HI)
    | apply (stable_setIsNearBottom I HI)
    | apply (stable_setScrollTop I HI)
    | apply (stable_resolveAnimation I HI)
    | apply (stable_schedule I HI)
    | assumption ].

Ltac indifferent_leaf :=
  let w := fresh "w" in
  let H := fresh "H" in
  intros w H; cbv beta;
  first
    [ apply (stable_page I HI) | apply (stable_optionsRef I HI)
    | apply (stable_previousHeight I HI) | apply (stable_pending I HI)
    | apply (stable_forget I HI) ];
  exact H.

Lemma indifferent_stopScroll : preserves I stopScroll.
Proof.
  unfold stopScroll. preserves_with indifferent_known indifferent_leaf.
Qed.

Lemma indifferent_scrollTimeout (ignored : option Q) (last : Q) :
  preserves I (scrollTimeout ignored last).
Proof.
  unfold scrollTimeout. preserves_with indifferent_known indifferent_leaf.
Qed.

Lemma indifferent_escape_on_wheel (dy : Q) : preserves I (escape_on_wheel dy).
Proof.
  unfold escape_on_wheel. preserves_with indifferent_known indifferent_leaf.
Qed.

Lemma indifferent_wheel_climb (dy : Q) (elements : list nat) :
  preserves I (wheel_climb dy elements).
Proof.
  induction elements as [|element parents IH]; simpl.
  - apply preserves_ret.
  - preserves_with
      ltac:(first [apply indifferent_escape_on_wheel|exact IH])
      indifferent_leaf.
Qed.

Lemma indifferent_handleWheel (event : WheelEvent) :
  preserves I (handleWheel event).
Proof.
  unfold handleWheel.
  preserves_with
    ltac:(first [apply indifferent_wheel_climb|indifferent_known])
    indifferent_leaf.
Qed.

Lemma indifferent_resizeObserved (height now : Q) :
  preserves I (resizeObserved height now).
Proof.
  unfold resizeObserved.
  preserves_with indifferent_known indifferent_leaf.
Qed.

Lemma indifferent_documentModeEffect : preserves I documentModeEffect.
Proof.
  unfold documentModeEffect.
  preserves_with indifferent_known indifferent_leaf.
Qed.

Lemma indifferent_run_task (t : Task) (now tick : Q) :
  preserves I (run_task t now tick).
Proof.
  destruct t; simpl;
    preserves_with
      ltac:(first [apply indifferent_scrollTimeout|indifferent_known])
      indifferent_leaf.
Qed.

Lemma indifferent_perform (op : Op) : preserves I (perform op).
Proof.
  destruct op; simpl;
    preserves_with
      ltac:(first
              [ apply indifferent_stopScroll
              | apply indifferent_handleWheel
              | apply indifferent_resizeObserved
              | apply indifferent_documentModeEffect
              | apply indifferent_run_task
              | indifferent_known ])
      indifferent_leaf.
Qed.

Lemma indifferent_run (ops : list Op) :
  forall w, I w -> I (run ops w).
Proof.
  induction ops as [|op ops IH]; intros w H; simpl; [exact H|].
  apply IH. apply indifferent_perform, H.
Qed.

End Indifferent.

Lemma lastCalculation_clamped_stable : stable lastCalculation_clamped.
Proof.
  split; try (intros; assumption).
  intros w _. exact Logic.I.
Qed.

Lemma lastCalculation_clamped_reachable
    (options : StickToBottomOptions) (mode : ScrollMode) (d : Page)
    (m : ModuleScope) (ops : list Op) :
  lastCalculation_clamped (run ops (useStickToBottom options mode d m)).
Proof.
  apply (indifferent_run _ lastCalculation_clamped_stable).
  - intros x w H. exact H.
  - intros x w H. exact H.
  - exact Logic.I.
Qed.

(** C8 (as the code has it): in every world the engine can reach, the
    calculated target is a number between 0 and the target, or NaN; it is 0
    while the content element is missing, the target itself when no resolver
    is configured, the remembered value when one was computed for the same
    target, and otherwise the resolver's answer put through
    [Math.max(Math.min(answer, target), 0)], which lies in
    [[0, targetScrollTop]] for every answer but NaN and is NaN for NaN. *)
Theorem calculatedTargetScrollTop_within_target :
  forall (options : StickToBottomOptions) (mode : ScrollMode) (d : Page)
         (m : ModuleScope) (ops : list Op),
    let w := run ops (useStickToBottom options mode d m) in
    let c := fst (calculatedTargetScrollTop w) in
    match c with
    | Num q => 0 <= q /\ q <= targetScrollTop w
    | NaN => opt_targetScrollTop (optionsRef w) <> None
    end
    /\ 0 <= targetScrollTop w
    /\ lastCalculation_clamped (snd (calculatedTargetScrollTop w))
    /\ match opt_targetScrollTop (optionsRef w) with
       | None => c = Num (targetScrollTop w)
       | Some resolver =>
           if content_missing w then c = Num 0
           else
             let answer :=
               resolver (targetScrollTop w)
                 {| scrollElement := getScrollElement w;
                    contentElement := contentRef_current (page w) |} in
             let clamped := clamp_to_target answer (targetScrollTop w) in
             match clamped with
             | Num q =>
                 answer <> NotANumber /\ 0 <= q /\ q <= targetScrollTop w
             | NaN => answer = NotANumber
             end
             /\ match lastCalculation w with
                | Some (t, c0) =>
                    if Qeq_bool t (targetScrollTop w) then c = c0
                    else c = clamped
                | None => c = clamped
                end
       end.
Proof.
  intros options mode d m ops w c.
  pose proof (lastCalculation_clamped_reachable options mode d m ops) as Hw.
  fold w in Hw.
  pose proof (targetScrollTop_nonneg w) as Ht.
  destruct (calculatedTargetScrollTop_spec w Hw) as (Hin & Hc).
  fold c in Hin.
  assert (Hshape :
    match opt_targetScrollTop (optionsRef w) with
    | None => c = Num (targetScrollTop w)
    | Some resolver =>
        if content_missing w then c = Num 0
        else
          match lastCalculation w with
          | Some (t, c0) =>
              if Qeq_bool t (targetScrollTop w) then c = c0
              else c = clamp_to_target
                         (resolver (targetScrollTop w)
                            {| scrollElement := getScrollElement w;
                               contentElement :=
                                 contentRef_current (page w) |})
                         (targetScrollTop w)
          | None => c = clamp_to_target
                          (resolver (targetScrollTop w)
                             {| scrollElement := getScrollElement w;
                                contentElement :=
                                  contentRef_current (page w) |})
                          (targetScrollTop w)
          end
    end).
  { subst c. unfold calculatedTargetScrollTop.
    destruct (opt_targetScrollTop (optionsRef w)) as [resolver|] eqn:Hr.
    - destruct (content_missing w); [reflexivity|].
      unfold getScrollElement.
      destruct (scrollMode w); simpl;
        destruct (lastCalculation w) as [[t c0]|];
        try destruct (Qeq_bool t (targetScrollTop w)); reflexivity.
    - destruct (content_missing w) eqn:Hm.
      + rewrite (targetScrollTop_missing w Hm). reflexivity.
      + unfold getScrollElement. destruct (scrollMode w); reflexivity. }
  split.
  { destruct c as [q|] eqn:Ec; [exact Hin|].
    destruct (opt_targetScrollTop (optionsRef w)); [discriminate|].
    discriminate. }
  split; [exact Ht|]. split; [exact Hc|].
  destruct (opt_targetScrollTop (optionsRef w)) as [resolver|];
    [|exact Hshape].
  destruct (content_missing w); [exact Hshape|].
  cbv zeta. split; [|exact Hshape].
  pose proof (clamp_to_target_within
                (resolver (targetScrollTop w)
                   {| scrollElement := getScrollElement w;
                      contentElement := contentRef_current (page w) |})
                (targetScrollTop w) Ht) as Hcl.
  pose proof (clamp_to_target_NaN
                (resolver (targetScrollTop w)
                   {| scrollElement := getScrollElement w;
                      contentElement := contentRef_current (page w) |})
                (targetScrollTop w)) as Hnan.
  destruct (clamp_to_target _ _) as [q|].
  - split; [|exact Hcl]. intros E. apply Hnan in E. discriminate.
  - apply Hnan. reflexivity.
Qed.

(** C8, the counterexample: with a resolver that answers NaN, at the very
    bottom of the content, the calculated target is NaN: it is neither
    [>= 0] nor [<= targetScrollTop], and the view does not count as near
    the bottom. *)
Lemma calculatedTargetScrollTop_NaN_resolver :
  let w := useStickToBottom (ex_resolver_options ex_NaN_resolver)
             ElementMode (ex_page (fun q => q) 999 1500 500) module_init in
  let c := fst (calculatedTargetScrollTop w) in
  targetScrollTop w == 999
  /\ getScrollTop w == targetScrollTop w
  /\ c = NaN
  /\ js_le (Num 0) c = false
  /\ js_le c (Num (targetScrollTop w)) = false
  /\ fst (isNearBottom w) = false.
Proof. cbv zeta. repeat split; vm_compute; reflexivity. Qed.

(** ** Scroll notifications *)

(** C10: a scroll notification whose target is not [scrollRef.current]
    changes nothing: the state record, React's cells, the page and the queue
    of callbacks are what they were, and no timeout is scheduled. *)
Theorem handleScroll_foreign_target_ignored :
  forall (w : World) (target : nat),
    is_scrollRef target w = false ->
    handleScroll target w = (tt, w)
    /\ exec (perform (ScrollEvent target)) w = w.
Proof.
  intros w target H.
  assert (Hs : handleScroll target w = (tt, w)).
  { unfold handleScroll, bind, gets. rewrite H. reflexivity. }
  split; [exact Hs|].
  unfold exec. simpl. rewrite Hs. reflexivity.
Qed.

Lemma handleScroll_foreign_target_ignored_witness :
  is_scrollRef 7 ex_animating = false
  /\ handleScroll 7 ex_animating = (tt, ex_animating)
  /\ exec (perform (ScrollEvent 7)) ex_animating = ex_animating.
Proof.
  split; [reflexivity|].
  apply (handleScroll_foreign_target_ignored ex_animating 7). reflexivity.
Defined.

(** ** The promises of an animation *)


(** A frame that finds [isAtBottom] cleared gives up. *)
Lemma frame_not_at_bottom (p : nat) (l : Loop) (now tick : Q) (w : World) :
  isAtBottom (state w) = false ->
  frame p l now tick w
  = (update_state (st_animation None) ;; settle p (Fulfilled false)) w.
Proof.
  intros H. unfold frame. unfold bind at 1. unfold gets at 1.
  rewrite H. reflexivity.
Qed.




(** ** The flags as a stable property *)

Lemma flags_are_stable (f : bool * bool) : stable (flags_are f).
Proof.
  split; try (intros; assumption).
  intros g w Hg H. unfold flags_are, flags in *. simpl.
  destruct (Hg (state w)) as [-> ->]. exact H.
Qed.

Lemma held_stable (f : bool * bool) : stable (held f).
Proof.
  split; try (intros; assumption).
  intros g w Hg [[He Hb] H]. unfold held, mirrored, flags_are, flags in *.
  simpl. destruct (Hg (state w)) as [-> ->]. auto.
Qed.

(** ** The escape rules of the scroll timeout *)

(** What a timeout does once it is not discarded. *)
Lemma scrollTimeout_live (w : World) (ignored : option Q) (last : Q) :
  truthy (resizeDifference (state w))
  || strict_eq_opt (getScrollTop w) ignored = false ->
  scrollTimeout ignored last w
  = if isSelecting w then
      (setEscapedFromLock true ;; setIsAtBottom false) w
    else if animation_ignoresEscapes w then setScrollTop last w
    else
      (when (Qlt_bool (getScrollTop w) last)
            (setEscapedFromLock true ;; setIsAtBottom false) ;;
       when (Qlt_bool last (getScrollTop w)) (setEscapedFromLock false) ;;
       escaped <- gets (fun w => escapedFromLock (state w)) ;;
       if escaped then ret tt
       else
         near <- isNearBottom ;;
         when near (setIsAtBottom true)) w.
Proof.
  intros H. unfold scrollTimeout. cbn [bind gets]. rewrite H.
  cbn [bind gets]. destruct (isSelecting w); [reflexivity|].
  cbn [bind gets]. destruct (animation_ignoresEscapes w); reflexivity.
Qed.

(** C1 (as the code has it): a timeout that is not discarded (no resize in
    progress, offset not the one the program wrote) first asks whether text
    is being selected, and if so escapes, whatever the animation says; only
    without a selection does an [ignoreEscapes] animation suppress the
    escape, writing [lastScrollTop] back and leaving both flags as they
    were. *)
Theorem scrollTimeout_selection_before_ignoreEscapes :
  forall (w : World) (ignored : option Q) (last : Q),
    truthy (resizeDifference (state w))
    || strict_eq_opt (getScrollTop w) ignored = false ->
    let w' := exec (scrollTimeout ignored last) w in
    if isSelecting w then
      escapedFromLock (state w') = true /\ isAtBottom (state w') = false
    else if animation_ignoresEscapes w then
      w' = exec (setScrollTop last) w /\ flags w' = flags w
    else True.
Proof.
  intros w ignored last H w'. subst w'. unfold exec.
  rewrite (scrollTimeout_live w ignored last H).
  destruct (isSelecting w); [split; reflexivity|].
  destruct (animation_ignoresEscapes w); [|exact Logic.I].
  split; [reflexivity|].
  exact (stable_setScrollTop _ (flags_are_stable (flags w)) last w eq_refl).
Qed.

Lemma scrollTimeout_selection_before_ignoreEscapes_witness :
  isSelecting ex_scrolling_while_ignoring = false
  /\ animation_ignoresEscapes ex_scrolling_while_ignoring = true
  /\ exec (scrollTimeout None 100) ex_scrolling_while_ignoring
     = exec (setScrollTop 100) ex_scrolling_while_ignoring
  /\ flags (exec (scrollTimeout None 100) ex_scrolling_while_ignoring)
     = flags ex_scrolling_while_ignoring.
Proof.
  split; [reflexivity|]. split; [reflexivity|].
  apply (scrollTimeout_selection_before_ignoreEscapes
           ex_scrolling_while_ignoring None 100).
  reflexivity.
Defined.

(** C1, the counterexample: an [ignoreEscapes] animation is active, text is
    being selected across the scroll element and the view was dragged from
    100 to 50; the queued timeout of that notification sets
    [escapedFromLock] and clears [isAtBottom], and does not write the offset
    back. *)
Lemma selection_escapes_during_ignoreEscapes :
  let w := ex_selecting_while_ignoring in
  animation_ignoresEscapes w = true
  /\ isSelecting w = true
  /\ flags w = (false, true)
  /\ (exists last, pending w !! 1%nat = Some (ScrollTimeout None last)
                   /\ last == 100)
  /\ flags (exec (perform (RunTask 1 2 2)) w) = (true, false)
  /\ getScrollTop (exec (perform (RunTask 1 2 2)) w) == 50.
Proof.
  cbv zeta. repeat (split; [vm_compute; reflexivity|]).
  split; [|split; vm_compute; reflexivity].
  eexists. split; [vm_compute; reflexivity|]. vm_compute. reflexivity.
Qed.

(** ** The lock *)

Lemma held_lock_held (w : World) :
  held (flags w) w <-> mirrored w.
Proof. unfold held, flags_are. tauto. Qed.

(** What keeps the flags, whatever they are, keeps the lock. *)
Lemma lock_held_keeps {A} (m : M A) :
  (forall f, preserves (held f) m) -> preserves lock_held m.
Proof.
  intros Hm w [Hmir Hl].
  destruct (Hm (flags w) w (conj Hmir eq_refl)) as [Hmir' Hf].
  split; [exact Hmir'|].
  unfold lock_respected, flags_are, flags in *.
  injection Hf as -> ->. exact Hl.
Qed.

Lemma lock_held_escape :
  preserves lock_held (setEscapedFromLock true ;; setIsAtBottom false).
Proof. intros w _. split; [split|]; reflexivity. Qed.

Lemma lock_held_unescape : preserves lock_held (setEscapedFromLock false).
Proof.
  intros w [[He Hb] Hl]. split; [split|]; simpl; try assumption; try reflexivity.
  unfold lock_respected. simpl. apply andb_false_r.
Qed.

Lemma lock_held_restick :
  preserves lock_held (setEscapedFromLock false ;; setIsAtBottom true).
Proof. intros w _. split; [split|]; reflexivity. Qed.

(** While not escaped, [isAtBottom] may be set. *)
Lemma lock_held_setIsAtBottom (b : bool) (w : World) :
  mirrored w ->
  escapedFromLock (state w) = false ->
  lock_held (snd (setIsAtBottom b w)).
Proof.
  intros [He Hb] Hesc. split; [split|]; simpl; try assumption; try reflexivity.
  unfold lock_respected. simpl. rewrite Hesc. apply andb_false_r.
Qed.

(** Rule 5 of the scroll timeout, and the check of the document mode. *)
Lemma lock_held_near_bottom :
  preserves lock_held
    (escaped <- gets (fun w => escapedFromLock (state w)) ;;
     if escaped then ret tt
     else
       near <- isNearBottom ;;
       when near (setIsAtBottom true)).
Proof.
  intros w [Hmir Hl]. cbn [bind gets].
  destruct (escapedFromLock (state w)) eqn:Hesc; [exact (conj Hmir Hl)|].
  unfold bind.
  destruct (stable_isNearBottom _ (held_stable (flags w)) w
              (conj Hmir eq_refl)) as [Hmir' Hf].
  destruct (isNearBottom w) as [near w1]. simpl in Hmir', Hf.
  unfold flags_are, flags in Hf. injection Hf as Hesc' Hb'.
  destruct near; simpl.
  - apply lock_held_setIsAtBottom; [exact Hmir'|congruence].
  - split; [exact Hmir'|]. unfold lock_respected.
    rewrite Hesc', Hesc. apply andb_false_r.
Qed.

Ltac lock_known :=
  first
    [ apply lock_held_escape
    | apply lock_held_unescape
    | apply lock_held_restick
    | apply lock_held_near_bottom
    | apply lock_held_keeps; intros ?;
      first
        [ apply stable_update_state; [apply held_stable|keeps_flags_tac]
        | apply stable_handleScroll; apply held_stable
        | apply stable_resetIntegration; apply held_stable
        | apply stable_resizeReset; apply held_stable
        | apply stable_attachContent; apply held_stable
        | apply stable_set_mouseDown; apply held_stable
        | apply stable_durationSettled; apply held_stable
        | apply stable_isNearBottom; apply held_stable
        | apply stable_setIsNearBottom; apply held_stable
        | apply stable_setScrollTop; apply held_stable
        | apply stable_resolveAnimation; apply held_stable
        | apply stable_schedule; apply held_stable
        | apply stable_settle; apply held_stable
        | apply stable_scrollToBottom_preserving;
          [apply held_stable|reflexivity] ]
    | assumption ].

Ltac lock_leaf :=
  let w := fresh "w" in
  let H := fresh "H" in
  intros w H; exact H.

Lemma lock_held_scrollTimeout (ignored : option Q) (last : Q) :
  preserves lock_held (scrollTimeout ignored last).
Proof. unfold scrollTimeout. preserves_with lock_known lock_leaf. Qed.

Lemma lock_held_escape_on_wheel (dy : Q) :
  preserves lock_held (escape_on_wheel dy).
Proof. unfold escape_on_wheel. preserves_with lock_known lock_leaf. Qed.

Lemma lock_held_wheel_climb (dy : Q) (elements : list nat) :
  preserves lock_held (wheel_climb dy elements).
Proof.
  induction elements as [|element parents IH]; simpl.
  - apply preserves_ret.
  - preserves_with
      ltac:(first [apply lock_held_escape_on_wheel|exact IH]) lock_leaf.
Qed.

Lemma lock_held_handleWheel (event : WheelEvent) :
  preserves lock_held (handleWheel event).
Proof.
  unfold handleWheel.
  preserves_with ltac:(first [apply lock_held_wheel_climb|lock_known])
                 lock_leaf.
Qed.

Lemma lock_held_resizeObserved (height now : Q) :
  preserves lock_held (resizeObserved height now).
Proof. unfold resizeObserved. preserves_with lock_known lock_leaf. Qed.

Lemma lock_held_documentModeEffect : preserves lock_held documentModeEffect.
Proof. unfold documentModeEffect. preserves_with lock_known lock_leaf. Qed.

(** A frame callback writes no flag: it gives up when [isAtBottom] is
    cleared, and otherwise at most sets it again. *)
Lemma frame_keeps_flags (p : nat) (l : Loop) (now tick : Q) (f : bool * bool) :
  preserves (held f) (frame p l now tick).
Proof.
  intros w H. destruct (isAtBottom (state w)) eqn:Hb.
  - destruct f as [e b].
    assert (b = true) as ->.
    { destruct H as [_ Hf]. unfold flags_are, flags in Hf. congruence. }
    revert w H Hb. intros w H _. revert w H.
    apply (stable_frame _ (held_stable (e, true))).
    intros w [[He Hb] Hf]. unfold flags_are, flags in Hf.
    injection Hf as Hf1 Hf2.
    split; [split|]; simpl; try assumption; try reflexivity.
    unfold flags_are, flags. simpl. congruence.
  - rewrite frame_not_at_bottom by exact Hb. revert w H Hb. intros w H _.
    revert w H.
    preserves_with
      ltac:(first [ apply stable_update_state;
                    [apply held_stable|keeps_flags_tac]
                  | apply stable_settle; apply held_stable ])
      lock_leaf.
Qed.

Lemma lock_held_run_task (t : Task) (now tick : Q) :
  preserves lock_held (run_task t now tick).
Proof.
  destruct t; simpl;
    preserves_with
      ltac:(first
              [ apply lock_held_scrollTimeout
              | apply lock_held_keeps; intros ?; apply frame_keeps_flags
              | lock_known ])
      lock_leaf.
Qed.

Lemma lock_held_perform (op : Op) :
  keeps_position op = true -> preserves lock_held (perform op).
Proof.
  destruct op; simpl; intros Hop;
    try (destruct arg as [s|[an wt ie [[|]|] du]]; simpl in Hop;
         try discriminate);
    preserves_with
      ltac:(first
              [ apply lock_held_handleWheel
              | apply lock_held_resizeObserved
              | apply lock_held_documentModeEffect
              | apply lock_held_run_task
              | lock_known ])
      lock_leaf.
Qed.

Lemma lock_held_init (options : StickToBottomOptions) (mode : ScrollMode)
    (d : Page) (m : ModuleScope) :
  lock_held (useStickToBottom options mode d m).
Proof. split; [split|]; simpl; try reflexivity. apply andb_false_r. Qed.

Lemma lock_held_run (ops : list Op) :
  forall w, forallb keeps_position ops = true -> lock_held w ->
            lock_held (run ops w).
Proof.
  induction ops as [|op ops IH]; intros w Hops H; simpl; [exact H|].
  simpl in Hops. apply andb_true_iff in Hops as [Hop Hops].
  apply IH; [exact Hops|]. apply lock_held_perform; assumption.
Qed.

Lemma setIsAtBottom_twice (b : bool) (w : World) :
  snd (setIsAtBottom b (snd (setIsAtBottom b w))) = snd (setIsAtBottom b w).
Proof. reflexivity. Qed.

(** A call that does not preserve the scroll position sets [isAtBottom] and
    leaves [escapedFromLock] as it finds it. *)
Lemma scrollToBottom_flags (arg : ScrollToBottomOptions) (now : Q)
    (w : World) :
  flags (exec (scrollToBottom arg now) w)
  = if keeps_position (CallScrollToBottom arg now) then flags w
    else (escapedFromLock (state w), true).
Proof.
  destruct (keeps_position (CallScrollToBottom arg now)) eqn:Hk.
  - destruct arg as [s|o]; simpl in Hk; [discriminate|].
    destruct (so_preserveScrollPosition o) as [[|]|] eqn:Ho;
      try discriminate.
    exact (stable_scrollToBottom_preserving _ (flags_are_stable (flags w))
             o now Ho w eq_refl).
  - assert (Hw : scrollToBottom arg now w
                 = scrollToBottom arg now (snd (setIsAtBottom true w))).
    { unfold scrollToBottom.
      destruct arg as [s|o]; simpl in Hk |- *;
        [|destruct (so_preserveScrollPosition o) as [[|]|];
          try discriminate; simpl];
        unfold bind at 1; unfold bind at 8; reflexivity. }
    unfold exec. rewrite Hw.
    apply (stable_scrollToBottom _
             (flags_are_stable (escapedFromLock (state w), true)) arg now).
    + intros v Hv. unfold flags_are, flags in *. simpl.
      injection Hv as -> _. reflexivity.
    + reflexivity.
Qed.

(** *** A forced call while not escaped *)

Lemma unescaped_stable : stable unescaped.
Proof.
  split; try (intros; assumption).
  intros g w Hg [[He Hb] H]. destruct (Hg (state w)) as [Hge Hgb].
  unfold unescaped, mirrored in *. simpl. rewrite Hge, Hgb. auto.
Qed.

Lemma unescaped_setIsAtBottom (b : bool) :
  preserves unescaped (setIsAtBottom b).
Proof.
  intros w [[He Hb] H]. split; [split|]; simpl; try assumption; reflexivity.
Qed.

Lemma unescaped_lock_held (w : World) : unescaped w -> lock_held w.
Proof.
  intros [Hm He]. split; [exact Hm|].
  unfold lock_respected. rewrite He. apply andb_false_r.
Qed.

(** While [escapedFromLock] is clear, any [scrollToBottom] call keeps the
    lock. *)
Lemma lock_held_scrollToBottom_unescaped (arg : ScrollToBottomOptions)
    (now : Q) (w : World) :
  lock_held w ->
  escapedFromLock (state w) = false ->
  lock_held (exec (scrollToBottom arg now) w).
Proof.
  intros [Hm _] He. apply unescaped_lock_held.
  apply (stable_scrollToBottom _ unescaped_stable arg now
           (unescaped_setIsAtBottom true)).
  split; assumption.
Qed.

Lemma lock_held_perform_guarded (op : Op) (w : World) :
  keeps_position op || negb (escapedFromLock (state w)) = true ->
  lock_held w ->
  lock_held (exec (perform op) w).
Proof.
  intros Hg H. destruct (keeps_position op) eqn:Hk.
  - apply lock_held_perform; assumption.
  - cbn [orb] in Hg. apply negb_true_iff in Hg.
    destruct op; try discriminate.
    pose proof (lock_held_scrollToBottom_unescaped arg now w H Hg) as HL.
    unfold exec in *. simpl. unfold bind.
    destruct (scrollToBottom arg now w). exact HL.
Qed.

Lemma lock_held_run_guarded (ops : list Op) :
  forall w, forced_only_unescaped ops w = true -> lock_held w ->
            lock_held (run ops w).
Proof.
  induction ops as [|op ops IH]; intros w Hops H; simpl; [exact H|].
  simpl in Hops. apply andb_true_iff in Hops as [Hop Hops].
  apply IH; [exact Hops|]. apply lock_held_perform_guarded; assumption.
Qed.

(** ** Running the computations forward *)

Lemma calc_frames (w : World) :
  frames (snd (calculatedTargetScrollTop w)) = frames w.
Proof.
  unfold calculatedTargetScrollTop.
  repeat case_match; try reflexivity.
  all: cbn [snd]; unfold frames at 1;
    cbn [pending set_pending set_lastCalculation];
    rewrite List.filter_app; cbn [List.filter is_Frame]; apply app_nil_r.
Qed.

Lemma calc_frame (w : World) :
  let w' := snd (calculatedTargetScrollTop w) in
  state w' = state w /\ page w' = page w /\ modscope w' = modscope w
  /\ optionsRef w' = optionsRef w /\ scrollMode w' = scrollMode w
  /\ react w' = react w /\ promises w' = promises w
  /\ settled w' = settled w /\ previousHeight w' = previousHeight w.
Proof.
  unfold calculatedTargetScrollTop.
  destruct (content_missing w); [cbn [snd]; repeat split; reflexivity|].
  destruct (scrollMode w) eqn:Hmode, (getScrollElement w);
    try (cbn [snd]; repeat split; solve [reflexivity|assumption]).
  all: destruct (opt_targetScrollTop (optionsRef w));
    try (cbn [snd]; repeat split; solve [reflexivity|assumption]).
  all: destruct (lastCalculation w) as [[t c]|];
    try destruct (Qeq_bool t (targetScrollTop w)).
  all: cbn [snd]; repeat split; solve [reflexivity|assumption].
Qed.

Lemma calc_set_state (s : StickToBottomState) (w : World) :
  calculatedTargetScrollTop (set_state s w)
  = (fst (calculatedTargetScrollTop w),
     set_state s (snd (calculatedTargetScrollTop w))).
Proof.
  unfold calculatedTargetScrollTop.
  change (content_missing (set_state s w)) with (content_missing w).
  change (scrollMode (set_state s w)) with (scrollMode w).
  change (getScrollElement (set_state s w)) with (getScrollElement w).
  change (optionsRef (set_state s w)) with (optionsRef w).
  change (lastCalculation (set_state s w)) with (lastCalculation w).
  change (targetScrollTop (set_state s w)) with (targetScrollTop w).
  repeat case_match; reflexivity.
Qed.

Lemma calc_hit (v : World) (resolver : GetTargetScrollTop) (t : Q)
    (c : JSNumber) :
  content_missing v = false ->
  match scrollMode v, getScrollElement v with
  | DocumentMode, None => False
  | _, _ => True
  end ->
  opt_targetScrollTop (optionsRef v) = Some resolver ->
  lastCalculation v = Some (t, c) ->
  Qeq_bool t (targetScrollTop v) = true ->
  calculatedTargetScrollTop v = (c, v).
Proof.
  intros Hm He Hr Hl Heq. unfold calculatedTargetScrollTop.
  rewrite Hm, Hr, Hl, Heq.
  destruct (scrollMode v), (getScrollElement v); try reflexivity.
  destruct He.
Qed.

Lemma calc_again (w : World) :
  calculatedTargetScrollTop (snd (calculatedTargetScrollTop w))
  = (fst (calculatedTargetScrollTop w), snd (calculatedTargetScrollTop w)).
Proof.
  unfold calculatedTargetScrollTop at 2 3 4.
  destruct (content_missing w) eqn:Hm.
  { simpl. unfold calculatedTargetScrollTop. rewrite Hm. reflexivity. }
  destruct (scrollMode w) eqn:Hmode, (getScrollElement w) as [e|] eqn:He.
  all: try (simpl; unfold calculatedTargetScrollTop; rewrite Hm, Hmode, He;
            reflexivity).
  all: destruct (opt_targetScrollTop (optionsRef w)) as [resolver|] eqn:Hr.
  all: try (simpl; unfold calculatedTargetScrollTop;
            rewrite Hm, Hmode, He, Hr; reflexivity).
  all: destruct (lastCalculation w) as [[t c]|] eqn:Hl.
  all: try destruct (Qeq_bool t (targetScrollTop w)) eqn:Heq.
  all: try (simpl; unfold calculatedTargetScrollTop;
            rewrite Hm, Hmode, He, Hr, Hl, Heq; reflexivity).
  all: cbn [fst snd];
    apply calc_hit with resolver (targetScrollTop w);
    [ exact Hm
    | change (match scrollMode w, getScrollElement w with
              | DocumentMode, None => False
              | _, _ => True
              end); rewrite Hmode; try rewrite He; exact Logic.I
    | exact Hr
    | reflexivity
    | apply Qeq_bool_refl ].
Qed.

Lemma bind_run {A B} (m : M A) (f : A -> M B) (w : World) :
  bind m f w = f (fst (m w)) (snd (m w)).
Proof. unfold bind. destruct (m w). reflexivity. Qed.

Ltac forward :=
  repeat first
    [ rewrite bind_run
    | progress cbn [gets modify update_state ret fst snd schedule
                    state page modscope optionsRef scrollMode lastCalculation
                    previousHeight react pending promises settled
                    set_page set_modscope set_optionsRef set_state
                    set_lastCalculation set_previousHeight set_react
                    set_pending set_promises set_settled] ].

Lemma isSelecting_set_state (s : StickToBottomState) (w : World) :
  isSelecting (set_state s w) = isSelecting w.
Proof. reflexivity. Qed.

Lemma getScrollTop_set_state (s : StickToBottomState) (w : World) :
  getScrollTop (set_state s w) = getScrollTop w.
Proof. reflexivity. Qed.

Lemma surface_set_state (s : StickToBottomState) (w : World) :
  surface (set_state s w) = surface w.
Proof. reflexivity. Qed.

Lemma surface_calc (w : World) :
  surface (snd (calculatedTargetScrollTop w)) = surface w.
Proof.
  destruct (calc_frame w) as (_ & Hp & _ & _ & Hm & _).
  unfold surface. congruence.
Qed.



Lemma getScrollTop_of_surface (w v : World) :
  surface w = surface v -> getScrollTop w = getScrollTop v.
Proof.
  unfold surface. intros [= Hp Hm]. unfold getScrollTop.
  rewrite Hp, Hm. reflexivity.
Qed.

Lemma getScrollTop_calc (w : World) :
  getScrollTop (snd (calculatedTargetScrollTop w)) = getScrollTop w.
Proof. apply getScrollTop_of_surface, surface_calc. Qed.

Lemma surface_setScrollTop (x : Q) (w v : World) :
  surface w = surface v ->
  surface (snd (setScrollTop x w)) = surface (snd (setScrollTop x v)).
Proof.
  unfold surface. intros [= Hp Hm]. unfold setScrollTop.
  rewrite Hp, Hm.
  destruct (scrollMode v) eqn:Hv; [destruct (scrollRef_current (page v))|];
    cbn [snd page scrollMode set_state set_page]; congruence.
Qed.


Lemma animation_runs_set_state (b : Behavior) (s : StickToBottomState)
    (w : World) :
  animation_runs b (set_state s w)
  = match animation s with
    | Some a => behavior_same (behavior a) b
    | None => false
    end.
Proof. reflexivity. Qed.


Lemma resolveAnimation_run (sources : list AnimationSource) (w : World) :
  resolveAnimation sources w
  = (fst (mergeAnimations sources (modscope w)),
     set_modscope (snd (mergeAnimations sources (modscope w))) w).
Proof.
  unfold resolveAnimation.
  destruct (mergeAnimations sources (modscope w)). reflexivity.
Qed.

Lemma mergeAnimations_mouseDown (sources : list AnimationSource)
    (m : ModuleScope) :
  mouseDown (snd (mergeAnimations sources m)) = mouseDown m.
Proof.
  unfold mergeAnimations. destruct (merge_loop sources). reflexivity.
Qed.

Lemma mergeAnimations_instant (s : AnimationSource) (m : ModuleScope) :
  fst (mergeAnimations [s; SrcBehavior BInstant] m) = Instant.
Proof.
  unfold mergeAnimations.
  change [s; SrcBehavior BInstant] with ([s] ++ [SrcBehavior BInstant]).
  rewrite merge_loop_snoc. destruct (merge_loop [s]) as [result instant].
  reflexivity.
Qed.

Lemma calc_set_modscope (m : ModuleScope) (w : World) :
  calculatedTargetScrollTop (set_modscope m w)
  = (fst (calculatedTargetScrollTop w),
     set_modscope m (snd (calculatedTargetScrollTop w))).
Proof.
  unfold calculatedTargetScrollTop.
  change (content_missing (set_modscope m w)) with (content_missing w).
  change (scrollMode (set_modscope m w)) with (scrollMode w).
  change (getScrollElement (set_modscope m w)) with (getScrollElement w).
  change (optionsRef (set_modscope m w)) with (optionsRef w).
  change (lastCalculation (set_modscope m w)) with (lastCalculation w).
  change (targetScrollTop (set_modscope m w)) with (targetScrollTop w).
  repeat case_match; reflexivity.
Qed.

Lemma calc_set_react (r : ReactState) (w : World) :
  calculatedTargetScrollTop (set_react r w)
  = (fst (calculatedTargetScrollTop w),
     set_react r (snd (calculatedTargetScrollTop w))).
Proof.
  unfold calculatedTargetScrollTop.
  change (content_missing (set_react r w)) with (content_missing w).
  change (scrollMode (set_react r w)) with (scrollMode w).
  change (getScrollElement (set_react r w)) with (getScrollElement w).
  change (optionsRef (set_react r w)) with (optionsRef w).
  change (lastCalculation (set_react r w)) with (lastCalculation w).
  change (targetScrollTop (set_react r w)) with (targetScrollTop w).
  repeat case_match; reflexivity.
Qed.

Lemma targetScrollTop_of_surface (w v : World) :
  surface w = surface v -> targetScrollTop w = targetScrollTop v.
Proof.
  unfold surface. intros [= Hp Hm].
  unfold targetScrollTop, getScrollDimensions, content_missing.
  rewrite Hp, Hm. reflexivity.
Qed.

Lemma isSelecting_of_surface (w v : World) :
  surface w = surface v ->
  mouseDown (modscope w) = mouseDown (modscope v) ->
  isSelecting w = isSelecting v.
Proof.
  unfold surface. intros [= Hp Hm] Hd. unfold isSelecting.
  rewrite Hp, Hd. reflexivity.
Qed.


Lemma bind_inv {A B} (m : M A) (f : A -> M B) (w w' : World) (r : B) :
  bind m f w = (r, w') ->
  exists a w1, m w = (a, w1) /\ f a w1 = (r, w').
Proof.
  unfold bind. destruct (m w) as [a w1]. intros H. exists a, w1. auto.
Qed.

Lemma frames_snoc_frame (ts : list Task) (p : nat) (l : Loop) :
  List.filter is_Frame (ts ++ [Frame p l])
  = List.filter is_Frame ts ++ [Frame p l].
Proof. rewrite List.filter_app. reflexivity. Qed.

(** C5 (as the code has it): a call first clears the animation record
    unless [wait] is [true]; it returns the promise of the running
    animation, queuing no frame and creating no promise, only when [wait] is
    [true] and the record (already set by a frame of that animation) holds
    the very behavior object the call resolved; in every other case it
    creates a new promise and queues a new frame loop beside the ones
    already queued. *)
Theorem scrollToBottom_reuses_only_when_waiting :
  forall (w : World) (o : ScrollOptions) (now : Q),
    let b := fst (mergeAnimations
                    [SrcObject (opt_spring (optionsRef w)); so_animation o]
                    (modscope w)) in
    let r := fst (scrollToBottom (OptObject o) now w) in
    let w' := snd (scrollToBottom (OptObject o) now w) in
    if wait_is_not_true (so_wait o) || negb (animation_runs b w) then
      r = promises w
      /\ promises w' = S (promises w)
      /\ animation (state w')
         = (if wait_is_not_true (so_wait o) then None
            else animation (state w))
      /\ exists l, frames w' = frames w ++ [Frame r l] /\ l_behavior l = b
    else
      match animation (state w) with
      | Some a => r = promise a
      | None => False
      end
      /\ animation (state w') = animation (state w)
      /\ promises w' = promises w
      /\ frames w' = frames w.
Proof.
  intros w o now b r w'. subst b r w'.
  destruct (scrollToBottom (OptObject o) now w) as [r w'] eqn:E.
  cbn [fst snd]. unfold scrollToBottom in E.
  apply bind_inv in E as ([] & w1 & E0 & E).
  apply bind_inv in E as (options & w1' & E1 & E).
  injection E1 as <- <-.
  apply bind_inv in E as (b & w2 & E2 & E).
  apply bind_inv in E as (c & w3 & E3 & E).
  apply bind_inv in E as ([] & w4 & E4 & E).
  apply bind_inv in E as (running & w4' & E5 & E).
  injection E5 as <- <-.
  assert (H1 : animation (state w1) = animation (state w)
               /\ modscope w1 = modscope w /\ optionsRef w1 = optionsRef w
               /\ promises w1 = promises w /\ pending w1 = pending w).
  { destruct (so_preserveScrollPosition o) as [[|]|];
      injection E0 as <-; repeat split; reflexivity. }
  destruct H1 as (Ha1 & Hm1 & Ho1 & Hp1 & Hq1).
  unfold resolveAnimation in E2. rewrite Ho1, Hm1 in E2.
  destruct (mergeAnimations
              [SrcObject (opt_spring (optionsRef w)); so_animation o]
              (modscope w)) as [b' m'] eqn:Hb.
  injection E2 as -> <-. cbn [fst].
  pose proof (calc_frame (set_modscope m' w1)) as Hc.
  pose proof (calc_frames (set_modscope m' w1)) as Hf.
  rewrite E3 in Hc, Hf. cbn [snd] in Hc, Hf.
  destruct Hc as (Hs3 & _ & _ & _ & _ & _ & Hp3 & _).
  cbn [state promises set_modscope] in Hs3, Hp3.
  unfold frames in Hf. cbn [pending set_modscope] in Hf. rewrite Hq1 in Hf.
  fold (frames w) in Hf.
  assert (Hruns : animation_runs b w3 = animation_runs b w).
  { unfold animation_runs. rewrite Hs3, Ha1. reflexivity. }
  destruct (wait_is_not_true (so_wait o)) eqn:Hwait; cbn [when orb] in E4 |- *.
  - injection E4 as <-.
    unfold animation_runs in E. cbn [state set_state st_animation animation] in E.
    unfold next in E.
    apply bind_inv in E as (p & w5 & E5 & E). injection E5 as <- <-.
    apply bind_inv in E as ([] & w6 & E6 & E). injection E6 as <-.
    apply bind_inv in E as ([] & w7 & E7 & E). injection E7 as <-.
    injection E as <- <-.
    cbn [promises set_promises set_state set_pending].
    rewrite Hp3, Hp1. split; [reflexivity|]. split; [reflexivity|].
    split; [reflexivity|].
    eexists. split.
    { unfold frames at 1. cbn [pending set_pending set_promises set_state].
      rewrite frames_snoc_frame, Hf. reflexivity. }
    reflexivity.
  - injection E4 as <-. rewrite Hruns in E.
    destruct (animation_runs b w) eqn:Hr; cbn [negb].
    + apply bind_inv in E as (a & w5 & E5 & E). injection E5 as <- <-.
      injection E as <- <-. rewrite Hs3, Ha1, Hp3, Hp1.
      unfold animation_runs in Hr.
      destruct (animation (state w)) as [a|]; [|discriminate].
      repeat split; try reflexivity. exact Hf.
    + unfold next in E.
      apply bind_inv in E as (p & w5 & E5 & E). injection E5 as <- <-.
      apply bind_inv in E as ([] & w6 & E6 & E). injection E6 as <-.
      apply bind_inv in E as ([] & w7 & E7 & E). injection E7 as <-.
      injection E as <- <-.
      cbn [promises set_promises set_state set_pending].
      rewrite Hp3, Hp1. split; [reflexivity|]. split; [reflexivity|].
      split; [cbn [state set_state set_pending set_promises];
              rewrite Hs3, Ha1; reflexivity|].
      eexists. split.
      { unfold frames at 1. cbn [pending set_pending set_promises set_state].
        rewrite frames_snoc_frame, Hf.
        reflexivity. }
      reflexivity.
Qed.

(** C5, the counterexample: while the animation of [ex_animating] runs
    (its record holds promise 0 and the cached default spring object), a
    second [scrollToBottom()] resolves the very same behavior object, yet
    returns the new promise 2 and queues a second loop with that object;
    run in the same frame, the two loops both integrate the shared velocity
    (to 1130868/15625, where one loop alone gives 38961/625) and both go
    on. *)
Lemma scrollToBottom_starts_duplicate_loop :
  let w := ex_animating in
  let r := fst ex_called_again in
  let w' := snd ex_called_again in
  option_map promise (animation (state w)) = Some 0%nat
  /\ animation_runs
       (fst (mergeAnimations
               [SrcObject (opt_spring (optionsRef w)); SrcUndefined]
               (modscope w))) w = true
  /\ r = 2%nat
  /\ frames w = [Frame 1 ex_loop]
  /\ (exists l2, frames w' = [Frame 1 ex_loop; Frame 2 l2]
                 /\ behavior_same (l_behavior l2) (l_behavior ex_loop) = true)
  /\ js_is (velocity (state (run [RunTask 0 (50 # 3) (50 # 3)] w')))
       (38961 # 625)
  /\ js_is (velocity (state (run [RunTask 0 (50 # 3) (50 # 3);
                                  RunTask 0 (50 # 3) (50 # 3)] w')))
       (1130868 # 15625)
  /\ length (frames (run [RunTask 0 (50 # 3) (50 # 3);
                          RunTask 0 (50 # 3) (50 # 3)] w')) = 2%nat.
Proof.
  cbv zeta. split; [reflexivity|]. split; [vm_compute; reflexivity|].
  split; [vm_compute; reflexivity|]. split; [reflexivity|].
  split; [eexists; split; vm_compute; reflexivity|].
  split; [vm_compute; reflexivity|].
  split; [vm_compute; reflexivity|].
  vm_compute. reflexivity.
Qed.

(** ** The scenarios *)

(** C4 (as the code has it): with a scroll element whose scrollHeight and
    clientHeight are both 500 and whose offset is 0, the target is
    [max(0, 500 - 1 - 500) = 0]; [scrollToBottom({animation: "instant"})]
    leaves the page as it is and queues one frame, and that frame, run at
    any later time with no selection in the way, writes nothing either and
    resolves the returned promise with [true]. *)
Theorem instant_scrollToBottom_without_overflow :
  forall (w : World) (e : HTMLElement) (now now' tick : Q),
    scrollMode w = ElementMode ->
    scrollRef_current (page w) = Some e ->
    el_scrollHeight e == 500 ->
    el_clientHeight e == 500 ->
    el_scrollTop e == 0 ->
    lastCalculation_clamped w ->
    isSelecting w = false ->
    now <= now' ->
    let r := fst (scrollToBottom (OptObject ex_instant_options) now w) in
    let w1 := snd (scrollToBottom (OptObject ex_instant_options) now w) in
    targetScrollTop w == 0
    /\ r = promises w
    /\ page w1 = page w
    /\ exists l,
         last (pending w1) = Some (Frame r l)
         /\ page (exec (frame r l now' tick) w1) = page w
         /\ settled (exec (frame r l now' tick) w1) !! r
            = Some (Fulfilled true).
Proof.
  intros w e now now' tick Hmode Hsr Hsh Hch Hst Hlc Hsel Hnow r w1.
  assert (Ht : targetScrollTop w == 0).
  { unfold targetScrollTop, getScrollDimensions. rewrite Hmode, Hsr.
    destruct (content_missing w); [reflexivity|].
    unfold Math_max.
    destruct (Qle_bool 0 (el_scrollHeight e - 1 - el_clientHeight e)) eqn:E;
      [|reflexivity].
    apply Qle_bool_iff in E. lra. }
  assert (Hs : getScrollTop w == 0).
  { unfold getScrollTop. rewrite Hmode, Hsr. exact Hst. }
  eassert (E : scrollToBottom (OptObject ex_instant_options) now w = _).
  { unfold scrollToBottom, ex_instant_options.
    cbn [when negb nullish so_preserveScrollPosition].
    unfold setIsAtBottom. forward.
    rewrite resolveAnimation_run. forward.
    cbn [so_animation]. rewrite mergeAnimations_instant.
    rewrite calc_set_modscope, calc_set_react, calc_set_state. forward.
    cbn [so_wait wait_is_not_true when]. forward.
    rewrite animation_runs_set_state. cbn [animation st_animation].
    unfold next. forward. reflexivity. }
  subst r w1. rewrite E. clear E.
  destruct (calc_frame w)
    as (Hcs & Hcp & Hcm & Hco & Hcmode & Hcr & Hcpr & Hcse & Hcph).
  cbn [fst snd ret so_ignoreEscapes so_duration nullish wait_ms].
  rewrite !Hcpr.
  split; [exact Ht|]. split; [reflexivity|].
  split; [forward; exact Hcp|].
  eexists. split; [forward; apply last_snoc|].
  match goal with
  | |- context [exec (frame _ ?l _ _) ?W] => set (W1 := W); set (l0 := l)
  end.
  assert (H1 : surface W1 = surface w).
  { unfold surface, W1. forward. congruence. }
  assert (Hsel1 : isSelecting W1 = false).
  { rewrite <- Hsel. apply isSelecting_of_surface; [exact H1|].
    unfold W1. forward. apply mergeAnimations_mouseDown. }
  assert (Hlc1 : lastCalculation_clamped W1).
  { unfold lastCalculation_clamped, W1. forward.
    apply (calculatedTargetScrollTop_spec w Hlc). }
  assert (Hs1 : getScrollTop W1 == 0).
  { rewrite (getScrollTop_of_surface _ _ H1). exact Hs. }
  assert (Ht1 : targetScrollTop W1 == 0).
  { rewrite (targetScrollTop_of_surface _ _ H1). exact Ht. }
  assert (Hst1 : state W1 = st_animation None (st_isAtBottom true (state w)))
    by reflexivity.
  destruct (calculatedTargetScrollTop_spec W1 Hlc1) as (Hc1 & _).
  assert (Hwait : Qlt_bool now' (now + 0) = false).
  { apply Qlt_bool_false_iff. lra. }
  assert (Hdur : Qlt_bool now' (now + 0 + 0) = false).
  { apply Qlt_bool_false_iff. lra. }
  assert (Hat' : js_lt (Num (getScrollTop W1))
                   (fst (calculatedTargetScrollTop W1)) = false).
  { destruct (fst (calculatedTargetScrollTop W1)) as [c|]; [|reflexivity].
    apply Qlt_bool_false_iff. simpl in Hc1. lra. }
  assert (Hat : forall start,
            js_lt (Num (getScrollTop W1))
              (js_min start (fst (calculatedTargetScrollTop W1))) = false).
  { intros start. apply js_lt_min_false, Hat'. }
  eassert (E : frame (promises w) l0 now' tick W1 = _).
  { unfold frame, l0.
    cbn [l_behavior l_waitElapsed l_startTarget l_ignoreEscapes].
    forward. rewrite !Hst1.
    cbn [isAtBottom animation st_animation st_isAtBottom negb].
    forward. rewrite !Hst1. rewrite animation_runs_set_state.
    cbn [animation st_animation behavior behavior_same when]. forward.
    rewrite !isSelecting_set_state, Hsel1, Hwait. forward.
    rewrite !calc_set_state. forward. rewrite Hat.
    unfold duration_pending. cbn [l_durationElapsed]. rewrite Hdur.
    forward. rewrite !getScrollTop_set_state, !getScrollTop_calc.
    rewrite !calc_set_state, calc_again. forward. rewrite Hat'.
    unfold settle. forward.
    cbn [isAtBottom st_animation st_isAtBottom st_lastTick].
    reflexivity. }
  unfold exec. rewrite E. clear E. cbn [snd].
  destruct (calc_frame W1) as (_ & Hcp1 & _).
  split.
  - forward. rewrite Hcp1. unfold W1. forward. exact Hcp.
  - forward. apply lookup_insert_eq.
Qed.

Lemma instant_scrollToBottom_without_overflow_witness :
  let w := ex_world 0 500 500 in
  let r := fst (scrollToBottom (OptObject ex_instant_options) 0 w) in
  let w1 := snd (scrollToBottom (OptObject ex_instant_options) 0 w) in
  targetScrollTop w == 0
  /\ r = promises w
  /\ page w1 = page w
  /\ exists l,
       last (pending w1) = Some (Frame r l)
       /\ page (exec (frame r l 16 16) w1) = page w
       /\ settled (exec (frame r l 16 16) w1) !! r = Some (Fulfilled true).
Proof.
  apply (instant_scrollToBottom_without_overflow
           (ex_world 0 500 500) (ex_element 0 500 500) 0 16 16).
  - reflexivity.
  - reflexivity.
  - reflexivity.
  - reflexivity.
  - reflexivity.
  - exact Logic.I.
  - reflexivity.
  - apply Qle_bool_iff. reflexivity.
Defined.

(** C4, the counterexample: in the scenario the offset is 0, not 499,
    right after the call and after the frame that resolves the promise. *)
Lemma instant_scrollToBottom_stays_at_top :
  let w := ex_world 0 500 500 in
  let r := fst (scrollToBottom (OptObject ex_instant_options) 0 w) in
  let w1 := snd (scrollToBottom (OptObject ex_instant_options) 0 w) in
  let w2 := exec (perform (RunTask 0 16 16)) w1 in
  targetScrollTop w == 0
  /\ getScrollTop w1 == 0
  /\ ~ getScrollTop w1 == 499
  /\ settled w1 !! r = None
  /\ getScrollTop w2 == 0
  /\ ~ getScrollTop w2 == 499
  /\ settled w2 !! r = Some (Fulfilled true).
Proof.
  cbv zeta.
  repeat split; try (vm_compute; reflexivity);
    intros H; vm_compute in H; discriminate.
Qed.

Lemma scrollDifference_run (w : World) :
  scrollDifference w
  = (js_sub (fst (calculatedTargetScrollTop w))
       (Num (getScrollTop (snd (calculatedTargetScrollTop w)))),
     snd (calculatedTargetScrollTop w)).
Proof.
  unfold scrollDifference. rewrite bind_run. reflexivity.
Qed.

(** ** The spring step *)




(** * Further properties of the engine *)

(** ** One-step equations *)

Lemma getScrollTop_set_react (r : ReactState) (w : World) :
  getScrollTop (set_react r w) = getScrollTop w.
Proof. reflexivity. Qed.

Lemma isNearBottom_run (w : World) :
  isNearBottom w
  = (js_le (js_sub (fst (calculatedTargetScrollTop w))
                (Num (getScrollTop w)))
         (Num STICK_TO_BOTTOM_OFFSET_PX),
     snd (calculatedTargetScrollTop w)).
Proof.
  unfold isNearBottom. rewrite bind_run, scrollDifference_run.
  cbn [fst snd ret]. rewrite getScrollTop_calc. reflexivity.
Qed.

Lemma setEscapedFromLock_run (b : bool) (w : World) :
  setEscapedFromLock b w
  = (tt, set_react {| rs_escapedFromLock := b;
                      rs_isAtBottom := rs_isAtBottom (react w);
                      rs_isNearBottom := rs_isNearBottom (react w) |}
           (set_state (st_escapedFromLock b (state w)) w)).
Proof. reflexivity. Qed.

Lemma setIsAtBottom_run (b : bool) (w : World) :
  setIsAtBottom b w
  = (tt, set_react {| rs_escapedFromLock := rs_escapedFromLock (react w);
                      rs_isAtBottom := b;
                      rs_isNearBottom := rs_isNearBottom (react w) |}
           (set_state (st_isAtBottom b (state w)) w)).
Proof. reflexivity. Qed.

Lemma setIsNearBottom_run (b : bool) (w : World) :
  setIsNearBottom b w
  = (tt, set_react {| rs_escapedFromLock := rs_escapedFromLock (react w);
                      rs_isAtBottom := rs_isAtBottom (react w);
                      rs_isNearBottom := b |} w).
Proof. reflexivity. Qed.

Lemma continue_run (p : nat) (l : Loop) (w : World) :
  continue p l w
  = (tt, set_settled (<[p := Adopted (promises w)]> (settled w))
           (set_pending (pending w ++ [Frame (promises w) l])
              (set_promises (S (promises w)) w))).
Proof. reflexivity. Qed.

Lemma settle_fulfilled_run (p : nat) (b : bool) (w : World) :
  settle p (Fulfilled b) w
  = (tt, set_pending
           (pending w ++ replicate (length (chain w p)) ResetIntegration)
           (set_settled (<[p := Fulfilled b]> (settled w)) w)).
Proof. reflexivity. Qed.

Lemma frames_resets (ts : list Task) (n : nat) :
  List.filter is_Frame (ts ++ replicate n ResetIntegration)
  = List.filter is_Frame ts.
Proof.
  rewrite List.filter_app.
  assert (H : List.filter is_Frame (replicate n ResetIntegration) = []).
  { induction n as [|n IH]; [reflexivity|exact IH]. }
  rewrite H. apply app_nil_r.
Qed.

Lemma resets_end (ts : list Task) (w : World) (p : nat) :
  exists earlier,
    ts ++ replicate (length (chain w p)) ResetIntegration
    = earlier ++ [ResetIntegration].
Proof.
  unfold chain. cbn [length]. rewrite replicate_S_end.
  eexists. rewrite app_assoc. reflexivity.
Qed.

Lemma Qle_bool_true (a b : Q) : a <= b -> Qle_bool a b = true.
Proof. intros H. apply Qle_bool_iff. exact H. Qed.


Lemma setScrollTop_frame (x : Q) (w : World) :
  let w' := snd (setScrollTop x w) in
  pending w' = pending w /\ promises w' = promises w
  /\ settled w' = settled w /\ flags w' = flags w.
Proof.
  unfold setScrollTop.
  destruct (scrollMode w); [destruct (scrollRef_current (page w))|];
    repeat split; reflexivity.
Qed.

Lemma setScrollTop_keeps (x : Q) (w : World) :
  let w' := snd (setScrollTop x w) in
  (exists i, state w' = st_ignoreScrollToTop i (state w))
  /\ pending w' = pending w /\ react w' = react w
  /\ previousHeight w' = previousHeight w /\ modscope w' = modscope w
  /\ optionsRef w' = optionsRef w.
Proof.
  unfold setScrollTop.
  destruct (scrollMode w); [destruct (scrollRef_current (page w))|];
    cbn [snd state pending react previousHeight modscope optionsRef
         set_state set_page];
    repeat split; try reflexivity; try (eexists; reflexivity).
  exists (ignoreScrollToTop (state w)). destruct (state w); reflexivity.
Qed.

(** In element mode, an offset between 0 and the target is within what the
    element can scroll by, so the browser keeps it up to its rounding. *)
Lemma setScrollTop_lands (x : Q) (w : World) (e : HTMLElement) :
  scrollMode w = ElementMode ->
  scrollRef_current (page w) = Some e ->
  0 <= x -> x <= targetScrollTop w ->
  getScrollTop (exec (setScrollTop x) w) = snap (page w) x.
Proof.
  intros Hmode He H0 Hx. unfold exec, setScrollTop. rewrite Hmode, He.
  cbn [snd]. rewrite getScrollTop_set_state. unfold getScrollTop.
  cbn [scrollMode set_page page]. rewrite Hmode.
  unfold assign_scrollTop. rewrite He.
  cbn [scrollRef_current with_scrollTop el_scrollTop]. unfold settle_offset.
  f_equal.
  assert (Hlim : x <= Math_max 0 (el_scrollHeight e - el_clientHeight e)).
  { unfold targetScrollTop, getScrollDimensions in Hx.
    rewrite Hmode, He in Hx.
    destruct (Math_max_lower 0 (el_scrollHeight e - el_clientHeight e))
      as [Hl0 Hl1].
    destruct (content_missing w); [lra|].
    destruct (Math_max_cases 0 (el_scrollHeight e - 1 - el_clientHeight e))
      as [Hc|Hc]; rewrite Hc in Hx; lra. }
  unfold Math_min at 1. rewrite (Qle_bool_true _ _ Hlim).
  unfold Math_max at 1. rewrite (Qle_bool_true _ _ H0). reflexivity.
Qed.

(** ** How [isAtBottom] gets set *)

Lemma turns_weaken {A} (P Q : World -> Prop) (m : M A) :
  preserves P m -> (forall w, P w -> Q w) -> turns P Q m.
Proof. intros Hm HPQ w H. apply HPQ, Hm, H. Qed.

Lemma turns_bind_pre {A B} (P Q : World -> Prop) (m : M A)
    (f : A -> M B) :
  preserves P m -> (forall a, turns P Q (f a)) -> turns P Q (bind m f).
Proof.
  intros Hm Hf w H. unfold bind.
  specialize (Hm w H). destruct (m w) as [a w1]. exact (Hf a w1 Hm).
Qed.

Lemma turns_bind_post {A B} (P Q : World -> Prop) (m : M A)
    (f : A -> M B) :
  turns P Q m -> (forall a, preserves Q (f a)) -> turns P Q (bind m f).
Proof.
  intros Hm Hf w H. unfold bind.
  specialize (Hm w H). destruct (m w) as [a w1]. exact (Hf a w1 Hm).
Qed.

(** While [isAtBottom] is clear it stays clear under every write but
    [setIsAtBottom(true)]. *)
Lemma detached_near (w : World) : detached w -> near_when_at_bottom w.
Proof. unfold detached, near_when_at_bottom. congruence. Qed.

Lemma detached_stable : stable detached.
Proof.
  split; try (intros; assumption).
  intros g w Hg H. unfold detached in *. simpl.
  destruct (Hg (state w)) as [_ ->]. exact H.
Qed.

Lemma detached_setEscapedFromLock (b : bool) :
  preserves detached (setEscapedFromLock b).
Proof. intros w H. exact H. Qed.

Lemma detached_setIsAtBottom_false : preserves detached (setIsAtBottom false).
Proof. intros w H. reflexivity. Qed.

Lemma detached_frame (p : nat) (l : Loop) (now tick : Q) :
  preserves detached (frame p l now tick).
Proof.
  intros w H. rewrite (frame_not_at_bottom p l now tick w H).
  revert w H.
  preserves_with
    ltac:(first [ apply stable_update_state;
                  [apply detached_stable|keeps_flags_tac]
                | apply stable_settle; apply detached_stable ])
    ltac:(idtac).
Qed.

Ltac detached_known :=
  first
    [ apply detached_setEscapedFromLock
    | apply detached_setIsAtBottom_false
    | apply detached_frame
    | apply stable_update_state; [apply detached_stable|keeps_flags_tac]
    | apply stable_handleScroll; apply detached_stable
    | apply stable_resetIntegration; apply detached_stable
    | apply stable_resizeReset; apply detached_stable
    | apply stable_attachContent; apply detached_stable
    | apply stable_set_mouseDown; apply detached_stable
    | apply stable_durationSettled; apply detached_stable
    | apply stable_isNearBottom; apply detached_stable
    | apply stable_setIsNearBottom; apply detached_stable
    | apply stable_setScrollTop; apply detached_stable
    | apply stable_resolveAnimation; apply detached_stable
    | apply stable_schedule; apply detached_stable
    | apply stable_settle; apply detached_stable
    | apply stable_scrollToBottom_preserving;
      [apply detached_stable|reflexivity]
    | assumption ].

Ltac detached_leaf :=
  let w := fresh "w" in
  let H := fresh "H" in
  intros w H; exact H.

Lemma detached_stopScroll : preserves detached stopScroll.
Proof. unfold stopScroll. preserves_with detached_known detached_leaf. Qed.

Lemma detached_escape_on_wheel (dy : Q) :
  preserves detached (escape_on_wheel dy).
Proof.
  unfold escape_on_wheel. preserves_with detached_known detached_leaf.
Qed.

Lemma detached_wheel_climb (dy : Q) (elements : list nat) :
  preserves detached (wheel_climb dy elements).
Proof.
  induction elements as [|element parents IH]; simpl.
  - apply preserves_ret.
  - preserves_with
      ltac:(first [apply detached_escape_on_wheel|exact IH]) detached_leaf.
Qed.

Lemma detached_handleWheel (event : WheelEvent) :
  preserves detached (handleWheel event).
Proof.
  unfold handleWheel.
  preserves_with ltac:(first [apply detached_wheel_climb|detached_known])
                 detached_leaf.
Qed.

(** What [isNearBottom] answers depends on the geometry, the options and
    the remembered calculation only. *)
Lemma near_set_state (s : StickToBottomState) (w : World) :
  fst (isNearBottom (set_state s w)) = fst (isNearBottom w).
Proof.
  rewrite !isNearBottom_run, calc_set_state. reflexivity.
Qed.

Lemma near_set_react (r : ReactState) (w : World) :
  fst (isNearBottom (set_react r w)) = fst (isNearBottom w).
Proof.
  rewrite !isNearBottom_run, calc_set_react. reflexivity.
Qed.

Lemma near_calc (w : World) :
  fst (isNearBottom (snd (calculatedTargetScrollTop w)))
  = fst (isNearBottom w).
Proof.
  rewrite !isNearBottom_run, calc_again. cbn [fst].
  rewrite getScrollTop_calc. reflexivity.
Qed.

Lemma near_set_previousHeight (h : option Q) (w : World) :
  fst (isNearBottom (set_previousHeight h w)) = fst (isNearBottom w).
Proof.
  rewrite !isNearBottom_run. cbn [fst].
  change (getScrollTop (set_previousHeight h w)) with (getScrollTop w).
  f_equal. f_equal.
  unfold calculatedTargetScrollTop.
  change (content_missing (set_previousHeight h w)) with (content_missing w).
  change (scrollMode (set_previousHeight h w)) with (scrollMode w).
  change (getScrollElement (set_previousHeight h w))
    with (getScrollElement w).
  change (optionsRef (set_previousHeight h w)) with (optionsRef w).
  change (lastCalculation (set_previousHeight h w)) with (lastCalculation w).
  change (targetScrollTop (set_previousHeight h w)) with (targetScrollTop w).
  repeat case_match; reflexivity.
Qed.

Lemma near_set_pending (ts : list Task) (w : World) :
  fst (isNearBottom (set_pending ts w)) = fst (isNearBottom w).
Proof.
  rewrite !isNearBottom_run. cbn [fst].
  change (getScrollTop (set_pending ts w)) with (getScrollTop w).
  f_equal. f_equal.
  unfold calculatedTargetScrollTop.
  change (content_missing (set_pending ts w)) with (content_missing w).
  change (scrollMode (set_pending ts w)) with (scrollMode w).
  change (getScrollElement (set_pending ts w)) with (getScrollElement w).
  change (optionsRef (set_pending ts w)) with (optionsRef w).
  change (lastCalculation (set_pending ts w)) with (lastCalculation w).
  change (targetScrollTop (set_pending ts w)) with (targetScrollTop w).
  repeat case_match; reflexivity.
Qed.

(** The places that set [isAtBottom] after asking [isNearBottom]. *)
Lemma near_then_setIsAtBottom (unescape : bool) :
  turns detached near_when_at_bottom
    (near <- isNearBottom ;;
     when near
       (when unescape (setEscapedFromLock false) ;; setIsAtBottom true)).
Proof.
  intros w H. rewrite bind_run.
  pose proof (near_calc w) as Hn.
  destruct (calc_frame w) as (Hs & _).
  rewrite (isNearBottom_run w) at 1 2. cbn [fst snd].
  rewrite (isNearBottom_run w) in Hn.
  destruct (js_le (js_sub (fst (calculatedTargetScrollTop w))
                     (Num (getScrollTop w)))
              (Num STICK_TO_BOTTOM_OFFSET_PX)); cbn [when].
  - intros _. rewrite bind_run.
    destruct unescape; cbn [when];
      rewrite ?setEscapedFromLock_run; cbn [ret fst snd];
      rewrite setIsAtBottom_run; cbn [snd];
      rewrite ?near_set_react, ?near_set_state, ?near_set_react,
        ?near_set_state; exact Hn.
  - apply detached_near. unfold detached. cbn [ret snd]. rewrite Hs. exact H.
Qed.

(** Rule 5 of the scroll timeout, and the check of the document mode. *)
Lemma near_bottom_check :
  turns detached near_when_at_bottom
    (escaped <- gets (fun w => escapedFromLock (state w)) ;;
     if escaped then ret tt
     else
       near <- isNearBottom ;;
       when near (setIsAtBottom true)).
Proof.
  intros w H. rewrite bind_run. cbn [gets fst snd].
  destruct (escapedFromLock (state w)); [apply detached_near; exact H|].
  exact (near_then_setIsAtBottom false w H).
Qed.

Lemma near_when_at_bottom_set_previousHeight (h : option Q) :
  preserves near_when_at_bottom (modify (set_previousHeight h)).
Proof.
  intros w H Hb. cbn [modify snd] in *.
  rewrite near_set_previousHeight. exact (H Hb).
Qed.

Lemma near_when_at_bottom_schedule (t : Task) :
  preserves near_when_at_bottom (schedule t).
Proof.
  intros w H Hb. unfold schedule in *. cbn [modify snd] in *.
  rewrite near_set_pending. exact (H Hb).
Qed.

(** Callback by callback: started with [isAtBottom] clear, each ends with
    [isAtBottom] clear or with the view near the bottom. *)
Lemma sticking_scrollTimeout (ignored : option Q) (last : Q) :
  turns detached near_when_at_bottom (scrollTimeout ignored last).
Proof.
  unfold scrollTimeout.
  apply turns_bind_pre; [apply preserves_gets|intros currentScrollTop].
  apply turns_bind_pre; [apply preserves_gets|intros resizing].
  destruct (truthy resizing || strict_eq_opt currentScrollTop ignored);
    [apply turns_weaken; [apply preserves_ret|exact detached_near]|].
  apply turns_bind_pre; [apply preserves_gets|intros selecting].
  destruct selecting;
    [apply turns_weaken; [exact detached_stopScroll|exact detached_near]|].
  apply turns_bind_pre; [apply preserves_gets|intros ignoring].
  destruct ignoring;
    [apply turns_weaken;
     [apply stable_setScrollTop; apply detached_stable|exact detached_near]|].
  apply turns_bind_pre;
    [apply preserves_when; exact detached_stopScroll|intros _].
  apply turns_bind_pre;
    [apply preserves_when; apply detached_setEscapedFromLock|intros _].
  exact near_bottom_check.
Qed.

Lemma sticking_documentModeEffect :
  turns detached near_when_at_bottom documentModeEffect.
Proof.
  unfold documentModeEffect.
  apply turns_bind_pre; [apply preserves_gets|intros mode].
  destruct mode;
    [apply turns_weaken; [apply preserves_ret|exact detached_near]|].
  apply turns_bind_pre;
    [apply stable_isNearBottom; apply detached_stable|intros near].
  apply turns_bind_pre;
    [apply stable_setIsNearBottom; apply detached_stable|intros _].
  exact near_bottom_check.
Qed.

Lemma sticking_resizeObserved (height now : Q) :
  turns detached near_when_at_bottom (resizeObserved height now).
Proof.
  unfold resizeObserved.
  apply turns_bind_pre; [apply preserves_gets|intros content].
  destruct content;
    [|apply turns_weaken; [apply preserves_ret|exact detached_near]].
  apply turns_bind_pre; [apply preserves_gets|intros previous].
  apply turns_bind_pre;
    [apply stable_update_state; [apply detached_stable|keeps_flags_tac]
    |intros _].
  apply turns_bind_pre; [apply preserves_gets|intros currentScrollTop].
  apply turns_bind_pre; [apply preserves_gets|intros target].
  apply turns_bind_pre;
    [apply preserves_when; apply stable_setScrollTop; apply detached_stable
    |intros _].
  apply turns_bind_pre;
    [apply stable_isNearBottom; apply detached_stable|intros near].
  apply turns_bind_pre;
    [apply stable_setIsNearBottom; apply detached_stable|intros _].
  apply turns_bind_post.
  - destruct (Qle_bool 0 (height - nullish previous height)).
    + apply turns_weaken; [|exact detached_near].
      preserves_with detached_known detached_leaf.
    + exact (near_then_setIsAtBottom true).
  - intros _. apply preserves_bind;
      [apply near_when_at_bottom_set_previousHeight|intros _].
    apply near_when_at_bottom_schedule.
Qed.

Lemma sticking_run_task (t : Task) (now tick : Q) :
  turns detached near_when_at_bottom (run_task t now tick).
Proof.
  destruct t; simpl;
    try solve [apply turns_weaken; [|exact detached_near];
               preserves_with detached_known detached_leaf].
  apply sticking_scrollTimeout.
Qed.

Lemma sticking_perform (op : Op) :
  keeps_position op = true ->
  turns detached near_when_at_bottom (perform op).
Proof.
  destruct op; simpl; intros Hop;
    try (destruct arg as [s|[an wt ie [[|]|] du]]; simpl in Hop;
         try discriminate);
    try solve [apply turns_weaken; [|exact detached_near];
               preserves_with
                 ltac:(first [apply detached_handleWheel
                             |apply detached_stopScroll
                             |detached_known])
                 detached_leaf].
  - apply sticking_resizeObserved.
  - apply sticking_documentModeEffect.
  - apply turns_bind_pre; [apply preserves_gets|intros tasks].
    destruct (tasks !! n);
      [|apply turns_weaken; [apply preserves_ret|exact detached_near]].
    apply turns_bind_pre;
      [apply preserves_modify; intros w H; exact H|intros _].
    apply sticking_run_task.
Qed.

(** C2 (as the code has it): in every world reached by a history in which
    each [scrollToBottom] call that does not preserve the scroll position is
    made while [escapedFromLock] is clear, [isAtBottom] is set only while
    [escapedFromLock] is clear, React's cells hold the same two flags, and
    the hook returns [escapedFromLock] as it is and
    [isAtBottom || isNearBottom]; a [scrollToBottom] call that preserves the
    scroll position writes neither flag, and any other sets [isAtBottom] and
    leaves [escapedFromLock] as it finds it.  [isAtBottom] is set from the
    mount on unless [initial] is [false]; after that, apart from those
    [scrollToBottom] calls, it turns from clear to set only in an operation
    that ends with the view within the near-bottom threshold. *)
Theorem lock_respected_unless_forced_while_escaped :
  forall (options : StickToBottomOptions) (mode : ScrollMode) (d : Page)
         (m : ModuleScope) (ops : list Op)
         (arg : ScrollToBottomOptions) (now : Q) (op : Op),
    forced_only_unescaped ops (useStickToBottom options mode d m) = true ->
    let w := run ops (useStickToBottom options mode d m) in
    isAtBottom (state w) && escapedFromLock (state w) = false
    /\ rs_isAtBottom (react w) = isAtBottom (state w)
    /\ rs_escapedFromLock (react w) = escapedFromLock (state w)
    /\ returned_escapedFromLock w = escapedFromLock (state w)
    /\ returned_isAtBottom w
       = isAtBottom (state w) || rs_isNearBottom (react w)
    /\ flags (exec (scrollToBottom arg now) w)
       = (if keeps_position (CallScrollToBottom arg now) then flags w
          else (escapedFromLock (state w), true))
    /\ isAtBottom (state (useStickToBottom options mode d m))
       = initial_is_not_false options
    /\ (keeps_position op = true ->
        isAtBottom (state w) = false ->
        isAtBottom (state (exec (perform op) w)) = true ->
        fst (isNearBottom (exec (perform op) w)) = true).
Proof.
  intros options mode d m ops arg now op Hops w.
  destruct (lock_held_run_guarded ops _ Hops (lock_held_init options mode d m))
    as [[He Hb] Hl].
  fold w in He, Hb, Hl.
  split; [exact Hl|]. split; [exact Hb|]. split; [exact He|].
  split; [exact He|].
  split; [unfold returned_isAtBottom; rewrite Hb; reflexivity|].
  split; [apply scrollToBottom_flags|].
  split; [reflexivity|].
  intros Hop Hclear. exact (sticking_perform op Hop w Hclear).
Qed.

Lemma lock_respected_unless_forced_while_escaped_witness :
  let w := run [CallScrollToBottom (OptString BSmooth) 0;
                ScrollEvent 1; CallStopScroll; RunTask 0 1 1;
                CallScrollToBottom
                  (OptObject
                     {| so_animation := SrcUndefined;
                        so_wait := WaitBool true;
                        so_ignoreEscapes := None;
                        so_preserveScrollPosition := Some true;
                        so_duration := DurationUndefined |}) 2;
                Environment (user_scrolls 960); ScrollEvent 1]
               (ex_world 950 1500 500) in
  let w' := exec (perform (RunTask 3 3 3)) w in
  isAtBottom (state w) && escapedFromLock (state w) = false
  /\ rs_isAtBottom (react w) = isAtBottom (state w)
  /\ rs_escapedFromLock (react w) = escapedFromLock (state w)
  /\ returned_escapedFromLock w = escapedFromLock (state w)
  /\ returned_isAtBottom w
     = isAtBottom (state w) || rs_isNearBottom (react w)
  /\ flags (exec (scrollToBottom (OptString BSmooth) 3) w)
     = (escapedFromLock (state w), true)
  /\ flags w = (true, false)
  /\ flags w' = (false, true)
  /\ fst (isNearBottom w') = true.
Proof.
  cbv zeta.
  destruct (lock_respected_unless_forced_while_escaped
              ex_options ElementMode
              (ex_page (fun q => q) 950 1500 500) module_init
              [CallScrollToBottom (OptString BSmooth) 0;
               ScrollEvent 1; CallStopScroll; RunTask 0 1 1;
               CallScrollToBottom
                 (OptObject
                    {| so_animation := SrcUndefined;
                       so_wait := WaitBool true;
                       so_ignoreEscapes := None;
                       so_preserveScrollPosition := Some true;
                       so_duration := DurationUndefined |}) 2;
               Environment (user_scrolls 960); ScrollEvent 1]
              (OptString BSmooth) 3 (RunTask 3 3 3))
    as (H1 & H2 & H3 & H4 & H5 & H6 & _ & H8).
  - vm_compute. reflexivity.
  - split; [exact H1|]. split; [exact H2|]. split; [exact H3|].
    split; [exact H4|]. split; [exact H5|]. split; [exact H6|].
    split; [vm_compute; reflexivity|].
    split; [vm_compute; reflexivity|].
    apply H8; vm_compute; reflexivity.
Defined.

(** C2, the counterexample.  Right after mounting at the top of a long
    content, [isAtBottom] is set, in the record and in what the hook
    returns, although the view is not near the bottom and no animation has
    started, let alone reported success.  After [stopScroll()], a plain
    [scrollToBottom()] leaves the record with [isAtBottom] and
    [escapedFromLock] both set, and so does the hook's return value; and
    after [stopScroll()] near the bottom the hook returns [isAtBottom] true
    with [escapedFromLock] true although the record has [isAtBottom]
    false. *)
Lemma isAtBottom_while_escapedFromLock :
  let u := ex_world 0 1500 500 in
  let w := run [CallStopScroll; CallScrollToBottom (OptObject no_options) 0]
               (ex_world 0 1500 500) in
  let v := run [ScrollEvent 1; CallStopScroll] (ex_world 950 1500 500) in
  (isAtBottom (state u) = true
   /\ returned_isAtBottom u = true
   /\ fst (isNearBottom u) = false
   /\ rs_isNearBottom (react u) = false
   /\ promises u = 0%nat
   /\ settled u = ∅)
  /\ isAtBottom (state w) = true
  /\ escapedFromLock (state w) = true
  /\ returned_isAtBottom w = true
  /\ returned_escapedFromLock w = true
  /\ isAtBottom (state v) = false
  /\ returned_isAtBottom v = true
  /\ returned_escapedFromLock v = true.
Proof.
  cbv zeta. split; [repeat split; vm_compute; reflexivity|].
  repeat split; vm_compute; reflexivity.
Qed.

(** ** Wheel events *)

Lemma escape_on_wheel_inert (dy : Q) (w : World) :
  Qlt_bool dy 0 && negb (animation_ignoresEscapes w) = false ->
  escape_on_wheel dy w = (tt, w).
Proof.
  intros H. unfold escape_on_wheel. forward.
  replace (Qlt_bool dy 0
           && Qlt_bool (snd (getScrollDimensions w))
                       (fst (getScrollDimensions w))
           && negb (animation_ignoresEscapes w)) with false; [reflexivity|].
  destruct (Qlt_bool dy 0), (animation_ignoresEscapes w);
    simpl in *; try discriminate; try reflexivity; symmetry;
    apply andb_false_r.
Qed.

Lemma wheel_climb_inert (dy : Q) (elements : list nat) (w : World) :
  Qlt_bool dy 0 && negb (animation_ignoresEscapes w) = false ->
  wheel_climb dy elements w = (tt, w).
Proof.
  intros H. induction elements as [|element parents IH]; [reflexivity|].
  cbn [wheel_climb]. forward.
  destruct (Nat.eqb element (node (body (page w)))
            || Nat.eqb element (node (documentElement (page w))));
    [reflexivity|].
  forward. destruct (is_scrollRef element w).
  - apply escape_on_wheel_inert, H.
  - exact IH.
Qed.

(** X1: a wheel event that does not point upwards, or that arrives while an
    [ignoreEscapes] animation is active, changes nothing at all. *)
Theorem handleWheel_inert :
  forall (event : WheelEvent) (w : World),
    Qlt_bool (deltaY event) 0 && negb (animation_ignoresEscapes w) = false ->
    handleWheel event w = (tt, w).
Proof.
  intros event w H. unfold handleWheel. forward.
  destruct (scrollMode w).
  - apply wheel_climb_inert, H.
  - forward. rewrite H. reflexivity.
Qed.

Lemma handleWheel_inert_witness :
  handleWheel {| deltaY := 5; path := [1%nat] |} ex_animating
  = (tt, ex_animating).
Proof.
  apply (handleWheel_inert {| deltaY := 5; path := [1%nat] |} ex_animating).
  reflexivity.
Defined.




(** ** The scroll timeout, rule by rule *)

(** Scrolling up escapes. *)
Lemma scrollTimeout_up (w : World) (ignored : option Q) (last : Q) :
  truthy (resizeDifference (state w))
  || strict_eq_opt (getScrollTop w) ignored = false ->
  isSelecting w = false ->
  animation_ignoresEscapes w = false ->
  Qlt_bool (getScrollTop w) last = true ->
  scrollTimeout ignored last w = stopScroll w.
Proof.
  intros H Hsel Hign Hup.
  rewrite (scrollTimeout_live w ignored last H), Hsel, Hign.
  assert (Hdown : Qlt_bool last (getScrollTop w) = false).
  { apply Qlt_bool_false_iff. apply Qlt_bool_iff in Hup. lra. }
  rewrite Hup, Hdown. cbn [when]. unfold stopScroll.
  rewrite bind_run. cbn [ret]. rewrite bind_run. forward. reflexivity.
Qed.

(** X3: a notification that is not discarded, with no selection and no
    [ignoreEscapes] animation, whose offset lies above the last one, does
    exactly what [stopScroll] does: it sets [escapedFromLock] and clears
    [isAtBottom]. *)
Theorem scrollTimeout_up_escapes :
  forall (w : World) (ignored : option Q) (last : Q),
    truthy (resizeDifference (state w))
    || strict_eq_opt (getScrollTop w) ignored = false ->
    isSelecting w = false ->
    animation_ignoresEscapes w = false ->
    Qlt_bool (getScrollTop w) last = true ->
    scrollTimeout ignored last w = stopScroll w
    /\ flags (exec (scrollTimeout ignored last) w) = (true, false).
Proof.
  intros w ignored last H Hsel Hign Hup.
  pose proof (scrollTimeout_up w ignored last H Hsel Hign Hup) as Hrun.
  split; [exact Hrun|]. unfold exec. rewrite Hrun. reflexivity.
Qed.

Lemma scrollTimeout_up_escapes_witness :
  scrollTimeout None 100 (ex_world 50 1500 500)
  = stopScroll (ex_world 50 1500 500)
  /\ flags (exec (scrollTimeout None 100) (ex_world 50 1500 500))
     = (true, false).
Proof.
  apply (scrollTimeout_up_escapes (ex_world 50 1500 500) None 100);
    reflexivity.
Defined.

(** X4: a notification that is not discarded, with no selection and no
    [ignoreEscapes] animation, whose offset lies below the last one clears
    [escapedFromLock], and sets [isAtBottom] when the view is within the
    near-bottom threshold; otherwise [isAtBottom] stays as it was.  The
    page is not written. *)
Theorem scrollTimeout_down_resticks :
  forall (w : World) (ignored : option Q) (last : Q),
    truthy (resizeDifference (state w))
    || strict_eq_opt (getScrollTop w) ignored = false ->
    isSelecting w = false ->
    animation_ignoresEscapes w = false ->
    Qlt_bool last (getScrollTop w) = true ->
    let w' := exec (scrollTimeout ignored last) w in
    escapedFromLock (state w') = false
    /\ isAtBottom (state w')
       = fst (isNearBottom w) || isAtBottom (state w)
    /\ page w' = page w.
Proof.
  intros w ignored last H Hsel Hign Hdown w'. subst w'. unfold exec.
  rewrite (scrollTimeout_live w ignored last H), Hsel, Hign.
  assert (Hup : Qlt_bool (getScrollTop w) last = false).
  { apply Qlt_bool_false_iff. apply Qlt_bool_iff in Hdown. lra. }
  rewrite Hup, Hdown. cbn [when].
  rewrite bind_run. cbn [ret snd]. rewrite bind_run.
  rewrite setEscapedFromLock_run. cbn [fst snd].
  rewrite bind_run. cbn [gets fst snd state set_react set_state].
  cbn [escapedFromLock st_escapedFromLock].
  rewrite bind_run, !isNearBottom_run. cbn [fst snd].
  rewrite calc_set_react, calc_set_state. cbn [fst snd].
  rewrite getScrollTop_set_react, getScrollTop_set_state.
  destruct (calc_frame w) as (Hs & Hp & _).
  destruct (js_le (js_sub (fst (calculatedTargetScrollTop w))
                (Num (getScrollTop w)))
         (Num STICK_TO_BOTTOM_OFFSET_PX));
    cbn [when orb]; rewrite ?setIsAtBottom_run; unfold ret;
    cbn [snd state page set_react set_state];
    cbn [escapedFromLock isAtBottom st_isAtBottom st_escapedFromLock];
    rewrite ?Hs, ?Hp; repeat split; reflexivity.
Qed.

Lemma scrollTimeout_down_resticks_witness :
  let w := exec stopScroll (ex_world 950 1500 500) in
  let w' := exec (scrollTimeout None 900) w in
  escapedFromLock (state w') = false
  /\ isAtBottom (state w') = fst (isNearBottom w) || isAtBottom (state w)
  /\ page w' = page w.
Proof.
  apply (scrollTimeout_down_resticks
           (exec stopScroll (ex_world 950 1500 500)) None 900);
    reflexivity.
Defined.

(** X5: once escaped, only a downward scroll releases: a notification whose
    offset does not lie below the last one leaves [escapedFromLock] set and
    never sets [isAtBottom], whichever rule it meets. *)
Theorem scrollTimeout_keeps_escape :
  forall (w : World) (ignored : option Q) (last : Q),
    escapedFromLock (state w) = true ->
    Qlt_bool last (getScrollTop w) = false ->
    let w' := exec (scrollTimeout ignored last) w in
    escapedFromLock (state w') = true
    /\ isAtBottom (state w') && negb (isAtBottom (state w)) = false.
Proof.
  intros w ignored last Hesc Hdown w'. subst w'. unfold exec.
  destruct (truthy (resizeDifference (state w))
            || strict_eq_opt (getScrollTop w) ignored) eqn:H.
  - unfold scrollTimeout. forward. rewrite H. cbn [ret snd].
    split; [exact Hesc|]. destruct (isAtBottom (state w)); reflexivity.
  - rewrite (scrollTimeout_live w ignored last H).
    destruct (isSelecting w); [split; reflexivity|].
    destruct (animation_ignoresEscapes w).
    + pose proof (stable_setScrollTop _ (flags_are_stable (flags w)) last w
                    eq_refl) as Hf.
      unfold flags_are, flags in Hf. injection Hf as -> ->.
      split; [exact Hesc|]. destruct (isAtBottom (state w)); reflexivity.
    + rewrite Hdown. cbn [when].
      destruct (Qlt_bool (getScrollTop w) last); cbn [when].
      * rewrite bind_run. cbn [ret]. rewrite bind_run. forward.
        split; reflexivity.
      * forward. rewrite Hesc. cbn [ret snd].
        split; [exact Hesc|]. destruct (isAtBottom (state w)); reflexivity.
Qed.

Lemma scrollTimeout_keeps_escape_witness :
  let w := exec stopScroll (ex_world 950 1500 500) in
  let w' := exec (scrollTimeout None 950) w in
  escapedFromLock (state w') = true
  /\ isAtBottom (state w') && negb (isAtBottom (state w)) = false.
Proof.
  apply (scrollTimeout_keeps_escape
           (exec stopScroll (ex_world 950 1500 500)) None 950);
    reflexivity.
Defined.

(** ** Scroll notifications and the writes of the program *)






(** ** Calls of [scrollToBottom] *)

(** After a call, the cache holds the returned object under the key of its
    own fields. *)
Lemma mergeAnimations_cached (sources : list AnimationSource)
    (m m' : ModuleScope) (o : FrozenSpring) :
  cache_sound m ->
  mergeAnimations sources m = (Resolved o, m') ->
  animationCache m' !! JSON_stringify (val o) = Some o.
Proof.
  intros [Hkey _] H. unfold mergeAnimations in H.
  destruct (merge_loop sources) as [result instant].
  destruct instant; [discriminate|].
  destruct (bool_decide (is_Some (animationCache m !! JSON_stringify result)))
    eqn:Hin.
  - apply bool_decide_eq_true in Hin. destruct Hin as [o' Ho'].
    rewrite Ho' in H. injection H as <- <-. cbn [animationCache].
    destruct (Hkey _ _ Ho') as [Hk _]. rewrite <- Hk. exact Ho'.
  - rewrite lookup_insert_eq in H. injection H as <- <-.
    cbn [animationCache val]. apply lookup_insert_eq.
Qed.

(** Merging a returned behavior again finds it again. *)
Lemma mergeAnimations_again (sources defaults : list AnimationSource)
    (m : ModuleScope) :
  cache_sound m ->
  fst (mergeAnimations
         (defaults ++ [source_of (fst (mergeAnimations sources m))])
         (snd (mergeAnimations sources m)))
  = fst (mergeAnimations sources m).
Proof.
  intros Hm. destruct (mergeAnimations sources m) as [b m'] eqn:H.
  cbn [fst snd].
  unfold mergeAnimations at 1. unfold merge_loop.
  rewrite fold_left_app. cbn [fold_left].
  destruct (fold_left merge_step defaults (DEFAULT_SPRING_ANIMATION, false))
    as [result instant].
  destruct b as [|o]; [reflexivity|].
  pose proof (mergeAnimations_cached sources m m' o Hm H) as Hc.
  cbn [source_of merge_step nullish sa_damping sa_stiffness sa_mass].
  assert (Hval : {| damping := damping (val o);
                    stiffness := stiffness (val o);
                    mass := mass (val o) |} = val o)
    by (destruct (val o); reflexivity).
  rewrite Hval. cbn [fst].
  rewrite bool_decide_eq_true_2 by (rewrite Hc; eexists; reflexivity).
  rewrite Hc. reflexivity.
Qed.

(** What a call with [wait: true] and [preserveScrollPosition: true] leaves
    alone, and the loop it starts unless the resolved behavior is the one of
    the active animation. *)
Lemma scrollToBottom_waiting (o : ScrollOptions) (now : Q) (w : World) :
  so_preserveScrollPosition o = Some true ->
  so_wait o = WaitBool true ->
  let w' := exec (scrollToBottom (OptObject o) now) w in
  state w' = state w /\ surface w' = surface w /\ react w' = react w
  /\ settled w' = settled w /\ previousHeight w' = previousHeight w
  /\ (frames w' = frames w /\ animation (state w) <> None
      \/ exists l,
           frames w' = frames w ++ [Frame (promises w) l]
           /\ l_waitElapsed l = now + 1
           /\ l_ignoreEscapes l = nullish (so_ignoreEscapes o) false).
Proof.
  intros Hpre Hwait w'. subst w'. unfold exec, scrollToBottom.
  rewrite Hpre, Hwait. cbn [nullish negb when wait_is_not_true wait_ms].
  rewrite bind_run. cbn [ret snd]. rewrite bind_run. cbn [gets fst snd].
  rewrite bind_run, resolveAnimation_run. cbn [fst snd].
  rewrite bind_run, calc_set_modscope. cbn [fst snd].
  rewrite bind_run. cbn [ret fst snd]. rewrite bind_run. cbn [gets fst snd].
  destruct (calc_frame w)
    as (Hs & Hp & _ & _ & Hmode & Hr & Hprom & Hset & Hprev).
  pose proof (calc_frames w) as Hf.
  match goal with
  | |- context [animation_runs ?b ?W] =>
      assert (Hruns : animation_runs b W = animation_runs b w)
        by (unfold animation_runs; cbn [state set_modscope];
            rewrite Hs; reflexivity);
      rewrite Hruns; clear Hruns; destruct (animation_runs b w) eqn:Hruns
  end.
  - forward. unfold surface, frames. forward.
    fold (frames (snd (calculatedTargetScrollTop w))).
    rewrite Hs, Hp, Hmode, Hr, Hset, Hprev, Hf.
    repeat split; try reflexivity. left. split; [reflexivity|].
    unfold animation_runs in Hruns. destruct (animation (state w));
      [discriminate|discriminate].
  - unfold next. forward. unfold surface, frames. forward.
    rewrite frames_snoc_frame.
    fold (frames (snd (calculatedTargetScrollTop w))).
    rewrite Hs, Hp, Hmode, Hr, Hset, Hprev, Hf, Hprom.
    repeat split; try reflexivity. right. eexists. split; [reflexivity|].
    split; reflexivity.
Qed.

(** A call that neither waits nor preserves the scroll position: the flag
    is set, the record is cleared, and one new loop is queued. *)
Lemma scrollToBottom_fresh (o : ScrollOptions) (now : Q) (w : World) :
  so_preserveScrollPosition o = None ->
  wait_is_not_true (so_wait o) = true ->
  let r := scrollToBottom (OptObject o) now w in
  fst r = promises w
  /\ animation (state (snd r)) = None
  /\ flags (snd r) = (escapedFromLock (state w), true)
  /\ surface (snd r) = surface w
  /\ settled (snd r) = settled w
  /\ frames (snd r)
     = frames w
       ++ [Frame (promises w)
             {| l_behavior :=
                  fst (mergeAnimations
                         [SrcObject (opt_spring (optionsRef w));
                          so_animation o]
                         (modscope w));
                l_ignoreEscapes := nullish (so_ignoreEscapes o) false;
                l_waitElapsed := now + wait_ms (so_wait o);
                l_durationElapsed :=
                  match so_duration o with
                  | DurationPromise => None
                  | DurationNumber ms => Some (now + wait_ms (so_wait o) + ms)
                  | DurationUndefined => Some (now + wait_ms (so_wait o) + 0)
                  end;
                l_durationPromise :=
                  match so_duration o with
                  | DurationPromise => true
                  | _ => false
                  end;
                l_startTarget := fst (calculatedTargetScrollTop w) |}].
Proof.
  intros Hpre Hwait r. subst r. unfold scrollToBottom.
  rewrite Hpre, Hwait. cbn [nullish negb when].
  rewrite bind_run, setIsAtBottom_run. cbn [fst snd].
  rewrite bind_run. cbn [gets fst snd optionsRef set_react set_state].
  rewrite bind_run, resolveAnimation_run. cbn [fst snd].
  cbn [modscope set_react set_state].
  rewrite bind_run, calc_set_modscope, calc_set_react, calc_set_state.
  cbn [fst snd].
  rewrite bind_run. cbn [update_state modify fst snd].
  rewrite bind_run. cbn [gets fst snd].
  rewrite animation_runs_set_state. cbn [animation st_animation].
  unfold next. forward.
  destruct (calc_frame w)
    as (Hs & Hp & _ & _ & Hmode & _ & Hprom & Hset & _).
  pose proof (calc_frames w) as Hf.
  unfold flags, surface, frames. forward. rewrite frames_snoc_frame.
  fold (frames (snd (calculatedTargetScrollTop w))).
  rewrite ?Hs, ?Hp, ?Hmode, ?Hprom, ?Hset, ?Hf.
  cbn [animation escapedFromLock isAtBottom st_animation st_isAtBottom].
  rewrite ?Hs.
  repeat split; reflexivity.
Qed.

(** ** The branches of a frame *)

(** The opening of a frame of an engine that is at the bottom: the animation
    record is claimed if there is none, and [lastTick] is refreshed when the
    record is the loop's own. *)
Ltac frame_opening Hb :=
  unfold exec, frame; rewrite bind_run; cbn [gets fst snd];
  rewrite Hb; cbn [negb]; forward;
  match goal with
  | |- context [when ?c ?m ?W] =>
      let Hmine := fresh "Hmine" in destruct c eqn:Hmine
  end;
  cbn [when]; forward.

(** X8: while text is being selected, or before the [wait] has elapsed, a
    frame of an engine that is at the bottom moves nothing: the page, the
    velocity, the accumulated distance and the flags stay as they are, and
    the promise of the frame takes the outcome of exactly one new frame of
    the same loop. *)
Theorem frame_paused :
  forall (p : nat) (l : Loop) (now tick : Q) (w : World),
    isAtBottom (state w) = true ->
    isSelecting w || Qlt_bool now (l_waitElapsed l) = true ->
    let w' := exec (frame p l now tick) w in
    surface w' = surface w
    /\ velocity (state w') = velocity (state w)
    /\ accumulated (state w') = accumulated (state w)
    /\ flags w' = flags w
    /\ settled w' = <[p := Adopted (promises w)]> (settled w)
    /\ pending w' = pending w ++ [Frame (promises w) l].
Proof.
  intros p l now tick w Hb Hp w'. subst w'.
  assert (Hc : forall v,
             (if isSelecting w then continue p l
              else if Qlt_bool now (l_waitElapsed l) then continue p l
                   else v) = continue p l).
  { intros v. destruct (isSelecting w); [reflexivity|].
    cbn [orb] in Hp. rewrite Hp. reflexivity. }
  frame_opening Hb;
    rewrite ?isSelecting_set_state, Hc, continue_run; cbn [snd];
    unfold surface, flags; forward;
    destruct (animation (state w)); repeat split; reflexivity.
Qed.

Lemma frame_paused_witness :
  let w := run [MouseDown; Environment user_selects] ex_animating in
  let w' := exec (frame 1 ex_loop 16 16) w in
  surface w' = surface w
  /\ velocity (state w') = velocity (state w)
  /\ accumulated (state w') = accumulated (state w)
  /\ flags w' = flags w
  /\ settled w' = <[1%nat := Adopted (promises w)]> (settled w)
  /\ pending w' = pending w ++ [Frame (promises w) ex_loop].
Proof.
  apply (frame_paused 1 ex_loop 16 16
           (run [MouseDown; Environment user_selects] ex_animating));
    reflexivity.
Defined.

(** X9: a frame that finds the view not below the calculated target (at or
    past it, or the calculated target is NaN), with no selection, the wait
    elapsed and no duration left, ends the animation:
    the record is cleared, the promise is fulfilled with [true], the page is
    not written, no further frame is queued, and the callback queued in its
    place zeroes the velocity and forgets the last tick. *)
Theorem frame_completes :
  forall (p : nat) (l : Loop) (now tick : Q) (w : World),
    isAtBottom (state w) = true ->
    isSelecting w = false ->
    Qlt_bool now (l_waitElapsed l) = false ->
    js_lt (Num (getScrollTop w)) (fst (calculatedTargetScrollTop w)) = false ->
    duration_pending l now = false ->
    let w' := exec (frame p l now tick) w in
    animation (state w') = None
    /\ settled w' = <[p := Fulfilled true]> (settled w)
    /\ surface w' = surface w
    /\ frames w' = frames w
    /\ (exists earlier, pending w' = earlier ++ [ResetIntegration])
    /\ velocity (state (exec resetIntegration w')) = Num 0
    /\ lastTick (state (exec resetIntegration w')) = None.
Proof.
  intros p l now tick w Hb Hsel Hwait Hat Hdur w'. subst w'.
  destruct (calc_frame w) as (Hs & Hp & _ & _ & Hmode & _ & _ & Hset & _).
  pose proof (calc_frames w) as Hf.
  frame_opening Hb;
    rewrite ?isSelecting_set_state, Hsel, Hwait;
    rewrite bind_run, !calc_set_state; cbn [fst snd];
    rewrite (js_lt_min_false _ _ _ Hat), Hdur; forward;
    rewrite !getScrollTop_set_state, getScrollTop_calc;
    rewrite !calc_set_state, calc_again; cbn [fst snd];
    rewrite Hat; forward;
    rewrite settle_fulfilled_run; cbn [snd];
    unfold exec, resetIntegration; forward;
    cbn [animation st_animation]; forward;
    cbn [animation st_animation velocity st_velocity lastTick st_lastTick
         isAtBottom];
    unfold surface, frames; forward;
    rewrite frames_resets; fold (frames (snd (calculatedTargetScrollTop w)));
    rewrite Hf, Hp, Hmode, Hset;
    (destruct (animation (state w)); cbn [isAtBottom st_animation st_lastTick];
     rewrite Hb; repeat split; try reflexivity; apply resets_end).
Qed.

Lemma frame_completes_witness :
  let w := exec (scrollToBottom (OptObject no_options) 0)
             (ex_world 999 1500 500) in
  let w' := exec (frame 0 ex_loop 16 16) w in
  animation (state w') = None
  /\ settled w' = <[0%nat := Fulfilled true]> (settled w)
  /\ surface w' = surface w
  /\ frames w' = frames w
  /\ (exists earlier, pending w' = earlier ++ [ResetIntegration])
  /\ velocity (state (exec resetIntegration w')) = Num 0
  /\ lastTick (state (exec resetIntegration w')) = None.
Proof.
  apply (frame_completes 0 ex_loop 16 16
           (exec (scrollToBottom (OptObject no_options) 0)
              (ex_world 999 1500 500)));
    reflexivity.
Defined.

(** X10: a frame that finds the view not below the smaller of the start
    target and the calculated target (at or past it, or it is NaN), while
    the duration has not elapsed,
    holds the animation: nothing moves, and the next frame of the loop
    starts from the target calculated now. *)
Theorem frame_holds_for_duration :
  forall (p : nat) (l : Loop) (now tick : Q) (w : World),
    isAtBottom (state w) = true ->
    isSelecting w = false ->
    Qlt_bool now (l_waitElapsed l) = false ->
    js_lt (Num (getScrollTop w))
      (js_min (l_startTarget l) (fst (calculatedTargetScrollTop w)))
    = false ->
    duration_pending l now = true ->
    let w' := exec (frame p l now tick) w in
    surface w' = surface w
    /\ velocity (state w') = velocity (state w)
    /\ accumulated (state w') = accumulated (state w)
    /\ animation (state w') <> None
    /\ settled w' = <[p := Adopted (promises w)]> (settled w)
    /\ frames w'
       = frames w
         ++ [Frame (promises w)
               (with_startTarget (fst (calculatedTargetScrollTop w)) l)].
Proof.
  intros p l now tick w Hb Hsel Hwait Hat Hdur w'. subst w'.
  destruct (calc_frame w)
    as (Hs & Hp & _ & _ & Hmode & _ & Hprom & Hset & _).
  pose proof (calc_frames w) as Hf.
  frame_opening Hb;
    rewrite ?isSelecting_set_state, Hsel, Hwait;
    rewrite bind_run, !calc_set_state; cbn [fst snd];
    rewrite Hat, Hdur;
    rewrite bind_run, !calc_set_state, calc_again; cbn [fst snd];
    rewrite continue_run; cbn [snd];
    unfold surface, frames; forward;
    rewrite frames_snoc_frame; fold (frames (snd (calculatedTargetScrollTop w)));
    rewrite Hf, Hp, Hmode, Hset, Hprom;
    (destruct (animation (state w)) eqn:Ha;
     cbn [animation st_animation st_lastTick]; rewrite ?Ha;
     repeat split; try reflexivity; discriminate).
Qed.

Lemma frame_holds_for_duration_witness :
  let l := with_durationElapsed 350 ex_loop in
  let w := exec (scrollToBottom (OptObject no_options) 0)
             (ex_world 999 1500 500) in
  let w' := exec (frame 0 l 16 16) w in
  surface w' = surface w
  /\ velocity (state w') = velocity (state w)
  /\ accumulated (state w') = accumulated (state w)
  /\ animation (state w') <> None
  /\ settled w' = <[0%nat := Adopted (promises w)]> (settled w)
  /\ frames w'
     = frames w
       ++ [Frame (promises w)
             (with_startTarget (fst (calculatedTargetScrollTop w)) l)].
Proof.
  apply (frame_holds_for_duration 0 (with_durationElapsed 350 ex_loop) 16 16
           (exec (scrollToBottom (OptObject no_options) 0)
              (ex_world 999 1500 500)));
    reflexivity.
Defined.

(** X11: a loop whose behavior is not the behavior of the active animation
    is a bystander while the view is below the target: its frame leaves the
    state record and the page exactly as they are and waits for the next
    frame. *)
Theorem frame_of_superseded_loop :
  forall (p : nat) (l : Loop) (now tick : Q) (w : World)
         (a : AnimationRecord),
    isAtBottom (state w) = true ->
    animation (state w) = Some a ->
    behavior_same (behavior a) (l_behavior l) = false ->
    js_lt (Num (getScrollTop w))
      (js_min (l_startTarget l) (fst (calculatedTargetScrollTop w)))
    = true ->
    let w' := exec (frame p l now tick) w in
    state w' = state w
    /\ surface w' = surface w
    /\ settled w' = <[p := Adopted (promises w)]> (settled w)
    /\ frames w' = frames w ++ [Frame (promises w) l].
Proof.
  intros p l now tick w a Hb Ha Hother Hbelow w'. subst w'.
  destruct (calc_frame w)
    as (Hs & Hp & _ & _ & Hmode & _ & Hprom & Hset & _).
  pose proof (calc_frames w) as Hf.
  assert (Hstay : set_state (state w) w = w) by (destruct w; reflexivity).
  assert (Hruns : animation_runs (l_behavior l) w = false).
  { unfold animation_runs. rewrite Ha. exact Hother. }
  unfold exec, frame. rewrite bind_run. cbn [gets fst snd].
  rewrite Hb. cbn [negb]. forward. rewrite Ha, Hstay, Hruns. cbn [when].
  forward.
  assert (Hruns' :
            animation_runs (l_behavior l)
              (snd (calculatedTargetScrollTop w)) = false).
  { unfold animation_runs. rewrite Hs, Ha. exact Hother. }
  destruct (isSelecting w); [|destruct (Qlt_bool now (l_waitElapsed l))].
  1, 2: rewrite continue_run; cbn [snd]; unfold surface, frames; forward;
    rewrite frames_snoc_frame; repeat split; reflexivity.
  rewrite bind_run. rewrite Hbelow. rewrite bind_run. cbn [gets fst snd].
  rewrite Hruns', continue_run. cbn [snd]. unfold surface, frames. forward.
  rewrite frames_snoc_frame. fold (frames (snd (calculatedTargetScrollTop w))).
  rewrite Hf, Hs, Hp, Hmode, Hset, Hprom. repeat split; reflexivity.
Qed.

Lemma frame_of_superseded_loop_witness :
  let l := {| l_behavior := Instant; l_ignoreEscapes := false;
              l_waitElapsed := 0; l_durationElapsed := Some 0;
              l_durationPromise := false; l_startTarget := Num 999 |} in
  let w := ex_animating in
  let w' := exec (frame 7 l 16 16) w in
  state w' = state w
  /\ surface w' = surface w
  /\ settled w' = <[7%nat := Adopted (promises w)]> (settled w)
  /\ frames w' = frames w ++ [Frame (promises w) l].
Proof.
  apply (frame_of_superseded_loop 7
           {| l_behavior := Instant; l_ignoreEscapes := false;
              l_waitElapsed := 0; l_durationElapsed := Some 0;
              l_durationPromise := false; l_startTarget := Num 999 |}
           16 16 ex_animating
           {| behavior := Resolved {| ref := 0; val := DEFAULT_SPRING_ANIMATION |};
              ignoreEscapes := false; promise := 0 |});
    reflexivity.
Defined.

(** X12: in element mode, a frame of an [instant] loop that owns the
    animation and finds the view below the target puts the view on the
    calculated target, up to the rounding of the browser, and waits for the
    next frame. *)
Theorem instant_frame_lands_on_target :
  forall (p : nat) (l : Loop) (now tick : Q) (w : World) (e : HTMLElement),
    scrollMode w = ElementMode ->
    scrollRef_current (page w) = Some e ->
    lastCalculation_clamped w ->
    isAtBottom (state w) = true ->
    isSelecting w = false ->
    Qlt_bool now (l_waitElapsed l) = false ->
    l_behavior l = Instant ->
    match animation (state w) with
    | Some a => behavior_same (behavior a) Instant
    | None => true
    end = true ->
    js_lt (Num (getScrollTop w))
      (js_min (l_startTarget l) (fst (calculatedTargetScrollTop w)))
    = true ->
    let w' := exec (frame p l now tick) w in
    (exists target,
       fst (calculatedTargetScrollTop w) = Num target
       /\ getScrollTop w' = snap (page w) target)
    /\ flags w' = flags w
    /\ settled w' = <[p := Adopted (promises w)]> (settled w)
    /\ frames w' = frames w ++ [Frame (promises w) l].
Proof.
  intros p l now tick w e Hmode He Hclamp Hb Hsel Hwait Hl Hown Hbelow w'.
  subst w'.
  destruct (js_lt_true _ _ Hbelow) as (x & m & _ & Hm & _).
  destruct (js_min_number _ _ _ Hm) as (a & target & _ & Htarget & _).
  clear x m a Hm.
  destruct (calculatedTargetScrollTop_spec w Hclamp) as (Hin & _).
  rewrite Htarget in Hin. destruct Hin as [H0 Hle].
  destruct (calc_frame w)
    as (Hs & Hp & _ & _ & Hmode' & _ & Hprom & Hset & _).
  pose proof (calc_frames w) as Hf.
  frame_opening Hb.
  2: { exfalso. rewrite animation_runs_set_state, Hl in Hmine.
       destruct (animation (state w)) as [a|] eqn:Ha;
         cbn [animation st_animation behavior behavior_same] in Hmine;
         rewrite ?Ha in Hmine; congruence. }
  rewrite ?isSelecting_set_state, Hsel, Hwait.
  rewrite bind_run, !calc_set_state. cbn [fst snd]. rewrite Hbelow.
  rewrite bind_run. cbn [gets fst snd].
  rewrite animation_runs_set_state.
  rewrite animation_runs_set_state in Hmine.
  cbn [animation st_lastTick]. rewrite Hmine, Hl.
  rewrite bind_run, !calc_set_state, calc_again. cbn [fst snd].
  rewrite bind_run. cbn [fst snd].
  rewrite Htarget. cbn [finite_or_zero].
  match goal with
  | |- context [setScrollTop _ ?W0] => set (W := W0)
  end.
  assert (HW : surface W = surface w).
  { subst W. rewrite !surface_set_state. apply surface_calc. }
  assert (HWf : flags W = flags w
                /\ pending W = pending (snd (calculatedTargetScrollTop w))
                /\ promises W = promises w /\ settled W = settled w).
  { subst W. unfold flags. forward. rewrite Hprom, Hset.
    destruct (animation (state w)); repeat split; reflexivity. }
  destruct HWf as (HWflags & HWpend & HWprom & HWset).
  destruct (setScrollTop_frame target W)
    as (Xpend & Xprom & Xset & Xflags).
  rewrite continue_run. cbn [snd]. unfold frames, flags. forward.
  rewrite Xpend, Xprom, Xset, HWpend, HWprom, HWset, frames_snoc_frame.
  fold (frames (snd (calculatedTargetScrollTop w))). rewrite Hf.
  split; [|split; [exact (eq_trans Xflags HWflags)|split; reflexivity]].
  exists target. split; [reflexivity|].
  match goal with
  | |- getScrollTop ?V = _ =>
      change (getScrollTop V)
        with (getScrollTop (snd (setScrollTop target W)))
  end.
  rewrite (getScrollTop_of_surface _ _
             (surface_setScrollTop target W w HW)).
  exact (setScrollTop_lands _ w e Hmode He H0 Hle).
Qed.

Lemma instant_frame_lands_on_target_witness :
  let l := {| l_behavior := Instant; l_ignoreEscapes := false;
              l_waitElapsed := 0; l_durationElapsed := Some 0;
              l_durationPromise := false; l_startTarget := Num 999 |} in
  let w := ex_world 120 1500 500 in
  let w' := exec (frame 0 l 16 16) w in
  (exists target,
     fst (calculatedTargetScrollTop w) = Num target
     /\ getScrollTop w' = snap (page w) target)
  /\ flags w' = flags w
  /\ settled w' = <[0%nat := Adopted (promises w)]> (settled w)
  /\ frames w' = frames w ++ [Frame (promises w) l].
Proof.
  apply (instant_frame_lands_on_target 0
           {| l_behavior := Instant; l_ignoreEscapes := false;
              l_waitElapsed := 0; l_durationElapsed := Some 0;
              l_durationPromise := false; l_startTarget := Num 999 |}
           16 16 (ex_world 120 1500 500) (ex_element 120 1500 500));
    reflexivity.
Defined.

(** X13: a frame that finds the loop done (not below the smaller of the
    start target and the calculated target, no duration left) but the view
    still below the calculated target hands over to a new call: the record
    is cleared, [isAtBottom] is set, the page is not written, and exactly
    one loop is queued, with the behavior of the [resize] option, the
    [ignoreEscapes] of the old loop and the target calculated now as its
    start; the promise of the frame takes the outcome of the new loop. *)
Theorem frame_requeues_below_target :
  forall (p : nat) (l : Loop) (now tick : Q) (w : World),
    cache_sound (modscope w) ->
    isAtBottom (state w) = true ->
    isSelecting w = false ->
    Qlt_bool now (l_waitElapsed l) = false ->
    js_lt (Num (getScrollTop w))
      (js_min (l_startTarget l) (fst (calculatedTargetScrollTop w)))
    = false ->
    duration_pending l now = false ->
    js_lt (Num (getScrollTop w)) (fst (calculatedTargetScrollTop w)) = true ->
    let w' := exec (frame p l now tick) w in
    animation (state w') = None
    /\ flags w' = flags w
    /\ surface w' = surface w
    /\ settled w' = <[p := Adopted (promises w)]> (settled w)
    /\ exists l',
         frames w' = frames w ++ [Frame (promises w) l']
         /\ l_behavior l'
            = fst (mergeAnimations
                     [SrcObject (opt_spring (optionsRef w));
                      opt_resize (optionsRef w)]
                     (modscope w))
         /\ l_ignoreEscapes l' = l_ignoreEscapes l
         /\ l_startTarget l' = fst (calculatedTargetScrollTop w).
Proof.
  intros p l now tick w Hcache Hb Hsel Hwait Hat Hdur Hbelow w'. subst w'.
  destruct (calc_frame w)
    as (Hs & Hp & Hm & Ho & Hmode & _ & Hprom & Hset & _).
  pose proof (calc_frames w) as Hf.
  pose proof (mergeAnimations_again
                [SrcObject (opt_spring (optionsRef w));
                 opt_resize (optionsRef w)]
                [SrcObject (opt_spring (optionsRef w))]
                (modscope w) Hcache) as Hagain.
  cbn [app] in Hagain.
  frame_opening Hb;
    rewrite ?isSelecting_set_state, Hsel, Hwait;
    rewrite bind_run, !calc_set_state; cbn [fst snd];
    rewrite Hat, Hdur; forward;
    rewrite !getScrollTop_set_state, getScrollTop_calc;
    rewrite !calc_set_state, calc_again; cbn [fst snd];
    rewrite Hbelow; forward;
    rewrite resolveAnimation_run; cbn [fst snd]; forward;
    rewrite Ho, Hm;
    match goal with
    | |- context [scrollToBottom (OptObject ?o) now ?W] =>
        destruct (scrollToBottom_fresh o now W eq_refl eq_refl)
          as (Sr & Sa & Sf & Ssurf & Sset & Sframes);
        set (S := scrollToBottom (OptObject o) now W) in *
    end;
    clearbody S;
    cbn [so_animation so_ignoreEscapes so_wait so_duration nullish wait_ms
         promises settled optionsRef modscope set_modscope set_state]
      in Sr, Sset, Sframes;
    rewrite calc_set_modscope, !calc_set_state, calc_again in Sframes;
    cbn [fst] in Sframes;
    unfold frames in Sframes at 2;
    cbn [pending set_modscope set_state] in Sframes;
    fold (frames (snd (calculatedTargetScrollTop w))) in Sframes;
    cbn [state set_modscope set_state] in Sf;
    unfold surface in Ssurf at 2;
    cbn [page scrollMode set_modscope set_state] in Ssurf;
    rewrite Hp, Hmode in Ssurf; fold (surface w) in Ssurf;
    rewrite Ho, Hprom, Hf, Hagain in Sframes; rewrite Hprom in Sr;
    rewrite Hset in Sset;
    unfold settle; forward; unfold flags;
    cbn [state set_settled];
    fold (flags (snd S));
    change (frames (set_settled (<[p:=Adopted (fst S)]> (settled (snd S)))
                      (snd S)))
      with (frames (snd S));
    change (surface (set_settled (<[p:=Adopted (fst S)]> (settled (snd S)))
                       (snd S)))
      with (surface (snd S));
    rewrite Sr, Sa, Sf, Ssurf, Sset, Sframes;
    (split; [reflexivity|]);
    (split;
     [ destruct (animation (state w));
       cbn [escapedFromLock isAtBottom st_animation st_lastTick state];
       rewrite ?Hs;
       cbn [escapedFromLock isAtBottom st_animation st_lastTick];
       rewrite Hb; reflexivity |]);
    (split; [reflexivity|]); (split; [reflexivity|]);
    eexists; (split; [reflexivity|]); repeat split; reflexivity.
Qed.

Lemma frame_requeues_below_target_witness :
  let w := ex_world 999 2000 500 in
  let w' := exec (frame 0 ex_loop 16 16) w in
  animation (state w') = None
  /\ flags w' = flags w
  /\ surface w' = surface w
  /\ settled w' = <[0%nat := Adopted (promises w)]> (settled w)
  /\ exists l',
       frames w' = frames w ++ [Frame (promises w) l']
       /\ l_behavior l'
          = fst (mergeAnimations
                   [SrcObject (opt_spring (optionsRef w));
                    opt_resize (optionsRef w)]
                   (modscope w))
       /\ l_ignoreEscapes l' = l_ignoreEscapes ex_loop
       /\ l_startTarget l' = fst (calculatedTargetScrollTop w).
Proof.
  apply (frame_requeues_below_target 0 ex_loop 16 16 (ex_world 999 2000 500));
    [apply cache_sound_init|reflexivity..].
Defined.

(** X14: a [duration] given as a promise never holds an animation.  The
    loop a call starts has no [durationElapsed] until the promise settles,
    so the comparison with the clock fails; and when the promise settles,
    [durationElapsed] becomes the time of settling, which no later clock
    reading is below. *)
Theorem promise_duration_never_holds :
  forall (o : ScrollOptions) (now : Q) (w : World),
    so_duration o = DurationPromise ->
    wait_is_not_true (so_wait o) = true ->
    let w1 := exec (scrollToBottom (OptObject o) now) w in
    exists earlier l,
      pending w1 = earlier ++ [Frame (promises w) l]
      /\ l_durationPromise l = true
      /\ (forall later, duration_pending l later = false)
      /\ forall settled_at later,
           settled_at <= later ->
           exists l',
             pending (exec (durationSettled (length earlier) settled_at) w1)
             = earlier ++ [Frame (promises w) l']
             /\ duration_pending l' later = false.
Proof.
  intros o now w Hdur Hwait w1. subst w1. unfold exec, scrollToBottom.
  rewrite Hdur, Hwait. cbn [when].
  rewrite bind_run.
  set (w0 := snd (when (negb (nullish (so_preserveScrollPosition o) false))
                    (setIsAtBottom true) w)).
  assert (H0 : promises w0 = promises w).
  { subst w0. destruct (negb _); reflexivity. }
  clearbody w0.
  rewrite bind_run. cbn [gets fst snd].
  rewrite bind_run, resolveAnimation_run. cbn [fst snd].
  rewrite bind_run, calc_set_modscope. cbn [fst snd].
  rewrite bind_run. cbn [update_state modify fst snd].
  rewrite bind_run. cbn [gets fst snd].
  rewrite animation_runs_set_state. cbn [animation st_animation].
  unfold next. forward.
  destruct (calc_frame w0) as (_ & _ & _ & _ & _ & _ & Hprom & _).
  rewrite Hprom, H0.
  match goal with
  | |- exists _ _, ?P ++ [Frame _ ?l] = _ /\ _ => exists P, l
  end.
  split; [reflexivity|]. split; [reflexivity|].
  split; [intros later; reflexivity|].
  intros settled_at later Hle. unfold exec, durationSettled. forward.
  rewrite list_lookup_middle by reflexivity.
  cbn [l_durationPromise when]. forward.
  eexists. split.
  - rewrite insert_app_r_alt by reflexivity. rewrite Nat.sub_diag.
    reflexivity.
  - unfold duration_pending. cbn [with_durationElapsed l_durationElapsed].
    apply Qlt_bool_false_iff. exact Hle.
Qed.

Lemma promise_duration_never_holds_witness :
  let o := {| so_animation := SrcUndefined; so_wait := WaitUndefined;
              so_ignoreEscapes := None; so_preserveScrollPosition := None;
              so_duration := DurationPromise |} in
  let w := ex_world 0 1500 500 in
  let w1 := exec (scrollToBottom (OptObject o) 0) w in
  exists earlier l,
    pending w1 = earlier ++ [Frame (promises w) l]
    /\ l_durationPromise l = true
    /\ (forall later, duration_pending l later = false)
    /\ forall settled_at later,
         settled_at <= later ->
         exists l',
           pending (exec (durationSettled (length earlier) settled_at) w1)
           = earlier ++ [Frame (promises w) l']
           /\ duration_pending l' later = false.
Proof.
  apply (promise_duration_never_holds
           {| so_animation := SrcUndefined; so_wait := WaitUndefined;
              so_ignoreEscapes := None; so_preserveScrollPosition := None;
              so_duration := DurationPromise |}
           0 (ex_world 0 1500 500));
    reflexivity.
Defined.

(** ** The resize observer *)

(** The part of the resize callback that all resizes share: the difference
    is recorded, an overshoot is corrected, and [isNearBottom] is
    published. *)
Lemma resize_opening (difference : Q) (w : World) :
  let w1 := set_state (st_resizeDifference difference (state w)) w in
  let w2 := snd (when (Qlt_bool (targetScrollTop w1) (getScrollTop w1))
                   (setScrollTop (targetScrollTop w1)) w1) in
  let w3 := snd (isNearBottom w2) in
  (exists i,
     state w3 = st_ignoreScrollToTop i (st_resizeDifference difference (state w)))
  /\ frames w3 = frames w /\ react w3 = react w
  /\ previousHeight w3 = previousHeight w /\ modscope w3 = modscope w
  /\ optionsRef w3 = optionsRef w /\ settled w3 = settled w
  /\ promises w3 = promises w.
Proof.
  intros w1 w2 w3.
  assert (H2 : (exists i, state w2 = st_ignoreScrollToTop i (state w1))
               /\ pending w2 = pending w1 /\ react w2 = react w1
               /\ previousHeight w2 = previousHeight w1
               /\ modscope w2 = modscope w1 /\ optionsRef w2 = optionsRef w1
               /\ settled w2 = settled w1 /\ promises w2 = promises w1).
  { subst w2. destruct (Qlt_bool (targetScrollTop w1) (getScrollTop w1));
      cbn [when].
    - destruct (setScrollTop_keeps (targetScrollTop w1) w1)
        as (Hs & Hp & Hr & Hh & Hm & Ho).
      destruct (setScrollTop_frame (targetScrollTop w1) w1)
        as (_ & Hprom & Hset & _).
      repeat split; assumption.
    - cbn [ret snd]. repeat split; try reflexivity.
      exists (ignoreScrollToTop (state w1)). destruct (state w1); reflexivity. }
  destruct H2 as ((i & Hs) & Hp & Hr & Hh & Hm & Ho & Hset & Hprom).
  subst w3. rewrite isNearBottom_run. cbn [snd].
  destruct (calc_frame w2)
    as (Cs & _ & Cm & Co & _ & Cr & Cprom & Cset & Cprev).
  rewrite Cs, Cm, Co, Cr, Cprom, Cset, Cprev, calc_frames.
  rewrite Hs, Hr, Hh, Hm, Ho, Hset, Hprom. unfold frames. rewrite Hp.
  repeat split; try reflexivity. exists i. reflexivity.
Qed.

(** X15: a resize that makes the content smaller starts no loop and leaves
    the animation record alone; it records the difference and the new
    height, queues the reset of the difference, and, exactly when the view
    is then near the bottom (the value it publishes as [isNearBottom]),
    releases the escape and sets [isAtBottom]; otherwise both flags stay as
    they were. *)
Theorem resize_shrink :
  forall (height now prev : Q) (w : World),
    contentRef_current (page w) <> None ->
    previousHeight w = Some prev ->
    Qle_bool 0 (height - prev) = false ->
    let w' := exec (resizeObserved height now) w in
    resizeDifference (state w') = height - prev
    /\ previousHeight w' = Some height
    /\ frames w' = frames w
    /\ animation (state w') = animation (state w)
    /\ flags w' = (if rs_isNearBottom (react w') then (false, true)
                   else flags w)
    /\ exists earlier, pending w' = earlier ++ [ResizeResetFrame (height - prev)].
Proof.
  intros height now prev w Hc Hprev Hneg w'. subst w'.
  unfold exec, resizeObserved. rewrite bind_run. cbn [gets fst snd].
  destruct (contentRef_current (page w)) as [c|]; [clear Hc|congruence].
  rewrite bind_run. cbn [gets fst snd]. rewrite Hprev. cbn [nullish].
  rewrite Hneg.
  rewrite bind_run. cbn [update_state modify fst snd].
  rewrite bind_run. cbn [gets fst snd].
  rewrite bind_run. cbn [gets fst snd].
  rewrite bind_run.
  pose proof (resize_opening (height - prev) w) as Hopen.
  cbv zeta in Hopen. rewrite isNearBottom_run in Hopen. cbn [snd] in Hopen.
  match type of Hopen with
  | context [calculatedTargetScrollTop ?W] => set (W2 := W) in *
  end.
  destruct Hopen as ((i & Hs) & Hf & Hr & _). clearbody W2.
  rewrite bind_run, isNearBottom_run. cbn [fst snd].
  rewrite bind_run, setIsNearBottom_run. cbn [fst snd].
  rewrite bind_run, (bind_run isNearBottom), isNearBottom_run,
    calc_set_react, calc_again.
  cbn [fst snd]. rewrite getScrollTop_set_react, getScrollTop_calc.
  set (near := js_le (js_sub (fst (calculatedTargetScrollTop W2))
                (Num (getScrollTop W2)))
         (Num STICK_TO_BOTTOM_OFFSET_PX)).
  destruct near; cbn [when]; forward;
    rewrite ?setEscapedFromLock_run; cbn [snd];
    rewrite ?setIsAtBottom_run; cbn [snd];
    unfold frames, flags; forward;
    rewrite List.filter_app; cbn [List.filter is_Frame];
    rewrite app_nil_r; fold (frames (snd (calculatedTargetScrollTop W2)));
    rewrite Hf, ?Hs; cbn [rs_isNearBottom];
    cbn [resizeDifference animation escapedFromLock isAtBottom
         st_isAtBottom st_escapedFromLock st_ignoreScrollToTop
         st_resizeDifference];
    repeat split; try reflexivity; eexists; reflexivity.
Qed.

Lemma resize_shrink_witness :
  let w := exec (resizeObserved 1000 0) (ex_world 0 1500 500) in
  let w' := exec (resizeObserved 900 20) w in
  resizeDifference (state w') = 900 - 1000
  /\ previousHeight w' = Some 900
  /\ frames w' = frames w
  /\ animation (state w') = animation (state w)
  /\ flags w' = (if rs_isNearBottom (react w') then (false, true)
                 else flags w)
  /\ exists earlier, pending w' = earlier ++ [ResizeResetFrame (900 - 1000)].
Proof.
  apply (resize_shrink 900 20 1000
           (exec (resizeObserved 1000 0) (ex_world 0 1500 500)));
    [discriminate|reflexivity|reflexivity].
Defined.

(** X16: a resize that does not make the content smaller never changes a
    flag and never replaces the animation record; it records the difference
    and the new height, queues the reset of the difference, and starts at
    most one loop, which waits one millisecond and does not ignore escapes;
    it starts none only when an animation is already active. *)
Theorem resize_growth :
  forall (height now : Q) (w : World),
    contentRef_current (page w) <> None ->
    Qle_bool 0 (height - nullish (previousHeight w) height) = true ->
    let difference := height - nullish (previousHeight w) height in
    let w' := exec (resizeObserved height now) w in
    resizeDifference (state w') = difference
    /\ previousHeight w' = Some height
    /\ flags w' = flags w
    /\ animation (state w') = animation (state w)
    /\ (frames w' = frames w /\ animation (state w) <> None
        \/ exists l,
             frames w' = frames w ++ [Frame (promises w) l]
             /\ l_waitElapsed l = now + 1
             /\ l_ignoreEscapes l = false)
    /\ exists earlier, pending w' = earlier ++ [ResizeResetFrame difference].
Proof.
  intros height now w Hc Hpos difference w'. subst w' difference.
  unfold exec, resizeObserved. rewrite bind_run. cbn [gets fst snd].
  destruct (contentRef_current (page w)) as [c|]; [clear Hc|congruence].
  rewrite bind_run. cbn [gets fst snd]. rewrite Hpos.
  set (difference := height - nullish (previousHeight w) height).
  rewrite bind_run. cbn [update_state modify fst snd].
  rewrite bind_run. cbn [gets fst snd].
  rewrite bind_run. cbn [gets fst snd].
  rewrite bind_run.
  pose proof (resize_opening difference w) as Hopen.
  cbv zeta in Hopen. rewrite isNearBottom_run in Hopen. cbn [snd] in Hopen.
  match type of Hopen with
  | context [calculatedTargetScrollTop ?W] => set (W2 := W) in *
  end.
  destruct Hopen as ((i & Hs) & Hf & Hr & Hh & Hm & Ho & Hset & Hprom).
  clearbody W2.
  rewrite bind_run, isNearBottom_run. cbn [fst snd].
  rewrite bind_run, setIsNearBottom_run. cbn [fst snd].
  rewrite bind_run.
  rewrite (bind_run (gets optionsRef)). cbn [gets fst snd].
  rewrite (bind_run (resolveAnimation _)), resolveAnimation_run.
  cbn [fst snd]. rewrite (bind_run (scrollToBottom _ _)). cbn [ret fst snd].
  match goal with
  | |- context [scrollToBottom (OptObject ?o) now ?W] =>
      destruct (scrollToBottom_waiting o now W eq_refl eq_refl)
        as (Ss & _ & Sr & Sset & Sprev & Sframes);
      unfold exec in Ss, Sr, Sset, Sprev, Sframes;
      set (S := snd (scrollToBottom (OptObject o) now W)) in *
  end.
  clearbody S. cbn [state react settled previousHeight set_modscope set_react
                    frames pending promises] in Ss, Sr, Sset, Sprev, Sframes.
  unfold frames in Sframes.
  cbn [pending promises animation state set_modscope set_react] in Sframes.
  fold (frames (snd (calculatedTargetScrollTop W2))) in Sframes.
  fold (frames S) in Sframes.
  rewrite Hf, Hprom, Hs in Sframes.
  cbn [animation st_ignoreScrollToTop st_resizeDifference] in Sframes.
  forward. unfold frames, flags. forward.
  rewrite List.filter_app. cbn [List.filter is_Frame]. rewrite app_nil_r.
  fold (frames S). rewrite Ss, Hs.
  cbn [resizeDifference animation escapedFromLock isAtBottom
       st_ignoreScrollToTop st_resizeDifference].
  repeat split; try reflexivity; [exact Sframes|eexists; reflexivity].
Qed.

Lemma resize_growth_witness :
  let w := ex_animating in
  let difference := 1200 - nullish (previousHeight w) 1200 in
  let w' := exec (resizeObserved 1200 20) w in
  resizeDifference (state w') = difference
  /\ previousHeight w' = Some 1200
  /\ flags w' = flags w
  /\ animation (state w') = animation (state w)
  /\ (frames w' = frames w /\ animation (state w) <> None
      \/ exists l,
           frames w' = frames w ++ [Frame (promises w) l]
           /\ l_waitElapsed l = 20 + 1
           /\ l_ignoreEscapes l = false)
  /\ exists earlier, pending w' = earlier ++ [ResizeResetFrame difference].
Proof.
  apply (resize_growth 1200 20 ex_animating); [discriminate|reflexivity].
Defined.

(** ** The cache of parameter objects *)

(** X17: a behavior returned by [mergeAnimations] and passed back as the
    last source of a later call comes back as the very same value, whatever
    the sources before it: [instant] stays [instant], and a parameter object
    is found again in the cache. *)
Theorem mergeAnimations_round_trip :
  forall (sources defaults : list AnimationSource) (m m' : ModuleScope)
         (b : Behavior),
    cache_sound m ->
    mergeAnimations sources m = (b, m') ->
    fst (mergeAnimations (defaults ++ [source_of b]) m') = b.
Proof.
  intros sources defaults m m' b Hm H.
  pose proof (mergeAnimations_again sources defaults m Hm) as Hagain.
  rewrite H in Hagain. exact Hagain.
Qed.

Lemma mergeAnimations_round_trip_witness :
  fst (mergeAnimations
         ([SrcObject ex_double_mass]
          ++ [source_of
                (fst (mergeAnimations [SrcObject ex_half_damping]
                        module_init))])
         (snd (mergeAnimations [SrcObject ex_half_damping] module_init)))
  = fst (mergeAnimations [SrcObject ex_half_damping] module_init).
Proof.
  apply (mergeAnimations_round_trip [SrcObject ex_half_damping]
           [SrcObject ex_double_mass] module_init);
    [apply cache_sound_init|reflexivity].
Defined.

(** ** React's cells follow the state record *)

Lemma mirrored_stable : stable mirrored.
Proof.
  split; try (intros; assumption).
  intros g w Hg [He Hb]. destruct (Hg (state w)) as [Hge Hgb].
  split; simpl; congruence.
Qed.

Lemma mirrored_setIsAtBottom (b : bool) : preserves mirrored (setIsAtBottom b).
Proof. intros w [He Hb]. split; [exact He|reflexivity]. Qed.

Lemma mirrored_setEscapedFromLock (b : bool) :
  preserves mirrored (setEscapedFromLock b).
Proof. intros w [He Hb]. split; [reflexivity|exact Hb]. Qed.

Ltac mirrored_known :=
  first
    [ apply mirrored_setIsAtBottom
    | apply mirrored_setEscapedFromLock
    | apply stable_update_state; [apply mirrored_stable|keeps_flags_tac]
    | apply stable_scrollToBottom;
      [apply mirrored_stable|apply mirrored_setIsAtBottom]
    | apply stable_frame;
      [apply mirrored_stable|apply mirrored_setIsAtBottom]
    | apply stable_handleScroll; apply mirrored_stable
    | apply stable_resetIntegration; apply mirrored_stable
    | apply stable_resizeReset; apply mirrored_stable
    | apply stable_attachContent; apply mirrored_stable
    | apply stable_set_mouseDown; apply mirrored_stable
    | apply stable_durationSettled; apply mirrored_stable
    | apply stable_isNearBottom; apply mirrored_stable
    | apply stable_setIsNearBottom; apply mirrored_stable
    | apply stable_setScrollTop; apply mirrored_stable
    | apply stable_resolveAnimation; apply mirrored_stable
    | apply stable_schedule; apply mirrored_stable
    | apply stable_settle; apply mirrored_stable
    | assumption ].

Ltac mirrored_leaf :=
  let w := fresh "w" in
  let H := fresh "H" in
  intros w H; exact H.

Lemma mirrored_stopScroll : preserves mirrored stopScroll.
Proof. unfold stopScroll. preserves_with mirrored_known mirrored_leaf. Qed.

Lemma mirrored_scrollTimeout (ignored : option Q) (last : Q) :
  preserves mirrored (scrollTimeout ignored last).
Proof. unfold scrollTimeout. preserves_with mirrored_known mirrored_leaf. Qed.

Lemma mirrored_escape_on_wheel (dy : Q) :
  preserves mirrored (escape_on_wheel dy).
Proof. unfold escape_on_wheel. preserves_with mirrored_known mirrored_leaf. Qed.

Lemma mirrored_wheel_climb (dy : Q) (elements : list nat) :
  preserves mirrored (wheel_climb dy elements).
Proof.
  induction elements as [|element parents IH]; simpl.
  - apply preserves_ret.
  - preserves_with
      ltac:(first [apply mirrored_escape_on_wheel|exact IH]) mirrored_leaf.
Qed.

Lemma mirrored_handleWheel (event : WheelEvent) :
  preserves mirrored (handleWheel event).
Proof.
  unfold handleWheel.
  preserves_with ltac:(first [apply mirrored_wheel_climb|mirrored_known])
                 mirrored_leaf.
Qed.

Lemma mirrored_resizeObserved (height now : Q) :
  preserves mirrored (resizeObserved height now).
Proof. unfold resizeObserved. preserves_with mirrored_known mirrored_leaf. Qed.

Lemma mirrored_documentModeEffect : preserves mirrored documentModeEffect.
Proof.
  unfold documentModeEffect. preserves_with mirrored_known mirrored_leaf.
Qed.

Lemma mirrored_run_task (t : Task) (now tick : Q) :
  preserves mirrored (run_task t now tick).
Proof.
  destruct t; simpl;
    preserves_with
      ltac:(first [apply mirrored_scrollTimeout|mirrored_known])
      mirrored_leaf.
Qed.

Lemma mirrored_perform (op : Op) : preserves mirrored (perform op).
Proof.
  destruct op; simpl;
    preserves_with
      ltac:(first
              [ apply mirrored_stopScroll
              | apply mirrored_handleWheel
              | apply mirrored_resizeObserved
              | apply mirrored_documentModeEffect
              | apply mirrored_run_task
              | mirrored_known ])
      mirrored_leaf.
Qed.

Lemma mirrored_run (ops : list Op) :
  forall w, mirrored w -> mirrored (run ops w).
Proof.
  induction ops as [|op ops IH]; intros w H; simpl; [exact H|].
  apply IH. apply mirrored_perform, H.
Qed.

(** X18: whatever happens to a mounted engine, the [escapedFromLock] the
    hook returns is the flag of the state record, and the [isAtBottom] it
    returns is the flag of the state record or the last published
    [isNearBottom]. *)
Theorem returned_flags_follow_state :
  forall (options : StickToBottomOptions) (mode : ScrollMode) (d : Page)
         (m : ModuleScope) (ops : list Op),
    let w := run ops (useStickToBottom options mode d m) in
    returned_escapedFromLock w = escapedFromLock (state w)
    /\ returned_isAtBottom w
       = isAtBottom (state w) || rs_isNearBottom (react w).
Proof.
  intros options mode d m ops w.
  assert (H : mirrored w) by (apply mirrored_run; split; reflexivity).
  destruct H as [He Hb].
  unfold returned_escapedFromLock, returned_isAtBottom.
  rewrite He, Hb. split; reflexivity.
Qed.

(** ** The document mode, and the near-bottom threshold *)

(** X19: the check made when the document mode is mounted publishes
    [isNearBottom] and sets [isAtBottom] when the view is near the bottom
    and not escaped; it never escapes, never clears [isAtBottom], never
    writes the page, and does nothing in element mode. *)
Theorem documentModeEffect_only_sticks :
  forall (w : World),
    let w' := exec documentModeEffect w in
    let sticks :=
      match scrollMode w with
      | DocumentMode =>
          negb (escapedFromLock (state w)) && fst (isNearBottom w)
      | ElementMode => false
      end in
    flags w' = (escapedFromLock (state w), isAtBottom (state w) || sticks)
    /\ surface w' = surface w
    /\ frames w' = frames w
    /\ match scrollMode w with
       | DocumentMode => rs_isNearBottom (react w') = fst (isNearBottom w)
       | ElementMode => w' = w
       end.
Proof.
  intros w w' sticks. subst w' sticks. unfold exec, documentModeEffect.
  rewrite bind_run. cbn [gets fst snd].
  destruct (scrollMode w) eqn:Hmode.
  { cbn [ret snd]. rewrite orb_false_r. repeat split; reflexivity. }
  destruct (calc_frame w) as (Hs & Hp & _ & _ & Hmode' & Hr & _).
  pose proof (calc_frames w) as Hf.
  rewrite bind_run, !isNearBottom_run. cbn [fst snd].
  rewrite bind_run, setIsNearBottom_run. cbn [fst snd].
  rewrite bind_run. cbn [gets fst snd state set_react]. rewrite Hs.
  unfold surface, flags, frames.
  destruct (escapedFromLock (state w)) eqn:Hesc; cbn [negb andb].
  - cbn [ret snd state page scrollMode pending react rs_isNearBottom
         set_react].
    fold (frames (snd (calculatedTargetScrollTop w))).
    rewrite Hs, Hp, Hmode', Hf, Hesc, orb_false_r.
    repeat split; reflexivity.
  - rewrite bind_run, isNearBottom_run, calc_set_react, calc_again.
    cbn [fst snd]. rewrite getScrollTop_set_react, getScrollTop_calc.
    destruct (js_le (js_sub (fst (calculatedTargetScrollTop w))
                (Num (getScrollTop w)))
         (Num STICK_TO_BOTTOM_OFFSET_PX)); cbn [when].
    + rewrite setIsAtBottom_run.
      cbn [snd state page scrollMode pending react rs_isNearBottom
           set_react set_state escapedFromLock isAtBottom st_isAtBottom].
      fold (frames (snd (calculatedTargetScrollTop w))).
      rewrite Hs, Hp, Hmode', Hf, Hesc, orb_true_r.
      repeat split; reflexivity.
    + cbn [ret snd state page scrollMode pending react rs_isNearBottom
           set_react].
      fold (frames (snd (calculatedTargetScrollTop w))).
      rewrite Hs, Hp, Hmode', Hf, Hesc, orb_false_r.
      repeat split; reflexivity.
Qed.

(** X20: in every world a mounted engine can reach, a view within the
    near-bottom threshold of the real bottom counts as near the bottom
    exactly when the calculated target is a number: always without a target
    resolver, with one for every answer but NaN; when the resolver's answer
    makes the calculated target NaN, the view does not count as near the
    bottom. *)
Theorem near_real_bottom_is_near_bottom :
  forall (options : StickToBottomOptions) (mode : ScrollMode) (d : Page)
         (m : ModuleScope) (ops : list Op),
    let w := run ops (useStickToBottom options mode d m) in
    targetScrollTop w - getScrollTop w <= STICK_TO_BOTTOM_OFFSET_PX ->
    fst (isNearBottom w)
    = match fst (calculatedTargetScrollTop w) with
      | Num _ => true
      | NaN => false
      end
    /\ (opt_targetScrollTop (optionsRef w) = None ->
        fst (isNearBottom w) = true).
Proof.
  intros options mode d m ops w Hnear.
  pose proof (lastCalculation_clamped_reachable options mode d m ops) as Hc.
  fold w in Hc.
  destruct (calculatedTargetScrollTop_spec w Hc) as (Hin & _).
  pose proof (targetScrollTop_nonneg w) as Ht.
  assert (Hnum : forall c,
            fst (calculatedTargetScrollTop w) = Num c ->
            fst (isNearBottom w) = true).
  { intros c Ec. rewrite isNearBottom_run, Ec. cbn [fst js_sub js_arith js_le].
    rewrite Ec in Hin. destruct Hin as [_ Hle]. apply Qle_bool_iff. lra. }
  split.
  - destruct (fst (calculatedTargetScrollTop w)) as [c|] eqn:Ec.
    + apply (Hnum c). reflexivity.
    + rewrite isNearBottom_run, Ec. reflexivity.
  - intros Hnone. unfold calculatedTargetScrollTop in Hnum.
    destruct (content_missing w); [apply (Hnum 0); reflexivity|].
    rewrite Hnone in Hnum.
    destruct (scrollMode w), (getScrollElement w);
      eapply Hnum; reflexivity.
Qed.

Lemma near_real_bottom_is_near_bottom_witness :
  let w := run [Environment (user_scrolls 940)]
             (useStickToBottom (ex_resolver_options ex_short_resolver)
                ElementMode (ex_page (fun q => q) 0 1500 500) module_init) in
  fst (isNearBottom w)
  = match fst (calculatedTargetScrollTop w) with
    | Num _ => true
    | NaN => false
    end
  /\ (opt_targetScrollTop (optionsRef w) = None ->
      fst (isNearBottom w) = true).
Proof.
  apply (near_real_bottom_is_near_bottom
           (ex_resolver_options ex_short_resolver) ElementMode
           (ex_page (fun q => q) 0 1500 500) module_init
           [Environment (user_scrolls 940)]).
  vm_compute. discriminate.
Defined.
